(** * School management backend: the three ledgers

    A shallow embedding of the Mongoose models and services that keep the
    membership ledger (Enrollment), the presence ledger (Attendance) and the
    financial ledger (Invoice, Payment), with the properties the
    specification states about them; then the queries of those models, the
    middleware in front of them (authentication, authorization, error
    replies) and the attendance controller, with further properties of the
    code.

    Conventions of the embedding.
    - An [async] method becomes a function from the state it reads to a
      result and the state it leaves behind; a rejected promise is [Err].
    - [new Date()] and the driver's ObjectId generator are read from an
      explicit environment [Env].
    - A JavaScript [Number] holding money is an integer of [Z] (minor
      currency units); rounding of binary floating point is not modelled.
    - An ObjectId is its hexadecimal string, so [toString()] of an id is
      the identity.
    - Schema declarations ([required], [min], [enum], [unique] indexes and
      [pre('save')] hooks) are part of the program.  Mongoose validates a
      document before it runs the hooks a schema registers with
      [pre('save')], and a unique index is checked by the store on write.
    - [populate] is modelled where the code reads the populated path, in
      the attendance service and the attendance listing: the path then holds
      a document or [null], and the text of a document is the string of no
      id.  Elsewhere a reference reads as the id it stores.
    - [timestamps: true] is modelled for the bulk write of attendance, where
      a replay shows it; [save] is modelled on the declared paths of a
      schema.  Left out: [__v] and the [trim] and [uppercase] setters. *)

From Stdlib Require Import ZArith Lia Ascii String.
From stdpp Require Import base option list strings pretty gmap sorting.

(** ** Values shared by all models *)

Definition ObjectId := string.
Definition Date := Z.

(** What a rejected promise carries: an error object with nothing but its
    message ([throw new Error(msg)], or a TypeError of the engine), a
    Mongoose ValidationError with the failing paths, a duplicate-key error
    of the store (code 11000) with the key pattern of the index, or
    Mongoose's DocumentNotFoundError when a saved document has no row. *)
Inductive JsError :=
| Error (message : string)
| ValidationError (paths : list string)
| DuplicateKey (keyPattern : list string)
| DocumentNotFoundError.

Inductive Result (A : Type) :=
| Ok (a : A)
| Err (e : JsError).
Arguments Ok {A} a.
Arguments Err {A} e.

#[global] Instance JsError_eq_dec : EqDecision JsError.
Proof. solve_decision. Defined.

Record Env := {
  now : Date;              (* new Date() *)
  fullYear : N;            (* new Date().getFullYear() *)
  newObjectId : ObjectId   (* the id given to a document built in this call *)
}.

(** ** String helpers of the JavaScript runtime *)

Module Js.

Local Open Scope string_scope.

(** [s.split(c)] for a one-character separator. *)
Fixpoint split (c : ascii) (s : string) : list string :=
  match s with
  | EmptyString => [EmptyString]
  | String a rest =>
      if Ascii.eqb a c then EmptyString :: split c rest
      else match split c rest with
           | [] => [String a EmptyString]
           | w :: ws => String a w :: ws
           end
  end.

Definition digit (a : ascii) : option N :=
  let n := N_of_ascii a in
  if ((48 <=? n) && (n <=? 57))%N then Some (n - 48)%N else None.

Fixpoint digits (acc : N) (s : string) : N :=
  match s with
  | EmptyString => acc
  | String a rest =>
      match digit a with
      | Some d => digits (10 * acc + d)%N rest
      | None => acc
      end
  end.

(** [parseInt(s)] on a string without sign or leading blanks: the number
    spelled by the leading decimal digits, [None] for NaN. *)
Definition parseInt (s : string) : option N :=
  match s with
  | EmptyString => None
  | String a _ => match digit a with
                  | Some _ => Some (digits 0 s)
                  | None => None
                  end
  end.

Fixpoint repeat_char (n : nat) (c : ascii) : string :=
  match n with
  | O => EmptyString
  | S k => String c (repeat_char k c)
  end.

(** [s.padStart(n, c)] *)
Definition padStart (n : nat) (c : ascii) (s : string) : string :=
  repeat_char (n - String.length s) c +:+ s.

(** [String(x)] for a number that may be NaN. *)
Definition String_of (x : option N) : string :=
  match x with
  | Some n => pretty n
  | None => "NaN"
  end.

(** [a.join(sep)] *)
Definition join (sep : string) (l : list string) : string :=
  String.concat sep l.

End Js.

(** ** Payment model (src/models/Payment.js) *)

Module Payment.

Local Open Scope string_scope.

(** The object literal handed to [Payment.create]; an absent key is
    [None]. *)
Record init := {
  i_invoiceId : option ObjectId;
  i_studentId : option ObjectId;
  i_paymentNumber : option string;
  i_amount : option Z;
  i_paymentMethod : option string;
  i_reference : option string;
  i_recordedBy : option ObjectId;
  i_notes : option string
}.

Record t := {
  _id : ObjectId;
  invoiceId : option ObjectId;
  studentId : option ObjectId;
  paymentNumber : option string;
  amount : option Z;
  currency : string;
  paymentMethod : option string;
  reference : option string;
  paymentDate : Date;
  recordedBy : option ObjectId;
  status : string;
  notes : option string
}.

#[global] Instance t_eq_dec : EqDecision t.
Proof. solve_decision. Defined.

(** [new Payment(literal)]: schema defaults applied. *)
Definition new (env : Env) (i : init) : t :=
  {| _id := newObjectId env;
     invoiceId := i_invoiceId i;
     studentId := i_studentId i;
     paymentNumber := i_paymentNumber i;
     amount := i_amount i;
     currency := "RAND";
     paymentMethod := i_paymentMethod i;
     reference := i_reference i;
     paymentDate := now env;
     recordedBy := i_recordedBy i;
     status := "successful";
     notes := i_notes i |}.

Definition set_paymentNumber (n : string) (p : t) : t :=
  {| _id := _id p; invoiceId := invoiceId p; studentId := studentId p;
     paymentNumber := Some n; amount := amount p; currency := currency p;
     paymentMethod := paymentMethod p; reference := reference p;
     paymentDate := paymentDate p; recordedBy := recordedBy p;
     status := status p; notes := notes p |}.

Definition paymentMethods : list string :=
  ["cash"; "bank_transfer"; "credit_card"; "debit_card"; "mobile_money"; "check"].

Definition statuses : list string :=
  ["successful"; "pending"; "failed"; "refunded"].

(** [!x] for an optional string: absent or empty. *)
Definition falsy (x : option string) : bool :=
  match x with
  | None => true
  | Some s => bool_decide (s = "")
  end.

(** The paths whose validators reject the document. *)
Definition invalid_paths (p : t) : list string :=
  (if invoiceId p is None then ["invoiceId"] else []) ++
  (if studentId p is None then ["studentId"] else []) ++
  (if falsy (paymentNumber p) then ["paymentNumber"] else []) ++
  (if amount p is None then ["amount"] else []) ++
  (match paymentMethod p with
   | Some m => if bool_decide (m ∈ paymentMethods) then [] else ["paymentMethod"]
   | None => ["paymentMethod"]
   end) ++
  (if recordedBy p is None then ["recordedBy"] else []) ++
  (if bool_decide (status p ∈ statuses) then [] else ["status"]).

(** [findOne({paymentNumber: /^prefix/}).sort('-paymentNumber')]: among the
    payments whose number starts with the prefix, the one whose number is
    greatest in string order. *)
Definition has_prefix (prefix : string) (p : t) : bool :=
  match paymentNumber p with
  | Some n => String.prefix prefix n
  | None => false
  end.

Definition number_of (p : t) : string := default "" (paymentNumber p).

Fixpoint greatest (best : option t) (ps : list t) : option t :=
  match ps with
  | [] => best
  | p :: rest =>
      match best with
      | None => greatest (Some p) rest
      | Some b =>
          match String.compare (number_of b) (number_of p) with
          | Lt => greatest (Some p) rest
          | _ => greatest (Some b) rest
          end
      end
  end.

Definition findLast (prefix : string) (ps : list t) : option t :=
  greatest None (filter (λ p, has_prefix prefix p = true) ps).

(** [generatePaymentNumber()]: no argument, one query over the whole
    collection. *)
Definition generatePaymentNumber (env : Env) (ps : list t) : string :=
  let prefix := "PAY-" +:+ pretty (fullYear env) +:+ "-" in
  let nextNumber :=
    match findLast prefix ps with
    | Some lastPayment =>
        match Js.parseInt (default "" (Js.split "-" (number_of lastPayment) !! 2%nat)) with
        | Some lastNumber => Some (lastNumber + 1)%N
        | None => None
        end
    | None => Some 1%N
    end in
  prefix +:+ Js.padStart 5 "0" (Js.String_of nextNumber).

(** [pre('save')]: number a new document that has none. *)
Definition pre_save (env : Env) (isNew : bool) (ps : list t) (p : t) : t :=
  if isNew && falsy (paymentNumber p)
  then set_paymentNumber (generatePaymentNumber env ps) p
  else p.

(** The unique index on [paymentNumber]. *)
Definition number_taken (p : t) (ps : list t) : bool :=
  bool_decide (Exists (λ q, paymentNumber q = paymentNumber p) ps).

(** [Payment.create(literal)]: build, validate, run the hook, insert. *)
Definition create (env : Env) (i : init) (ps : list t) : Result (t * list t) :=
  let doc := new env i in
  match invalid_paths doc with
  | [] =>
      let doc' := pre_save env true ps doc in
      if number_taken doc' ps then Err (DuplicateKey ["paymentNumber"])
      else Ok (doc', (ps ++ [doc'])%list)
  | paths => Err (ValidationError paths)
  end.

End Payment.


(** ** Invoice model (src/models/Invoice.js) *)

Module Invoice.

Local Open Scope string_scope.
Local Open Scope Z_scope.

Inductive Status := unpaid | partially_paid | paid | overdue | cancelled.

#[global] Instance Status_eq_dec : EqDecision Status.
Proof. solve_decision. Defined.

(** The paths the methods, hooks and numeric validators of the schema read
    or write; purely descriptive paths (description, term, notes, line
    items) are left out. *)
Record t := {
  _id : ObjectId;
  studentId : ObjectId;
  schoolId : ObjectId;
  invoiceNumber : string;
  amount : Z;
  dueDate : Date;
  status : Status;
  amountPaid : Z;
  balance : Z;
  paidDate : option Date
}.

#[global] Instance t_eq_dec : EqDecision t.
Proof. solve_decision. Defined.

Definition set_status (x : Status) (i : t) : t :=
  {| _id := _id i; studentId := studentId i; schoolId := schoolId i;
     invoiceNumber := invoiceNumber i; amount := amount i; dueDate := dueDate i;
     status := x; amountPaid := amountPaid i; balance := balance i;
     paidDate := paidDate i |}.

Definition set_amountPaid (x : Z) (i : t) : t :=
  {| _id := _id i; studentId := studentId i; schoolId := schoolId i;
     invoiceNumber := invoiceNumber i; amount := amount i; dueDate := dueDate i;
     status := status i; amountPaid := x; balance := balance i;
     paidDate := paidDate i |}.

Definition set_balance (x : Z) (i : t) : t :=
  {| _id := _id i; studentId := studentId i; schoolId := schoolId i;
     invoiceNumber := invoiceNumber i; amount := amount i; dueDate := dueDate i;
     status := status i; amountPaid := amountPaid i; balance := x;
     paidDate := paidDate i |}.

Definition set_paidDate (x : Date) (i : t) : t :=
  {| _id := _id i; studentId := studentId i; schoolId := schoolId i;
     invoiceNumber := invoiceNumber i; amount := amount i; dueDate := dueDate i;
     status := status i; amountPaid := amountPaid i; balance := balance i;
     paidDate := Some x |}.

(** The virtual [isOverdue]. *)
Definition isOverdue (env : Env) (i : t) : bool :=
  negb (bool_decide (status i = paid)) &&
  negb (bool_decide (status i = cancelled)) &&
  (dueDate i <? now env).

(** [min: 0] on [amount] and on [amountPaid]. *)
Definition invalid_paths (i : t) : list string :=
  ((if amount i <? 0 then ["amount"] else []) ++
   (if amountPaid i <? 0 then ["amountPaid"] else []))%list.

(** First [pre('save')] hook: update overdue status. *)
Definition pre_save_overdue (env : Env) (i : t) : t :=
  if isOverdue env i && bool_decide (status i = unpaid)
  then set_status overdue i
  else i.

(** The status the first hook leaves for status [x]: an invoice still unpaid past its due
    date becomes overdue. *)
Definition swept (env : Env) (i : t) (x : Status) : Status :=
  if bool_decide (x = unpaid) && (dueDate i <? now env) then overdue else x.

(** Second [pre('save')] hook: auto-calculate balance. *)
Definition pre_save_balance (i : t) : t :=
  set_balance (amount i - amountPaid i) i.

(** What [save()] writes for a document, or the validation error. *)
Definition save_doc (env : Env) (i : t) : Result t :=
  match invalid_paths i with
  | [] => Ok (pre_save_balance (pre_save_overdue env i))
  | paths => Err (ValidationError paths)
  end.

(** [Invoice.create(doc)]: the row of a new invoice. *)
Definition create (env : Env) (i : t) : Result t := save_doc env i.

(** One invoice being worked on: the document in memory ([this]), its row
    in the store, and the Payment collection. *)
Record State := {
  this : t;
  stored : t;
  payments : list Payment.t
}.

Definition loaded (row : t) (ps : list Payment.t) : State :=
  {| this := row; stored := row; payments := ps |}.

(** [this.save()]: the hooks also change the document in memory. *)
Definition save (env : Env) (s : State) : Result unit * State :=
  match save_doc env (this s) with
  | Ok row => (Ok (), {| this := row; stored := row; payments := payments s |})
  | Err e => (Err e, s)
  end.

(** The [paymentData] argument of [recordPayment]. *)
Record PaymentData := {
  paymentMethod : option string;
  reference : option string;
  notes : option string
}.

Section Methods.

(** [mongoose.model('Payment').create]: the model registered under the name
    'Payment' is looked up when the method runs. *)
Variable Payment_create :
  Env → Payment.init → list Payment.t → Result (Payment.t * list Payment.t).

Definition payment_literal (i : t) (paymentAmount : Z) (paymentData : PaymentData)
  : Payment.init :=
  {| Payment.i_invoiceId := Some (_id i);
     Payment.i_studentId := Some (studentId i);
     Payment.i_paymentNumber := None;
     Payment.i_amount := Some paymentAmount;
     Payment.i_paymentMethod := paymentMethod paymentData;
     Payment.i_reference := reference paymentData;
     Payment.i_recordedBy := None;
     Payment.i_notes := notes paymentData |}.

(** The assignments of [recordPayment] between the creation of the payment
    and [this.save()]. *)
Definition apply_amount (env : Env) (paymentAmount : Z) (i : t) : t :=
  let i1 := set_amountPaid (amountPaid i + paymentAmount) i in
  let i2 := set_balance (amount i1 - amountPaid i1) i1 in
  if balance i2 <=? 0 then set_paidDate (now env) (set_status paid i2)
  else if 0 <? amountPaid i2 then set_status partially_paid i2
  else i2.

Definition recordPayment (env : Env) (paymentAmount : Z) (paymentData : PaymentData)
  (s : State) : Result Payment.t * State :=
  if bool_decide (status (this s) = paid) then
    (Err (Error "Invoice is already paid"), s)
  else if bool_decide (status (this s) = cancelled) then
    (Err (Error "Cannot pay cancelled invoice"), s)
  else
    match Payment_create env (payment_literal (this s) paymentAmount paymentData)
            (payments s) with
    | Err e => (Err e, s)
    | Ok (payment, ps) =>
        let s1 := {| this := apply_amount env paymentAmount (this s);
                     stored := stored s;
                     payments := ps |} in
        match save env s1 with
        | (Ok _, s2) => (Ok payment, s2)
        | (Err e, s2) => (Err e, s2)
        end
    end.

Definition cancel (env : Env) (s : State) : Result unit * State :=
  if 0 <? amountPaid (this s) then
    (Err (Error "Cannot cancel invoice with payments"), s)
  else
    save env {| this := set_status cancelled (this s);
                stored := stored s;
                payments := payments s |}.

(** The mutations an invoice goes through, each at its own time. *)
Inductive Mutation :=
| ApplyPayment (env : Env) (paymentAmount : Z) (paymentData : PaymentData)
| Cancel (env : Env)
| Save (env : Env).

Definition step (s : State) (m : Mutation) : State :=
  match m with
  | ApplyPayment env a d => snd (recordPayment env a d s)
  | Cancel env => snd (cancel env s)
  | Save env => snd (save env s)
  end.

Definition run (ms : list Mutation) (s : State) : State :=
  foldl step s ms.

End Methods.

(** The balance invariant of a row. *)
Definition balance_ok (i : t) : Prop :=
  balance i = amount i - amountPaid i ∧ 0 <= amountPaid i.

End Invoice.


(** ** Class model (src/models/Class.js), as far as the ledgers read it *)

Module SchoolClass.

Record t := {
  _id : ObjectId;
  schoolId : ObjectId;
  name : string;
  academicYear : string
}.

(** [Class.findById(id)] *)
Definition findById (id : ObjectId) (cs : list t) : option t :=
  snd <$> list_find (λ c, _id c = id) cs.

(** [Class.findOne({ _id, schoolId })] *)
Definition findOne (id school : ObjectId) (cs : list t) : option t :=
  snd <$> list_find (λ c, _id c = id ∧ schoolId c = school) cs.

End SchoolClass.

(** ** Enrollment model (src/models/Enrollment.js) *)

Module Enrollment.

Local Open Scope string_scope.

Inductive Status := active | completed | transferred | withdrawn | suspended.

#[global] Instance Status_eq_dec : EqDecision Status.
Proof. solve_decision. Defined.

Record t := {
  _id : ObjectId;
  studentId : ObjectId;
  classId : ObjectId;
  academicYear : string;
  enrollmentDate : Date;
  status : Status;
  statusChangeDate : option Date;
  statusChangeReason : option string;
  transferredToClassId : option ObjectId;
  finalGrade : option string;
  notes : option string
}.

#[global] Instance t_eq_dec : EqDecision t.
Proof. solve_decision. Defined.

(** The object literal handed to [Enrollment.create]. *)
Record init := {
  i_studentId : ObjectId;
  i_classId : ObjectId;
  i_academicYear : option string;
  i_enrollmentDate : option Date;
  i_status : option Status
}.

Record Db := {
  classes : list SchoolClass.t;
  enrollments : list t
}.

Definition with_enrollments (rows : list t) (db : Db) : Db :=
  {| classes := classes db; enrollments := rows |}.

Definition set_academicYear (x : string) (e : t) : t :=
  {| _id := _id e; studentId := studentId e; classId := classId e;
     academicYear := x; enrollmentDate := enrollmentDate e; status := status e;
     statusChangeDate := statusChangeDate e;
     statusChangeReason := statusChangeReason e;
     transferredToClassId := transferredToClassId e;
     finalGrade := finalGrade e; notes := notes e |}.

Definition set_status (x : Status) (e : t) : t :=
  {| _id := _id e; studentId := studentId e; classId := classId e;
     academicYear := academicYear e; enrollmentDate := enrollmentDate e;
     status := x; statusChangeDate := statusChangeDate e;
     statusChangeReason := statusChangeReason e;
     transferredToClassId := transferredToClassId e;
     finalGrade := finalGrade e; notes := notes e |}.

Definition set_statusChangeDate (x : Date) (e : t) : t :=
  {| _id := _id e; studentId := studentId e; classId := classId e;
     academicYear := academicYear e; enrollmentDate := enrollmentDate e;
     status := status e; statusChangeDate := Some x;
     statusChangeReason := statusChangeReason e;
     transferredToClassId := transferredToClassId e;
     finalGrade := finalGrade e; notes := notes e |}.

Definition set_statusChangeReason (x : string) (e : t) : t :=
  {| _id := _id e; studentId := studentId e; classId := classId e;
     academicYear := academicYear e; enrollmentDate := enrollmentDate e;
     status := status e; statusChangeDate := statusChangeDate e;
     statusChangeReason := Some x;
     transferredToClassId := transferredToClassId e;
     finalGrade := finalGrade e; notes := notes e |}.

Definition set_transferredToClassId (x : ObjectId) (e : t) : t :=
  {| _id := _id e; studentId := studentId e; classId := classId e;
     academicYear := academicYear e; enrollmentDate := enrollmentDate e;
     status := status e; statusChangeDate := statusChangeDate e;
     statusChangeReason := statusChangeReason e;
     transferredToClassId := Some x;
     finalGrade := finalGrade e; notes := notes e |}.

Definition set_finalGrade (x : option string) (e : t) : t :=
  {| _id := _id e; studentId := studentId e; classId := classId e;
     academicYear := academicYear e; enrollmentDate := enrollmentDate e;
     status := status e; statusChangeDate := statusChangeDate e;
     statusChangeReason := statusChangeReason e;
     transferredToClassId := transferredToClassId e;
     finalGrade := x; notes := notes e |}.

Definition set_notes (x : string) (e : t) : t :=
  {| _id := _id e; studentId := studentId e; classId := classId e;
     academicYear := academicYear e; enrollmentDate := enrollmentDate e;
     status := status e; statusChangeDate := statusChangeDate e;
     statusChangeReason := statusChangeReason e;
     transferredToClassId := transferredToClassId e;
     finalGrade := finalGrade e; notes := Some x |}.

(** [new Enrollment(literal)]: schema defaults applied; an absent academic
    year is the empty (falsy) string. *)
Definition new (env : Env) (i : init) : t :=
  {| _id := newObjectId env;
     studentId := i_studentId i;
     classId := i_classId i;
     academicYear := default "" (i_academicYear i);
     enrollmentDate := default (now env) (i_enrollmentDate i);
     status := default active (i_status i);
     statusChangeDate := None;
     statusChangeReason := None;
     transferredToClassId := None;
     finalGrade := None;
     notes := None |}.

(** *** The store: the [_id] index and the partial unique index

    [{ studentId, classId, academicYear, status }], unique, restricted by
    [partialFilterExpression: { status: 'active' }]. *)

Definition same_slot (a b : t) : Prop :=
  studentId a = studentId b ∧ classId a = classId b ∧
  academicYear a = academicYear b.

#[global] Instance same_slot_dec a b : Decision (same_slot a b).
Proof. unfold same_slot. apply _. Defined.

Definition clashes (e r : t) : Prop :=
  status e = active ∧ status r = active ∧ same_slot e r.

#[global] Instance clashes_dec e r : Decision (clashes e r).
Proof. unfold clashes. apply _. Defined.

Definition index_conflict (e : t) (rows : list t) : bool :=
  bool_decide (Exists (clashes e) rows).

Definition active_key : list string :=
  ["studentId"; "classId"; "academicYear"; "status"].

Definition insertOne (e : t) (rows : list t) : Result (list t) :=
  if bool_decide (Exists (λ r, _id r = _id e) rows) then Err (DuplicateKey ["_id"])
  else if index_conflict e rows then Err (DuplicateKey active_key)
  else Ok (rows ++ [e])%list.

(** The row a document was loaded from, with its position. *)
Definition findRow (id : ObjectId) (rows : list t) : option (nat * t) :=
  list_find (λ r, _id r = id) rows.

Definition findById (id : ObjectId) (rows : list t) : option t :=
  snd <$> findRow id rows.

(** *** Hooks *)

Definition mismatch (e : t) (c : SchoolClass.t) : string :=
  "Academic year mismatch: Enrollment is for " +:+ academicYear e +:+
  " but class is for " +:+ SchoolClass.academicYear c.

(** First [pre('save')] hook: the academic year must match the class. *)
Definition pre_save_class (touched : bool) (cs : list SchoolClass.t) (e : t)
  : Result t :=
  if touched then
    match SchoolClass.findById (classId e) cs with
    | None => Err (Error "Class not found")
    | Some classDoc =>
        let e' := if bool_decide (academicYear e = "")
                  then set_academicYear (SchoolClass.academicYear classDoc) e
                  else e in
        if bool_decide (academicYear e' = SchoolClass.academicYear classDoc)
        then Ok e'
        else Err (Error (mismatch e' classDoc))
    end
  else Ok e.

(** Second [pre('save')] hook: stamp the status change. *)
Definition pre_save_date (env : Env) (statusModified dateModified : bool) (e : t) : t :=
  if statusModified && negb dateModified
  then set_statusChangeDate (now env) e
  else e.

(** [required] on [academicYear]: an empty string does not pass. *)
Definition invalid_paths (e : t) : list string :=
  if bool_decide (academicYear e = "") then ["academicYear"] else [].

(** [Enrollment.create(literal)] *)
Definition create (env : Env) (i : init) (db : Db) : Result (t * Db) :=
  let doc := new env i in
  match invalid_paths doc with
  | [] =>
      match pre_save_class true (classes db) doc with
      | Err e => Err e
      | Ok doc1 =>
          let doc2 := pre_save_date env (bool_decide (is_Some (i_status i))) false doc1 in
          match insertOne doc2 (enrollments db) with
          | Err e => Err e
          | Ok rows => Ok (doc2, with_enrollments rows db)
          end
      end
  | paths => Err (ValidationError paths)
  end.

(** [this.save()] of a document loaded from the store: a path is modified
    when it differs from the row the document was read from. *)
Definition save (env : Env) (this : t) (db : Db) : Result (t * Db) :=
  match findRow (_id this) (enrollments db) with
  | None => Err DocumentNotFoundError
  | Some (k, row) =>
      match invalid_paths this with
      | [] =>
          match pre_save_class (bool_decide (classId this ≠ classId row))
                  (classes db) this with
          | Err e => Err e
          | Ok d1 =>
              let d2 := pre_save_date env
                          (bool_decide (status this ≠ status row))
                          (bool_decide (statusChangeDate this ≠ statusChangeDate row))
                          d1 in
              if index_conflict d2 (delete k (enrollments db))
              then Err (DuplicateKey active_key)
              else Ok (d2, with_enrollments (<[k := d2]> (enrollments db)) db)
          end
      | paths => Err (ValidationError paths)
      end
  end.

(** *** Instance methods

    Each returns its result, the document in memory as the method leaves it,
    and the store. *)

(** The four assignments that open [transferTo]. *)
Definition mark_transferred (env : Env) (newClassId : ObjectId) (reason : string)
  (this : t) : t :=
  set_statusChangeReason reason
    (set_statusChangeDate (now env)
       (set_transferredToClassId newClassId
          (set_status transferred this))).

Definition transferTo (env : Env) (newClassId : ObjectId) (reason : string)
  (this : t) (db : Db) : Result t * t * Db :=
  let this1 := mark_transferred env newClassId reason this in
  match save env this1 db with
  | Err e => (Err e, this1, db)
  | Ok (this2, db1) =>
      match SchoolClass.findById newClassId (classes db1) with
      | None => (Err (Error "Target class not found"), this2, db1)
      | Some newClass =>
          match create env
                  {| i_studentId := studentId this2;
                     i_classId := newClassId;
                     i_academicYear := Some (SchoolClass.academicYear newClass);
                     i_enrollmentDate := Some (now env);
                     i_status := Some active |} db1 with
          | Err e => (Err e, this2, db1)
          | Ok (newEnrollment, db2) => (Ok newEnrollment, this2, db2)
          end
      end
  end.

Definition complete (env : Env) (grade : option string) (note : option string)
  (this : t) (db : Db) : Result t * t * Db :=
  let this1 :=
    set_finalGrade grade (set_statusChangeDate (now env) (set_status completed this)) in
  let this2 :=
    match note with
    | Some n => if bool_decide (n = "") then this1 else set_notes n this1
    | None => this1
    end in
  match save env this2 db with
  | Err e => (Err e, this2, db)
  | Ok (this3, db1) => (Ok this3, this3, db1)
  end.

Definition withdraw (env : Env) (reason : string) (this : t) (db : Db)
  : Result t * t * Db :=
  let this1 :=
    set_statusChangeReason reason
      (set_statusChangeDate (now env) (set_status withdrawn this)) in
  match save env this1 db with
  | Err e => (Err e, this1, db)
  | Ok (this2, db1) => (Ok this2, this2, db1)
  end.

(** *** Static methods *)

(** [findActiveByClass(classId)] *)
Definition findActiveByClass (class : ObjectId) (rows : list t) : list t :=
  filter (λ e, classId e = class ∧ status e = active) rows.

(** [Enrollment.updateMany({ studentId, status: 'active' }, { status:
    'withdrawn', ... })] as the student service issues it when a student is
    deleted. *)
Definition withdrawAll (env : Env) (student : ObjectId) (rows : list t) : list t :=
  (λ e, if bool_decide (studentId e = student ∧ status e = active)
        then set_statusChangeReason "Student record deleted"
               (set_statusChangeDate (now env) (set_status withdrawn e))
        else e) <$> rows.

(** *** The operations that write memberships *)

Inductive Op :=
| Create (env : Env) (i : init)
| TransferTo (env : Env) (id newClassId : ObjectId) (reason : string)
| Complete (env : Env) (id : ObjectId) (grade note : option string)
| Withdraw (env : Env) (id : ObjectId) (reason : string)
| WithdrawAll (env : Env) (student : ObjectId).

(** A method is called on the document found by id; without a row nothing
    is written. *)
Definition on_doc (id : ObjectId) (f : t → Db → Result t * t * Db) (db : Db) : Db :=
  match findById id (enrollments db) with
  | Some this => snd (f this db)
  | None => db
  end.

Definition step (db : Db) (op : Op) : Db :=
  match op with
  | Create env i =>
      match create env i db with
      | Ok (_, db') => db'
      | Err _ => db
      end
  | TransferTo env id c reason => on_doc id (transferTo env c reason) db
  | Complete env id g n => on_doc id (complete env g n) db
  | Withdraw env id reason => on_doc id (withdraw env reason) db
  | WithdrawAll env student =>
      with_enrollments (withdrawAll env student (enrollments db)) db
  end.

Definition run (ops : list Op) (db : Db) : Db := foldl step db ops.

(** At most one active membership per (student, class, academic year). *)
Definition unique_active (rows : list t) : Prop :=
  ∀ (j k : nat) (a b : t),
    rows !! j = Some a → rows !! k = Some b →
    status a = active → status b = active → same_slot a b → j = k.

End Enrollment.


(** ** Attendance model (src/models/Attendance.js)

    [bulkWrite] talks to the collection directly and [updateAttendance]
    assigns paths by name, so an attendance document is the finite map from
    path names to values that the store holds. *)

Module Attendance.

Local Open Scope string_scope.
Local Open Scope Z_scope.

Inductive Value :=
| VUndefined
| VNull
| VBool (b : bool)
| VNum (z : Z)
| VStr (s : string)
| VId (o : ObjectId)
| VDate (d : Date).

#[global] Instance Value_eq_dec : EqDecision Value.
Proof. solve_decision. Defined.

Abbreviation Doc := (gmap string Value).

(** One element of [attendanceRecords]. *)
Record Entry := {
  studentId : ObjectId;
  status : string;
  notes : option string;
  arrivalTime : option string
}.

Definition statuses : list string :=
  ["present"; "absent"; "late"; "excused"; "sick"].

Definition msPerDay : Z := 86400000.

(** [d = new Date(date); d.setHours(0, 0, 0, 0)]: midnight of the local day,
    for a zone [tz] milliseconds east of UTC. *)
Definition startOfDay (tz : Z) (date : Date) : Date :=
  date - (date + tz) mod msPerDay.

(** [x || ''] and [x || null] *)
Definition or_empty (x : option string) : Value :=
  match x with
  | Some s => VStr s
  | None => VStr ""
  end.

Definition or_null (x : option string) : Value :=
  match x with
  | Some s => if bool_decide (s = "") then VNull else VStr s
  | None => VNull
  end.

(** One [updateOne] operation of the bulk write, with [upsert: true]. *)
Record UpdateOne := {
  filter_studentId : ObjectId;
  filter_date : Date;
  set_fields : Doc;        (* $set *)
  set_on_insert : Doc      (* $setOnInsert *)
}.

Definition matches (op : UpdateOne) (d : Doc) : Prop :=
  d !! "studentId" = Some (VId (filter_studentId op)) ∧
  d !! "date" = Some (VDate (filter_date op)).

#[global] Instance matches_dec op d : Decision (matches op d).
Proof. unfold matches. apply _. Defined.

Record BulkWriteResult := {
  upsertedCount : nat;
  modifiedCount : nat
}.

Section Collection.

(** The ObjectId the store gives to a document it inserts. *)
Variable generateId : list Doc → ObjectId.

(** The document an upsert inserts: the equality fields of the filter, the
    [$set] and [$setOnInsert] fields and a new [_id]. *)
Definition upserted (op : UpdateOne) (rows : list Doc) : Doc :=
  set_fields op ∪
  (set_on_insert op ∪
   <["_id" := VId (generateId rows)]>
     (<["studentId" := VId (filter_studentId op)]>
        (<["date" := VDate (filter_date op)]> ∅))).

Definition updateOne (acc : BulkWriteResult * list Doc) (op : UpdateOne)
  : BulkWriteResult * list Doc :=
  let '(res, rows) := acc in
  match list_find (matches op) rows with
  | Some (k, d) =>
      let d' := set_fields op ∪ d in
      ({| upsertedCount := upsertedCount res;
          modifiedCount := if bool_decide (d' = d) then modifiedCount res
                           else S (modifiedCount res) |},
       <[k := d']> rows)
  | None =>
      ({| upsertedCount := S (upsertedCount res);
          modifiedCount := modifiedCount res |},
       (rows ++ [upserted op rows])%list)
  end.

(** The rows one operation leaves, apart from the counters. *)
Definition written (rows : list Doc) (op : UpdateOne) : list Doc :=
  match list_find (matches op) rows with
  | Some (k, d) => <[k := set_fields op ∪ d]> rows
  | None => (rows ++ [upserted op rows])%list
  end.

(** What [timestamps: true] of the schema makes Mongoose add to an update
    before it is sent: [updatedAt] on every write, [createdAt] on insert. *)
Definition timestamps (now : Date) (op : UpdateOne) : UpdateOne :=
  {| filter_studentId := filter_studentId op;
     filter_date := filter_date op;
     set_fields := <["updatedAt" := VDate now]> (set_fields op);
     set_on_insert := <["createdAt" := VDate now]> (set_on_insert op) |}.

(** [this.bulkWrite(operations)], called at the time [now]: the operations,
    stamped, in order. *)
Definition bulkWrite (now : Date) (ops : list UpdateOne) (rows : list Doc)
  : BulkWriteResult * list Doc :=
  foldl updateOne ({| upsertedCount := 0; modifiedCount := 0 |}, rows)
    (timestamps now <$> ops).

Definition operation (classId : ObjectId) (normalizedDate : Date)
  (recordedBy : ObjectId) (classDoc : SchoolClass.t) (record : Entry) : UpdateOne :=
  {| filter_studentId := studentId record;
     filter_date := normalizedDate;
     set_fields :=
       <["classId" := VId classId]>
         (<["status" := VStr (status record)]>
            (<["notes" := or_empty (notes record)]>
               (<["recordedBy" := VId recordedBy]>
                  (<["academicYear" := VStr (SchoolClass.academicYear classDoc)]>
                     (<["arrivalTime" := or_null (arrivalTime record)]> ∅)))));
     set_on_insert := ∅ |}.

(** The static [markClassAttendance]. *)
Definition markClassAttendance (tz : Z) (env : Env) (classId : ObjectId)
  (date : Date) (attendanceRecords : list Entry) (recordedBy : ObjectId)
  (classes : list SchoolClass.t) (rows : list Doc)
  : Result BulkWriteResult * list Doc :=
  match SchoolClass.findById classId classes with
  | None => (Err (Error "Class not found"), rows)
  | Some classDoc =>
      let normalizedDate := startOfDay tz date in
      let operations :=
        operation classId normalizedDate recordedBy classDoc <$> attendanceRecords in
      let '(res, rows') := bulkWrite (now env) operations rows in
      (Ok res, rows')
  end.

(** One call of the static method, and the rows a sequence of calls leaves. *)
Record Call := {
  call_env : Env;
  call_classId : ObjectId;
  call_date : Date;
  call_records : list Entry;
  call_recordedBy : ObjectId
}.

Definition called (tz : Z) (classes : list SchoolClass.t) (rows : list Doc)
  (c : Call) : list Doc :=
  (markClassAttendance tz (call_env c) (call_classId c) (call_date c)
     (call_records c) (call_recordedBy c) classes rows).2.

Definition run (tz : Z) (classes : list SchoolClass.t) (calls : list Call)
  (rows : list Doc) : list Doc :=
  foldl (called tz classes) rows calls.

End Collection.

(** *** Saving a loaded document *)

Definition schema_paths : list string :=
  ["_id"; "studentId"; "classId"; "date"; "status"; "arrivalTime"; "notes";
   "recordedBy"; "academicYear"].

Definition missing (d : Doc) (path : string) : bool :=
  match d !! path with
  | None | Some VUndefined | Some VNull => true
  | Some (VStr s) => bool_decide (s = "")
  | Some _ => false
  end.

(** [required] paths and the [enum] of [status]. *)
Definition invalid_paths (d : Doc) : list string :=
  (filter (λ p, missing d p = true)
     ["studentId"; "classId"; "date"; "recordedBy"; "academicYear"] ++
   match d !! "status" with
   | Some (VStr s) => if bool_decide (s ∈ statuses) then [] else ["status"]
   | _ => ["status"]
   end)%list.

(** First [pre('save')] hook: normalize a modified date. *)
Definition pre_save_date (tz : Z) (dateModified : bool) (d : Doc) : Doc :=
  if dateModified then
    match d !! "date" with
    | Some (VDate x) => <["date" := VDate (startOfDay tz x)]> d
    | _ => d
    end
  else d.

(** What reaches the row: the schema's paths; a path set to [undefined] is
    unset. *)
Definition persisted (d : Doc) : Doc :=
  filter (λ kv, kv.1 ∈ schema_paths ∧ kv.2 ≠ VUndefined) d.

Definition same_day (a b : Doc) : Prop :=
  a !! "studentId" = b !! "studentId" ∧ a !! "date" = b !! "date".

#[global] Instance same_day_dec a b : Decision (same_day a b).
Proof. unfold same_day. apply _. Defined.

Definition immutable_id : string :=
  "Performing an update on the path '_id' would modify the immutable field '_id'".

(** [doc.save()] for the document loaded from the row with the given id.
    The unique index [{ studentId, date }] is consulted when one of its
    paths is written. *)
Definition save (tz : Z) (id : ObjectId) (this : Doc) (rows : list Doc)
  : Result (Doc * list Doc) :=
  match list_find (λ r : Doc, r !! "_id" = Some (VId id)) rows with
  | None => Err DocumentNotFoundError
  | Some (k, row) =>
      match invalid_paths this with
      | [] =>
          let d1 := pre_save_date tz (bool_decide (this !! "date" ≠ row !! "date")) this in
          let d2 := persisted d1 in
          if bool_decide (d2 !! "_id" ≠ Some (VId id)) then Err (Error immutable_id)
          else if bool_decide (¬ same_day d2 row ∧
                               Exists (same_day d2) (delete k rows))
          then Err (DuplicateKey ["studentId"; "date"])
          else Ok (d1, <[k := d2]> rows)
      | paths => Err (ValidationError paths)
      end
  end.

(** *** Shape of the operations of one batch

    Neither [$set] nor [$setOnInsert] of an operation writes the paths of
    the filter, and two operations of a batch set the same paths. *)

Definition keyless (op : UpdateOne) : Prop :=
  (set_fields op !! "studentId" = None ∧ set_fields op !! "date" = None) ∧
  (set_on_insert op !! "studentId" = None ∧ set_on_insert op !! "date" = None).

Definition covers (op op' : UpdateOne) : Prop :=
  ∀ path, set_fields op !! path = None → set_fields op' !! path = None.

Definition same_key (op op' : UpdateOne) : Prop :=
  filter_studentId op = filter_studentId op' ∧ filter_date op = filter_date op'.

#[global] Instance same_key_dec op op' : Decision (same_key op op').
Proof. unfold same_key. apply _. Defined.

Definition batch_ok (ops : list UpdateOne) : Prop :=
  Forall keyless ops ∧ ∀ op op', op ∈ ops → op' ∈ ops → covers op op'.

(** An operation finds a row. *)
Definition present (op : UpdateOne) (rows : list Doc) : Prop :=
  is_Some (list_find (matches op) rows).

(** One row per (student, day). *)
Definition day_key (d : Doc) : option Value * option Value :=
  (d !! "studentId", d !! "date").

Definition unique_days (rows : list Doc) : Prop :=
  NoDup (day_key <$> rows).

(** *** Days

    The local day a time falls on, counted from the epoch, and the times
    that are the midnight of their day. *)






End Attendance.

(** ** Populated references (Mongoose's [populate('studentId')]) *)

Module Populate.

Local Open Scope string_scope.

(** What the populated path holds: the Student document the reference
    names, or [null] when no such student is stored. *)
Inductive Populated :=
| Null
| Document (id : ObjectId).

(** What [String(x)] gives for an id or a document: an id prints as its
    hexadecimal string; a document prints as its inspection,
    [{ _id: new ObjectId(...), ... }], which is the string of no id. *)
Inductive Text :=
| OfId (id : ObjectId)
| OfDocument (id : ObjectId).

#[global] Instance Populated_eq_dec : EqDecision Populated.
Proof. solve_decision. Defined.

#[global] Instance Text_eq_dec : EqDecision Text.
Proof. solve_decision. Defined.

Section Students.

(** The Student model is not among the sources; [populate] asks it whether
    a student with the id is stored. *)
Variable Student_exists : ObjectId → bool.

Definition populate (id : ObjectId) : Populated :=
  if Student_exists id then Document id else Null.

End Students.

(** [x.toString()] of a populated path; [None]: the engine throws a
    TypeError, reading a property of [null]. *)
Definition toString (x : Populated) : option Text :=
  match x with
  | Null => None
  | Document id => Some (OfDocument id)
  end.

Definition reading_null : string :=
  "Cannot read properties of null (reading 'toString')".

End Populate.


(** ** Attendance service (src/services/attendanceService.js) *)

Module AttendanceService.

Import Attendance.

Local Open Scope string_scope.

(** The user object the controller passes ([recordedBy], [updatedBy]). *)
Record User := {
  _id : ObjectId;
  schoolId : ObjectId
}.

(** [AUDIT_ACTIONS] of src/config/constants.js. *)
Definition AUDIT_ACTIONS : gmap string string :=
  list_to_map
    [("LOGIN", "login"); ("LOGOUT", "logout"); ("LOGIN_FAILED", "login_failed");
     ("STUDENT_CREATED", "student_created"); ("STUDENT_UPDATED", "student_updated");
     ("STUDENT_DELETED", "student_deleted"); ("STUDENT_VIEWED", "student_viewed");
     ("INVOICE_CREATED", "invoice_created"); ("PAYMENT_RECORDED", "payment_recorded");
     ("UNAUTHORIZED_ACCESS", "unauthorized_access");
     ("PERMISSION_DENIED", "permission_denied")].

Record AuditEntry := {
  userId : ObjectId;
  action : option string;
  entity : string;
  entityId : option Value;
  auditSchoolId : ObjectId;
  success : bool;
  details : Doc
}.

Record Db := {
  classes : list SchoolClass.t;
  enrollments : list Enrollment.t;
  attendances : list Doc;
  audit : list AuditEntry
}.

Definition with_attendance (rows : list Doc) (db : Db) : Db :=
  {| classes := classes db; enrollments := enrollments db;
     attendances := rows; audit := audit db |}.

Definition with_audit (log : list AuditEntry) (db : Db) : Db :=
  {| classes := classes db; enrollments := enrollments db;
     attendances := attendances db; audit := log |}.

(** A student is active in a class when an active membership says so. *)
Definition active_in (db : Db) (classId student : ObjectId) : Prop :=
  ∃ e, e ∈ enrollments db ∧ Enrollment.classId e = classId ∧
       Enrollment.status e = Enrollment.active ∧
       Enrollment.studentId e = student.

(** What [markClassAttendance] resolves to. *)
Record Marked := {
  marked_success : bool;
  message : string;
  studentsMarked : nat
}.

Section Service.

Variable tz : Z.
Variable generateId : list Doc → ObjectId.
Variable Student_exists : ObjectId → bool.

(** [AuditLog.log]: the AuditLog model is not among the sources; the
    service only awaits it, so it is a collaborator that appends an entry or
    rejects. *)
Variable AuditLog_log : AuditEntry → list AuditEntry → Result (list AuditEntry).

Definition count_status (s : string) (records : list Entry) : nat :=
  length (filter (λ r, status r = s) records).

(** [attendanceRecords.filter(record =>
    !enrolledStudentIds.includes(record.studentId.toString()))]: the id of a
    record is looked up among the texts of the populated members. *)
Definition not_enrolled (enrolledStudentIds : list Populate.Text)
  (records : list Entry) : list Entry :=
  filter (λ record, Populate.OfId (studentId record) ∉ enrolledStudentIds) records.

Definition not_enrolled_message (invalidStudents : list Entry) : string :=
  "Students not enrolled in class: " +:+
  Js.join ", " (studentId <$> invalidStudents).

(** The [studentId] of the members [Enrollment.findActiveByClass] returns:
    the query ends in [.populate('studentId')]. *)
Definition populated (e : Enrollment.t) : Populate.Populated :=
  Populate.populate Student_exists (Enrollment.studentId e).

(** [markClassAttendance(classId, date, attendanceRecords, recordedBy)].
    [enrollments.map(e => e.studentId.toString())] reads the populated
    path: the text of each member's Student document, or a TypeError when
    the path is [null]. *)
Definition markClassAttendance (env : Env) (classId : ObjectId) (date : Date)
  (attendanceRecords : list Entry) (recordedBy : User) (db : Db)
  : Result Marked * Db :=
  match SchoolClass.findOne classId (schoolId recordedBy) (classes db) with
  | None => (Err (Error "Class not found"), db)
  | Some classDoc =>
      let enrollments := Enrollment.findActiveByClass classId (enrollments db) in
      match mapM (λ e, Populate.toString (populated e)) enrollments with
      | None => (Err (Error Populate.reading_null), db)
      | Some enrolledStudentIds =>
          let invalidStudents := not_enrolled enrolledStudentIds attendanceRecords in
          if bool_decide (0 < length invalidStudents)%nat then
            (Err (Error (not_enrolled_message invalidStudents)), db)
          else
            match Attendance.markClassAttendance generateId tz env classId date
                    attendanceRecords (_id recordedBy) (classes db) (attendances db) with
            | (Err e, rows) => (Err e, with_attendance rows db)
            | (Ok result, rows) =>
                let db1 := with_attendance rows db in
                let entry :=
                  {| userId := _id recordedBy;
                     action := AUDIT_ACTIONS !! "ATTENDANCE_MARKED";
                     entity := "attendance";
                     entityId := None;
                     auditSchoolId := schoolId recordedBy;
                     success := true;
                     details :=
                       <["classId" := VId classId]>
                         (<["date" := VDate date]>
                            (<["studentCount" := VNum (Z.of_nat (length attendanceRecords))]>
                               (<["presentCount" :=
                                    VNum (Z.of_nat (count_status "present" attendanceRecords))]>
                                  (<["absentCount" :=
                                       VNum (Z.of_nat (count_status "absent" attendanceRecords))]>
                                     ∅)))) |} in
                match AuditLog_log entry (audit db1) with
                | Err e => (Err e, db1)
                | Ok log =>
                    (Ok {| marked_success := true;
                           message := "Attendance marked successfully";
                           studentsMarked :=
                             upsertedCount result + modifiedCount result |},
                     with_audit log db1)
                end
            end
      end
  end.

(** [Attendance.findById(attendanceId)] *)
Definition findById (attendanceId : ObjectId) (rows : list Doc) : option Doc :=
  snd <$> list_find (λ r : Doc, r !! "_id" = Some (VId attendanceId)) rows.

Definition protected (key : string) : Prop :=
  key = "studentId" ∨ key = "classId" ∨ key = "date".

#[global] Instance protected_dec key : Decision (protected key).
Proof. unfold protected. apply _. Defined.

(** The body of [Object.keys(updates).forEach(...)] *)
Definition assign (attendance : Doc) (kv : string * Value) : Doc :=
  if bool_decide (protected kv.1) then attendance
  else <[kv.1 := kv.2]> attendance.

Definition assign_all (updates : Doc) (attendance : Doc) : Doc :=
  foldl assign attendance (map_to_list updates).

Definition updateAttendance (attendanceId : ObjectId) (updates : Doc)
  (updatedBy : User) (db : Db) : Result Doc * Db :=
  match findById attendanceId (attendances db) with
  | None => (Err (Error "Attendance record not found"), db)
  | Some attendance =>
      let classDoc :=
        match attendance !! "classId" with
        | Some (VId c) => SchoolClass.findOne c (schoolId updatedBy) (classes db)
        | _ => None
        end in
      match classDoc with
      | None => (Err (Error "Unauthorized"), db)
      | Some _ =>
          let attendance1 := assign_all updates attendance in
          match Attendance.save tz attendanceId attendance1 (attendances db) with
          | Err e => (Err e, db)
          | Ok (attendance2, rows) =>
              let db1 := with_attendance rows db in
              let entry :=
                {| userId := _id updatedBy;
                   action := AUDIT_ACTIONS !! "ATTENDANCE_UPDATED";
                   entity := "attendance";
                   entityId := attendance2 !! "_id";
                   auditSchoolId := schoolId updatedBy;
                   success := true;
                   details := updates |} in
              match AuditLog_log entry (audit db1) with
              | Err e => (Err e, db1)
              | Ok log => (Ok attendance2, with_audit log db1)
              end
          end
      end
  end.

End Service.

End AttendanceService.

(** ** The specification's statements about attendance *)

Module SpecAttendance.

Import Attendance.

(** "fails with ValidationError listing offending subject ids" *)
Definition fails_with_ValidationError {A} (r : Result A) : Prop :=
  ∃ paths, r = Err (ValidationError paths).


End SpecAttendance.


(** ** The specification's statements, as it words them

    Each predicate reads one sentence of the specification against the
    functions above, so that it can be tested on concrete inputs. *)

Module Spec.

Import Invoice.

Local Open Scope string_scope.
Local Open Scope Z_scope.

(** "balance <= 0 -> paid; else amountPaid > 0 -> partially_paid; else
    unchanged". *)
Definition status_rule (principal paidSoFar : Z) (old : Status) : Status :=
  if principal - paidSoFar <=? 0 then paid
  else if 0 <? paidSoFar then partially_paid
  else old.

Section Financial.

Variable Payment_create :
  Env → Payment.init → list Payment.t → Result (Payment.t * list Payment.t).

(** applyPayment: fails on a paid or cancelled invoice; otherwise creates a
    Payment, adds the amount, recomputes the balance and moves the status by
    [status_rule], stamping the paid date. *)
Definition applyPayment_outcome (env : Env) (amt : Z) (data : PaymentData)
  (s : State) : Prop :=
  let r := recordPayment Payment_create env amt data s in
  if bool_decide (status (this s) = paid ∨ status (this s) = cancelled)
  then ∃ m, r.1 = Err (Error m)
  else ∃ p, r.1 = Ok p ∧ p ∈ payments r.2 ∧
       amountPaid (stored r.2) = amountPaid (stored s) + amt ∧
       balance (stored r.2) = amount (stored s) - amountPaid (stored r.2) ∧
       status (stored r.2) =
         status_rule (amount (stored s)) (amountPaid (stored r.2)) (status (stored s)) ∧
       (status (stored r.2) = paid → paidDate (stored r.2) = Some (now env)).

(** A refund on a paid invoice succeeds and moves it back toward
    partially_paid. *)
Definition refund_reopens (env : Env) (amt : Z) (data : PaymentData)
  (s : State) : Prop :=
  let r := recordPayment Payment_create env amt data s in
  ∃ p, r.1 = Ok p ∧
       amountPaid (stored r.2) < amountPaid (stored s) ∧
       0 < balance (stored r.2) ∧
       status (stored r.2) ≠ paid.

End Financial.

End Spec.

(** ** Concrete documents used in the examples *)

Module Fixtures.

Local Open Scope string_scope.
Local Open Scope Z_scope.

Definition at_ (t : Date) (id : ObjectId) : Env :=
  {| now := t; fullYear := 2025; newObjectId := id |}.

Definition cash : Invoice.PaymentData :=
  {| Invoice.paymentMethod := Some "cash";
     Invoice.reference := None;
     Invoice.notes := None |}.

(** An invoice of 1000 for student s1 of school A, due at time 500. *)
Definition tuition : Invoice.t :=
  {| Invoice._id := "inv1"; Invoice.studentId := "s1"; Invoice.schoolId := "schoolA";
     Invoice.invoiceNumber := "INV-2025-00001"; Invoice.amount := 1000;
     Invoice.dueDate := 500; Invoice.status := Invoice.unpaid;
     Invoice.amountPaid := 0; Invoice.balance := 1000; Invoice.paidDate := None |}.

Definition tuition_paid : Invoice.t :=
  Invoice.set_paidDate 200
    (Invoice.set_status Invoice.paid
       (Invoice.set_balance 0 (Invoice.set_amountPaid 1000 tuition))).

Definition tuition_part : Invoice.t :=
  Invoice.set_status Invoice.partially_paid
    (Invoice.set_balance 600 (Invoice.set_amountPaid 400 tuition)).

(** A Payment model that completes the literal with the two required paths
    [recordPayment] does not pass, the recorder and a number, before the
    schema's own [create] runs. *)
Definition create_recorded (recorder : ObjectId) (env : Env) (i : Payment.init)
  (ps : list Payment.t) : Result (Payment.t * list Payment.t) :=
  Payment.create env
    {| Payment.i_invoiceId := Payment.i_invoiceId i;
       Payment.i_studentId := Payment.i_studentId i;
       Payment.i_paymentNumber := Some (Payment.generatePaymentNumber env ps);
       Payment.i_amount := Payment.i_amount i;
       Payment.i_paymentMethod := Payment.i_paymentMethod i;
       Payment.i_reference := Payment.i_reference i;
       Payment.i_recordedBy := Some recorder;
       Payment.i_notes := Payment.i_notes i |} ps.

End Fixtures.

(** ** The specification's statements about memberships *)

Module SpecMembership.

Import Enrollment.

(** "transfer requires the source Membership be active; fails with
    StateError otherwise", the source unchanged and nothing created. *)
Definition transfer_guarded (env : Env) (newClassId : ObjectId) (reason : string)
  (this : t) (db : Db) : Prop :=
  status this ≠ active →
  ∃ m, transferTo env newClassId reason this db = (Err (Error m), this, db).

(** "linked by successor reference": the forward link of the source names
    the membership the transfer created. *)
Definition successor_linked (env : Env) (newClassId : ObjectId) (reason : string)
  (this : t) (db : Db) : Prop :=
  ∀ newEnrollment this' db',
    transferTo env newClassId reason this db = (Ok newEnrollment, this', db') →
    transferredToClassId this' = Some (_id newEnrollment).

(** "if the second write fails, the first is rolled back or the retry does
    not duplicate the source transition": after a failed transfer the store
    is as before, or calling again leaves the store as the failed call left
    it. *)
Definition one_unit (env retry : Env) (newClassId : ObjectId) (reason : string)
  (this : t) (db : Db) : Prop :=
  ∀ e this' db',
    transferTo env newClassId reason this db = (Err e, this', db') →
    enrollments db' = enrollments db ∨
    enrollments (transferTo retry newClassId reason this' db').2 = enrollments db'.

End SpecMembership.

Module MembershipFixtures.

Import Enrollment.

Local Open Scope string_scope.
Local Open Scope Z_scope.

Definition grade1 : SchoolClass.t :=
  {| SchoolClass._id := "c1"; SchoolClass.schoolId := "schoolA";
     SchoolClass.name := "Grade 1"; SchoolClass.academicYear := "2025" |}.

Definition grade2 : SchoolClass.t :=
  {| SchoolClass._id := "c2"; SchoolClass.schoolId := "schoolA";
     SchoolClass.name := "Grade 2"; SchoolClass.academicYear := "2025" |}.

(** Student s1 in Grade 1, active since time 10. *)
Definition john : t :=
  {| _id := "e1"; studentId := "s1"; classId := "c1"; academicYear := "2025";
     enrollmentDate := 10; status := active; statusChangeDate := None;
     statusChangeReason := None; transferredToClassId := None;
     finalGrade := None; notes := None |}.

(** The same membership after a transfer at time 20. *)
Definition john_moved : t :=
  set_statusChangeReason "first move"
    (set_statusChangeDate 20 (set_transferredToClassId "c2" (set_status transferred john))).

Definition school (rows : list t) : Db :=
  {| classes := [grade1; grade2]; enrollments := rows |}.

Definition john_again : init :=
  {| i_studentId := "s1"; i_classId := "c1"; i_academicYear := Some "2025";
     i_enrollmentDate := None; i_status := None |}.

End MembershipFixtures.

Module AttendanceFixtures.

Import Attendance AttendanceService.

Local Open Scope string_scope.
Local Open Scope Z_scope.

Definition mary : Enrollment.t :=
  {| Enrollment._id := "e5"; Enrollment.studentId := "s2";
     Enrollment.classId := "c1"; Enrollment.academicYear := "2025";
     Enrollment.enrollmentDate := 10; Enrollment.status := Enrollment.active;
     Enrollment.statusChangeDate := None; Enrollment.statusChangeReason := None;
     Enrollment.transferredToClassId := None; Enrollment.finalGrade := None;
     Enrollment.notes := None |}.

Definition teacher : User := {| _id := "t1"; schoolId := "schoolA" |}.

Definition entry (student status : string) : Entry :=
  {| studentId := student; Attendance.status := status; notes := None;
     arrivalTime := None |}.

(** An ObjectId generator: the number of rows so far. *)
Definition numbered (rows : list Doc) : ObjectId :=
  "a" +:+ pretty (length rows).

(** An audit sink that appends. *)
Definition append_log (e : AuditEntry) (log : list AuditEntry)
  : Result (list AuditEntry) :=
  Ok (log ++ [e])%list.

(** Grade 1 with s1 and s2 active, nothing marked yet. *)
Definition monday : Db :=
  {| classes := [MembershipFixtures.grade1; MembershipFixtures.grade2];
     enrollments := [MembershipFixtures.john; mary];
     attendances := [];
     audit := [] |}.

(** 2025-01-15 09:30 UTC, and the midnight before it. *)
Definition morning : Date := 1736933400000.
Definition midnight : Date := 1736899200000.

Definition marked_s1 : Doc :=
  <["_id" := VId "a0"]>
    (<["studentId" := VId "s1"]>
       (<["date" := VDate midnight]>
          (<["classId" := VId "c1"]>
             (<["status" := VStr "present"]>
                (<["notes" := VStr ""]>
                   (<["recordedBy" := VId "t1"]>
                      (<["academicYear" := VStr "2025"]>
                         (<["arrivalTime" := VNull]> ∅)))))))).

(** The same school once s1 has been marked present. *)
Definition monday_marked : Db :=
  {| classes := classes monday; enrollments := enrollments monday;
     attendances := [marked_s1]; audit := [] |}.

(** A correction that also tries to move the record to another student,
    class and day. *)
Definition correction : Doc :=
  <["status" := VStr "late"]>
    (<["arrivalTime" := VStr "09:15"]>
       (<["studentId" := VId "s9"]>
          (<["classId" := VId "c2"]>
             (<["date" := VDate 0]> ∅)))).

End AttendanceFixtures.

(** ** The specification's statement about payment numbers *)

Module SpecNumbering.

Local Open Scope string_scope.

(** The tenant of a payment: the school of the invoice it pays. *)
Definition tenant (invoices : list Invoice.t) (p : Payment.t) : option ObjectId :=
  match Payment.invoiceId p with
  | Some i =>
      (Invoice.schoolId ∘ snd) <$> list_find (λ inv, Invoice._id inv = i) invoices
  | None => None
  end.

Definition of_tenant (invoices : list Invoice.t) (school : ObjectId)
  (ps : list Payment.t) : list Payment.t :=
  filter (λ p, tenant invoices p = Some school) ps.

(** "tenant-scoped sequence number": the next number a school gets depends
    on the payments of that school only. *)
Definition tenant_scoped (invoices : list Invoice.t) (env : Env)
  (school : ObjectId) : Prop :=
  ∀ ps ps',
    of_tenant invoices school ps = of_tenant invoices school ps' →
    Payment.generatePaymentNumber env ps = Payment.generatePaymentNumber env ps'.

End SpecNumbering.

Module PaymentFixtures.

Local Open Scope string_scope.
Local Open Scope Z_scope.

(** An invoice of another school. *)
Definition fees_B : Invoice.t :=
  {| Invoice._id := "inv9"; Invoice.studentId := "s7"; Invoice.schoolId := "schoolB";
     Invoice.invoiceNumber := "INV-2025-00001"; Invoice.amount := 300;
     Invoice.dueDate := 500; Invoice.status := Invoice.unpaid;
     Invoice.amountPaid := 0; Invoice.balance := 300; Invoice.paidDate := None |}.

Definition payment (id invoice student number : string) : Payment.t :=
  {| Payment._id := id; Payment.invoiceId := Some invoice;
     Payment.studentId := Some student; Payment.paymentNumber := Some number;
     Payment.amount := Some 100; Payment.currency := "RAND";
     Payment.paymentMethod := Some "cash"; Payment.reference := None;
     Payment.paymentDate := 90; Payment.recordedBy := Some "u1";
     Payment.status := "successful"; Payment.notes := None |}.

(** The first payment of 2025, made in school B. *)
Definition paid_in_B : Payment.t := payment "p0" "inv9" "s7" "PAY-2025-00001".

(** A payment with the same number, had it been made in school A. *)
Definition paid_in_A : Payment.t := payment "p0" "inv1" "s1" "PAY-2025-00001".

(** The second payment of 2025, made in school A. *)
Definition second_in_A : Payment.t := payment "p1" "inv1" "s1" "PAY-2025-00002".

End PaymentFixtures.


(** ** Invoice collection: the static methods of src/models/Invoice.js *)

Module InvoiceStatics.

Import Invoice.

Local Open Scope string_scope.
Local Open Scope Z_scope.

Definition has_prefix (prefix : string) (i : t) : bool :=
  String.prefix prefix (invoiceNumber i).

(** The first document of [.sort('-invoiceNumber')]: the greatest number in
    string order. *)
Fixpoint greatest (best : option t) (rows : list t) : option t :=
  match rows with
  | [] => best
  | i :: rest =>
      match best with
      | None => greatest (Some i) rest
      | Some b =>
          match String.compare (invoiceNumber b) (invoiceNumber i) with
          | Lt => greatest (Some i) rest
          | _ => greatest (Some b) rest
          end
      end
  end.

(** [findOne({ schoolId, invoiceNumber: /^prefix/ }).sort('-invoiceNumber')] *)
Definition findLast (school : ObjectId) (prefix : string) (rows : list t) : option t :=
  greatest None
    (filter (λ i, schoolId i = school ∧ has_prefix prefix i = true) rows).

(** [generateInvoiceNumber(schoolId)] *)
Definition generateInvoiceNumber (env : Env) (school : ObjectId) (rows : list t)
  : string :=
  let prefix := "INV-" +:+ pretty (fullYear env) +:+ "-" in
  let nextNumber :=
    match findLast school prefix rows with
    | Some lastInvoice =>
        match Js.parseInt (default "" (Js.split "-" (invoiceNumber lastInvoice) !! 2%nat)) with
        | Some lastNumber => Some (lastNumber + 1)%N
        | None => None
        end
    | None => Some 1%N
    end in
  prefix +:+ Js.padStart 5 "0" (Js.String_of nextNumber).

(** [findOverdue(schoolId)]: [{ schoolId, status: { $in: ['unpaid',
    'partially_paid'] }, dueDate: { $lt: new Date() } }]. *)
Definition findOverdue (env : Env) (school : ObjectId) (rows : list t) : list t :=
  filter (λ i, schoolId i = school ∧
               (status i = unpaid ∨ status i = partially_paid) ∧
               dueDate i < now env) rows.

(** The prefix of the numbers of the current year. *)
Definition prefix (env : Env) : string := "INV-" +:+ pretty (fullYear env) +:+ "-".

(** An invoice no method moves any more: cancelled, or paid with money
    received. *)
Definition closed (i : t) : Prop :=
  status i = cancelled ∨ (status i = paid ∧ 0 < amountPaid i).

(** What a closed invoice keeps. *)
Definition kept (s s' : State) : Prop :=
  this s' = stored s' ∧
  status (stored s') = status (stored s) ∧
  amountPaid (stored s') = amountPaid (stored s) ∧
  amount (stored s') = amount (stored s) ∧
  paidDate (stored s') = paidDate (stored s) ∧
  payments s' = payments s.

End InvoiceStatics.

(** ** Sequence numbers, as the generators spell them *)

Module Numbering.

Local Open Scope string_scope.

(** A string of decimal digits. *)
Fixpoint numeral (s : string) : Prop :=
  match s with
  | EmptyString => True
  | String a rest => is_Some (Js.digit a) ∧ numeral rest
  end.

(** A string without the character [c]. *)
Fixpoint free (c : ascii) (s : string) : Prop :=
  match s with
  | EmptyString => True
  | String a rest => a ≠ c ∧ free c rest
  end.

(** The [k]-th number of a sequence: the prefix and [k] padded to five
    digits. *)
Definition number (prefix : string) (k : N) : string :=
  prefix +:+ Js.padStart 5 "0" (pretty k).

End Numbering.

Module InvoiceFixtures.

Local Open Scope string_scope.
Local Open Scope Z_scope.

(** An unpaid invoice of 100, due at time 500. *)
Definition bill (id school number : string) : Invoice.t :=
  {| Invoice._id := id; Invoice.studentId := "s1"; Invoice.schoolId := school;
     Invoice.invoiceNumber := number; Invoice.amount := 100;
     Invoice.dueDate := 500; Invoice.status := Invoice.unpaid;
     Invoice.amountPaid := 0; Invoice.balance := 100; Invoice.paidDate := None |}.

(** Two invoices of school A and one of school B in 2025. *)
Definition ledger : list Invoice.t :=
  [bill "i1" "schoolA" "INV-2025-00001"; bill "i2" "schoolB" "INV-2025-00009";
   bill "i3" "schoolA" "INV-2025-00002"].

(** School A at the end of the five-digit range. *)
Definition full_ledger : list Invoice.t :=
  [bill "i1" "schoolA" "INV-2025-99999"; bill "i2" "schoolA" "INV-2025-100000"].

End InvoiceFixtures.

(** ** Enrollment queries (src/models/Enrollment.js, static methods) and the
    capacity check of src/models/Class.js *)

Module EnrollmentStatics.

Import Enrollment.

Local Open Scope string_scope.

(** [findCurrentByStudent(studentId)]: [findOne({ studentId, status:
    'active' })], the first such row of the collection. *)
Definition findCurrentByStudent (student : ObjectId) (rows : list t) : option t :=
  snd <$> list_find (λ e, studentId e = student ∧ status e = active) rows.

(** The order of [.sort('-academicYear -enrollmentDate')]: later academic
    year first (in string order), then later enrollment date first. *)
Definition newer_first (a b : t) : Prop :=
  match String.compare (academicYear a) (academicYear b) with
  | Gt => True
  | Eq => (enrollmentDate b <= enrollmentDate a)%Z
  | Lt => False
  end.

#[global] Instance newer_first_dec a b : Decision (newer_first a b).
Proof. unfold newer_first. destruct (String.compare _ _); apply _. Defined.

(** [getStudentHistory(studentId)] *)
Definition getStudentHistory (student : ObjectId) (rows : list t) : list t :=
  merge_sort newer_first (filter (λ e, studentId e = student) rows).

(** The method [isFull] of a class document with the given [capacity]:
    [countDocuments({ classId: this._id, status: 'active' }) >= this.capacity]. *)
Definition isFull (capacity : Z) (class : ObjectId) (rows : list t) : bool :=
  bool_decide
    (capacity <= Z.of_nat (length (findActiveByClass class rows)))%Z.

(** What identifies a membership: the paths that say who was where, and
    since when. *)
Definition identity (e : t) : ObjectId * ObjectId * ObjectId * string * Date :=
  (_id e, studentId e, classId e, academicYear e, enrollmentDate e).

(** Every row is still in its place, with its identity, and has not come
    back to 'active'. *)
Definition extends (rows rows' : list t) : Prop :=
  ∀ k r, rows !! k = Some r →
    ∃ r', rows' !! k = Some r' ∧ identity r' = identity r ∧
          (status r ≠ active → status r' ≠ active).

(** The document [withdraw(reason)] stores. *)
Definition withdrawn_at (env : Env) (reason : string) (this : t) : t :=
  set_statusChangeReason reason
    (set_statusChangeDate (now env) (set_status withdrawn this)).

(** The document [complete(finalGrade, notes)] stores. *)
Definition completed_at (env : Env) (grade note : option string) (this : t) : t :=
  let this1 :=
    set_finalGrade grade (set_statusChangeDate (now env) (set_status completed this)) in
  match note with
  | Some n => if bool_decide (n = "") then this1 else set_notes n this1
  | None => this1
  end.

(** The literal that enrolls the student of [this] in the same class and
    year again. *)
Definition again (this : t) : init :=
  {| i_studentId := studentId this;
     i_classId := classId this;
     i_academicYear := Some (academicYear this);
     i_enrollmentDate := None;
     i_status := None |}.

End EnrollmentStatics.

Module EnrollmentFixtures.

Local Open Scope string_scope.

(** Student s2 asking for a place in Grade 1. *)
Definition s2_joins : Enrollment.init :=
  {| Enrollment.i_studentId := "s2"; Enrollment.i_classId := "c1";
     Enrollment.i_academicYear := Some "2025";
     Enrollment.i_enrollmentDate := None; Enrollment.i_status := None |}.

End EnrollmentFixtures.

(** ** Attendance queries (src/models/Attendence.js, static methods) *)

Module AttendanceStatics.

Import Attendance.

Local Open Scope string_scope.
Local Open Scope Z_scope.

(** A document whose [studentId] has been populated: what the path then
    holds, and the other paths. *)
Record Listed := {
  student : Populate.Populated;
  paths : Doc
}.

Section Students.

Variable Student_exists : ObjectId → bool.

(** A row read with [.populate('studentId', ...)]. *)
Definition listed (d : Doc) : Listed :=
  {| student := match d !! "studentId" with
                | Some (VId s) => Populate.populate Student_exists s
                | _ => Populate.Null
                end;
     paths := delete "studentId" d |}.

(** [getClassAttendance(classId, date)]: [find({ classId, date:
    normalizedDate }).populate('studentId', ...)]. *)
Definition getClassAttendance (tz : Z) (classId : ObjectId) (date : Date)
  (rows : list Doc) : list Listed :=
  listed <$>
    filter (λ d : Doc, d !! "classId" = Some (VId classId) ∧
                       d !! "date" = Some (VDate (startOfDay tz date))) rows.

End Students.

Definition date_of (d : Doc) : option Date :=
  match d !! "date" with
  | Some (VDate x) => Some x
  | _ => None
  end.

(** [{ $gte: new Date(startDate), $lte: new Date(endDate) }] *)
Definition in_range (startDate endDate : Date) (d : Doc) : Prop :=
  match date_of d with
  | Some x => startDate <= x ∧ x <= endDate
  | None => False
  end.

#[global] Instance in_range_dec s e d : Decision (in_range s e d).
Proof. unfold in_range. destruct (date_of d); apply _. Defined.

(** The order of [.sort('date')]: a row without date comes first. *)
Definition earlier_first (a b : Doc) : Prop :=
  match date_of a, date_of b with
  | Some x, Some y => x <= y
  | None, _ => True
  | Some _, None => False
  end.

#[global] Instance earlier_first_dec a b : Decision (earlier_first a b).
Proof. unfold earlier_first. destruct (date_of a), (date_of b); apply _. Defined.

(** [getStudentAttendance(studentId, startDate, endDate)] *)
Definition getStudentAttendance (student : ObjectId) (startDate endDate : Date)
  (rows : list Doc) : list Doc :=
  merge_sort earlier_first
    (filter (λ d : Doc, d !! "studentId" = Some (VId student) ∧
                        in_range startDate endDate d) rows).

End AttendanceStatics.

(** ** Attendance service, the methods that read
    (src/services/attendanceService.js) *)

Module AttendanceReads.

Import Attendance AttendanceService.

Local Open Scope string_scope.

Section Students.

Variable Student_exists : ObjectId → bool.

(** The entry listed for a student nobody has marked yet:
    [{ studentId: enrollment.studentId, status: null, date: new Date(date) }],
    the member coming from [Enrollment.findActiveByClass] with its student
    populated. *)
Definition unmarked (date : Date) (e : Enrollment.t) : AttendanceStatics.Listed :=
  {| AttendanceStatics.student := populated Student_exists e;
     AttendanceStatics.paths := <["status" := VNull]> (<["date" := VDate date]> ∅) |}.

(** [getClassAttendance(classId, date, schoolId)] *)
Definition getClassAttendance (tz : Z) (classId : ObjectId) (date : Date)
  (schoolId : ObjectId) (db : Db) : Result (list AttendanceStatics.Listed) :=
  match SchoolClass.findOne classId schoolId (classes db) with
  | None => Err (Error "Class not found")
  | Some classDoc =>
      let attendance :=
        AttendanceStatics.getClassAttendance Student_exists tz classId date
          (attendances db) in
      if bool_decide (length attendance = 0%nat) then
        Ok (unmarked date <$> Enrollment.findActiveByClass classId (enrollments db))
      else Ok attendance
  end.

End Students.

(** The store after [Enrollment.updateMany({ studentId, status: 'active' },
    { status: 'withdrawn', ... })], the statement [deleteStudent] of the
    student service issues. *)
Definition after_withdrawAll (env : Env) (student : ObjectId) (db : Db) : Db :=
  {| classes := classes db;
     enrollments := Enrollment.withdrawAll env student (enrollments db);
     attendances := attendances db;
     audit := audit db |}.

End AttendanceReads.

Module AttendanceReadsFixtures.

Import Attendance AttendanceService.

Local Open Scope string_scope.

(** s1 marked twice and s2 once. *)
Definition batch : list Entry :=
  [AttendanceFixtures.entry "s1" "present"; AttendanceFixtures.entry "s2" "absent";
   AttendanceFixtures.entry "s1" "late"].

(** Student s1 is also in Grade 2, and was marked present in Grade 1 this
    morning. *)
Definition john_in_grade2 : Enrollment.t :=
  {| Enrollment._id := "e7"; Enrollment.studentId := "s1";
     Enrollment.classId := "c2"; Enrollment.academicYear := "2025";
     Enrollment.enrollmentDate := 10%Z; Enrollment.status := Enrollment.active;
     Enrollment.statusChangeDate := None; Enrollment.statusChangeReason := None;
     Enrollment.transferredToClassId := None; Enrollment.finalGrade := None;
     Enrollment.notes := None |}.

(** A store in which every student referred to exists, and one that has
    lost student s2. *)
Definition everyone (s : ObjectId) : bool := true.

Definition without_s2 (s : ObjectId) : bool := bool_decide (s ≠ "s2").

(** What the bulk write reports for [u] inserted and [m] modified rows. *)
Definition wrote (u m : nat) : BulkWriteResult :=
  {| upsertedCount := u; modifiedCount := m |}.



Definition two_classes : Db :=
  {| classes := classes AttendanceFixtures.monday;
     enrollments := enrollments AttendanceFixtures.monday ++ [john_in_grade2];
     attendances := [AttendanceFixtures.marked_s1];
     audit := [] |}.

End AttendanceReadsFixtures.

(** ** Payment collection (src/models/Payment.js, static methods) *)

Module PaymentStatics.

Import Payment.

Local Open Scope string_scope.
Local Open Scope Z_scope.

(** [if (startDate && endDate) query.paymentDate = { $gte, $lte }]: the
    period counts only when both ends are given. *)
Definition in_period (startDate endDate : option Date) (p : t) : Prop :=
  match startDate, endDate with
  | Some s, Some e => s <= paymentDate p ∧ paymentDate p <= e
  | _, _ => True
  end.

#[global] Instance in_period_dec s e p : Decision (in_period s e p).
Proof. destruct s, e; simpl; apply _. Defined.

(** The order of [.sort('-paymentDate')]. *)
Definition newest_first (a b : t) : Prop := paymentDate b <= paymentDate a.

#[global] Instance newest_first_dec a b : Decision (newest_first a b).
Proof. unfold newest_first. apply _. Defined.

(** [getStudentPayments(studentId, startDate, endDate)] *)
Definition getStudentPayments (student : ObjectId) (startDate endDate : option Date)
  (ps : list t) : list t :=
  merge_sort newest_first
    (filter (λ p, studentId p = Some student ∧ in_period startDate endDate p) ps).

(** A sequence of [Payment.create] calls, each with its own clock and
    id. *)
Definition step (ps : list t) (c : Env * init) : list t :=
  match create c.1 c.2 ps with
  | Ok (_, ps') => ps'
  | Err _ => ps
  end.

Definition run (cs : list (Env * init)) (ps : list t) : list t := foldl step ps cs.

(** The prefix of the payment numbers of the current year. *)
Definition year_prefix (env : Env) : string :=
  "PAY-" +:+ pretty (fullYear env) +:+ "-".

End PaymentStatics.

(** ** Roles and messages (src/config/constants.js) *)

Module Constants.

Local Open Scope string_scope.
Local Open Scope Z_scope.

Definition SUPERADMIN : string := "superadmin".
Definition ADMIN : string := "admin".
Definition TEACHER : string := "teacher".
Definition PARENT : string := "parent".
Definition STUDENT : string := "student".

Definition ROLES : list string := [SUPERADMIN; ADMIN; TEACHER; PARENT; STUDENT].

(** [ROLE_HIERARCHY]: the own keys of the object literal. *)
Definition ROLE_HIERARCHY : gmap string Z :=
  <[SUPERADMIN := 100]>
    (<[ADMIN := 50]> (<[TEACHER := 30]> (<[PARENT := 20]> (<[STUDENT := 10]> ∅)))).

Section Engine.

(** [ROLE_HIERARCHY] is a plain object: a name that is none of its keys
    reads as [undefined], unless it names a member inherited from
    [Object.prototype] ([constructor], [toString], ...).  Which names those
    are, and how [>=] compares two such members (on their string
    conversions), is the engine's. *)
Variable inherited : string → bool.
Variable inherited_geq : string → string → bool.

(** [hasPermission(userRole, requiredRole)]: [>=] between two levels
    compares them; with [undefined], or between a level and an inherited
    member, it is false. *)
Definition hasPermission (userRole requiredRole : string) : bool :=
  match ROLE_HIERARCHY !! userRole, ROLE_HIERARCHY !! requiredRole with
  | Some u, Some r => bool_decide (r <= u)
  | None, None =>
      inherited userRole && inherited requiredRole &&
      inherited_geq userRole requiredRole
  | _, _ => false
  end.

End Engine.

Definition UNAUTHORIZED : string := "Unauthorized access".
Definition FORBIDDEN : string := "Forbidden: Insufficient permissions".
Definition VALIDATION_ERROR : string := "Validation error".
Definition DUPLICATE_ENTRY : string := "Duplicate entry".
Definition INVALID_TOKEN : string := "Invalid authentication token".
Definition TOKEN_EXPIRED : string := "Authentication token expired".

End Constants.

(** ** Requests, replies and the security log of the middleware *)

Module Http.

Local Open Scope string_scope.

(** [s.split(sep)] for a separator that is not empty: [skip] counts the
    characters of a separator just met that are still to be passed. *)
Fixpoint split_go (sep : string) (skip : nat) (s : string) : list string :=
  match s with
  | EmptyString => [""]
  | String a rest =>
      match skip with
      | S k => split_go sep k rest
      | O =>
          if String.prefix sep s then
            "" :: split_go sep (String.length sep - 1) rest
          else
            match split_go sep 0 rest with
            | w :: ws => String a w :: ws
            | [] => [String a ""]
            end
      end
  end.

Definition split (sep s : string) : list string := split_go sep 0 s.

(** [s.includes(sep)] *)
Fixpoint includes (sep s : string) : bool :=
  String.prefix sep s ||
  match s with
  | EmptyString => false
  | String _ rest => includes sep rest
  end.

(** A user document as the middleware reads it (src/models/User.js). *)
Record UserDoc := {
  _id : ObjectId;
  firebaseUid : string;
  role : string;
  schoolId : ObjectId;
  isActive : bool;
  lastLogin : option Date
}.

Definition set_lastLogin (d : Date) (u : UserDoc) : UserDoc :=
  {| _id := _id u; firebaseUid := firebaseUid u; role := role u;
     schoolId := schoolId u; isActive := isActive u; lastLogin := Some d |}.

(** The parts of an Express request the middleware reads or writes. *)
Record Request := {
  authorization : option string;       (* req.headers.authorization *)
  userAgent : option string;           (* req.headers['user-agent'] *)
  ip : string;
  path : string;
  method : string;
  user : option UserDoc                (* req.user *)
}.

Definition set_user (u : UserDoc) (r : Request) : Request :=
  {| authorization := authorization r; userAgent := userAgent r; ip := ip r;
     path := path r; method := method r; user := Some u |}.

(** What a middleware does with a request: it calls [next()] with the
    request as it has left it, or it answers with
    [res.status(status).json({ success: false, error, message })]. *)
Inductive Outcome :=
| Next (req : Request)
| Reply (status : Z) (error message : string).

(** The object handed to [AuditLog.log] by the middleware. *)
Record SecurityEntry := {
  userId : option ObjectId;
  action : string;
  entity : string;
  entrySchoolId : option ObjectId;
  success : bool;
  errorMessage : string;
  ipAddress : string;
  entryUserAgent : option string;
  metadata : option (gmap string string)
}.

End Http.

(** ** User model (src/models/User.js), the permission table *)

Module UserModel.

Import Http.

Local Open Scope string_scope.

(** The object literal [permissions] of [canAccess]. *)
Definition permissions : gmap string (list string) :=
  <["admin" := ["all"]]>
    (<["teacher" := ["attendance"; "grades"; "class-management"]]>
       (<["parent" := ["student-records"; "invoices"; "payments"]]>
          (<["student" := ["own-records"; "own-grades"]]> ∅))).

(** [user.canAccess(resource)], as the condition its callers test:
    [permissions[this.role]?.includes(resource) ||
    permissions[this.role]?.includes('all')].  For a role that is no key of
    the table both sides are [undefined]; for a name that the table inherits
    from [Object.prototype] the member has no [includes] and the call throws
    ([None]). *)
Definition canAccess (inherited : string → bool) (u : UserDoc) (resource : string)
  : option bool :=
  match permissions !! role u with
  | Some granted =>
      Some (bool_decide (resource ∈ granted) || bool_decide ("all" ∈ granted))
  | None => if inherited (role u) then None else Some false
  end.

End UserModel.

(** ** Authorization (src/middleware/authorize.js) *)

Module Authorize.

Import Constants Http.

Local Open Scope string_scope.
Local Open Scope Z_scope.

Section Middleware.

Variable inherited : string → bool.
Variable inherited_geq : string → string → bool.

(** [AuditLog.log]: the AuditLog model is not among the sources; it appends
    an entry or rejects. *)
Variable AuditLog_log :
  SecurityEntry → list SecurityEntry → Result (list SecurityEntry).

Definition denied (allowedRoles : list string) (u : UserDoc) (req : Request)
  : SecurityEntry :=
  {| userId := Some (_id u);
     action := "permission_denied";
     entity := "system";
     entrySchoolId := Some (schoolId u);
     success := false;
     errorMessage :=
       "User with role " +:+ role u +:+
       " attempted to access resource requiring " +:+ Js.join " or " allowedRoles;
     ipAddress := ip req;
     entryUserAgent := userAgent req;
     metadata := Some (<["path" := path req]> (<["method" := method req]> ∅)) |}.

(** The middleware [authorize(allowedRoles)] returns. *)
Definition authorize (allowedRoles : list string) (req : Request)
  (log : list SecurityEntry) : Outcome * list SecurityEntry :=
  match user req with
  | None => (Reply 401 UNAUTHORIZED "Authentication required", log)
  | Some u =>
      let userRole := role u in
      let hasAccess :=
        existsb (λ allowedRole,
                   hasPermission inherited inherited_geq userRole allowedRole)
          allowedRoles in
      if hasAccess then (Next req, log)
      else
        match AuditLog_log (denied allowedRoles u req) log with
        | Ok log' => (Reply 403 FORBIDDEN "Insufficient permissions", log')
        | Err _ => (Reply 500 "Authorization failed" "Internal server error", log)
        end
  end.

Definition requireAdmin := authorize [ADMIN].
Definition requireTeacher := authorize [TEACHER].
Definition requireParent := authorize [PARENT].

End Middleware.

End Authorize.

(** ** Authentication (src/middleware/authenticate.js, src/config/firebase.js) *)

Module Authenticate.

Import Constants Http.

Local Open Scope string_scope.
Local Open Scope Z_scope.

(** The users collection and the security log. *)
Record Store := {
  users : list UserDoc;
  log : list SecurityEntry
}.

Definition with_users (us : list UserDoc) (st : Store) : Store :=
  {| users := us; log := log st |}.

Definition with_log (l : list SecurityEntry) (st : Store) : Store :=
  {| users := users st; log := l |}.

(** [User.findByFirebaseUid]: [findOne({ firebaseUid, isActive: true })]. *)
Definition findByFirebaseUid (uid : string) (us : list UserDoc) : option UserDoc :=
  snd <$> list_find (λ u, firebaseUid u = uid ∧ isActive u = true) us.

(** What the Firebase SDK decodes from a token it accepts. *)
Record DecodedToken := {
  uid : string;
  email : option string;
  email_verified : option bool
}.

(** The result object of [verifyIdToken]. *)
Inductive Verification :=
| Verified (uid : string) (email : option string) (emailVerified : option bool)
| Rejected (error : string).

(** [authHeader.split('Bearer ')[1]], of a header that starts with
    ['Bearer ']. *)
Definition idToken (authHeader : string) : string :=
  default "" (split "Bearer " authHeader !! 1%nat).

Definition failed_login (error : string) (req : Request) : SecurityEntry :=
  {| userId := None;
     action := "login_failed";
     entity := "user";
     entrySchoolId := None;
     success := false;
     errorMessage := error;
     ipAddress := ip req;
     entryUserAgent := userAgent req;
     metadata := None |}.

Section Middleware.

(** [admin.auth().verifyIdToken]: the decoded token, or the message of the
    error it rejects with. *)
Variable admin_verifyIdToken : string → DecodedToken + string.

Variable AuditLog_log :
  SecurityEntry → list SecurityEntry → Result (list SecurityEntry).

(** [user.save()] on the users collection; the schema of User is not
    embedded. *)
Variable User_save : UserDoc → list UserDoc → Result (list UserDoc).

Definition verifyIdToken (idToken : string) : Verification :=
  match admin_verifyIdToken idToken with
  | inl decodedToken =>
      Verified (uid decodedToken) (email decodedToken) (email_verified decodedToken)
  | inr message => Rejected message
  end.

(** [user.updateLastLogin().catch(console.error)]: the document is changed
    at once, its save is not awaited and a rejection is swallowed. *)
Definition updateLastLogin (env : Env) (u : UserDoc) (us : list UserDoc)
  : UserDoc * list UserDoc :=
  let u' := set_lastLogin (now env) u in
  (u', match User_save u' us with Ok us' => us' | Err _ => us end).

Definition authenticate (env : Env) (req : Request) (st : Store)
  : Outcome * Store :=
  match authorization req with
  | None => (Reply 401 UNAUTHORIZED "No authentication token provided", st)
  | Some authHeader =>
      if negb (String.prefix "Bearer " authHeader) then
        (Reply 401 UNAUTHORIZED "No authentication token provided", st)
      else
        match verifyIdToken (idToken authHeader) with
        | Rejected error =>
            match AuditLog_log (failed_login error req) (log st) with
            | Ok log' =>
                (Reply 401 INVALID_TOKEN "Invalid authentication token",
                 with_log log' st)
            | Err _ =>
                (Reply 500 "Authentication failed" "Internal server error", st)
            end
        | Verified uid _ _ =>
            match findByFirebaseUid uid (users st) with
            | None => (Reply 401 UNAUTHORIZED "User not found in system", st)
            | Some u =>
                if negb (isActive u) then
                  (Reply 403 FORBIDDEN "Account is deactivated", st)
                else
                  let '(u', us) := updateLastLogin env u (users st) in
                  (Next (set_user u' req), with_users us st)
            end
        end
  end.

End Middleware.

End Authenticate.

(** ** Error replies (src/middleware/errorHandler.js) *)

Module ErrorHandler.

Import Constants.

Local Open Scope string_scope.
Local Open Scope Z_scope.

(** The properties of a thrown value that the handler reads: [message] is
    empty when the value has none, [path] and [value] are given as they
    print. *)
Record Thrown := {
  name : string;
  code : option Z;
  statusCode : option Z;
  message : string;
  errors : option (list string);       (* the messages of Object.values(err.errors) *)
  keyPattern : option (list string);   (* Object.keys(err.keyPattern) *)
  path : string;
  value : string;
  stack : option string
}.

(** [res.status(status).json({ success: false, error, message, details,
    stack })], a member that is not sent being [None]. *)
Record Response := {
  status : Z;
  error : string;
  reply_message : option string;
  details : option (list string);
  reply_stack : option string
}.

(** [errorHandler(err, req, res, next)], with
    [development := process.env.NODE_ENV === 'development'].  [None]: the
    handler itself throws, reading [err.errors] or [err.keyPattern] of a
    value that has none. *)
Definition errorHandler (development : bool) (err : Thrown) : option Response :=
  if bool_decide (name err = "ValidationError") then
    match errors err with
    | Some messages =>
        Some {| status := 400; error := VALIDATION_ERROR;
                reply_message := Some "Validation failed";
                details := Some messages; reply_stack := None |}
    | None => None
    end
  else if bool_decide (code err = Some 11000) then
    match keyPattern err with
    | Some keys =>
        let field := default "undefined" (keys !! 0%nat) in
        Some {| status := 409; error := DUPLICATE_ENTRY;
                reply_message := Some ("Duplicate value for field: " +:+ field);
                details := None; reply_stack := None |}
    | None => None
    end
  else if bool_decide (name err = "CastError") then
    Some {| status := 400; error := VALIDATION_ERROR;
            reply_message := Some ("Invalid " +:+ path err +:+ ": " +:+ value err);
            details := None; reply_stack := None |}
  else if bool_decide (name err = "JsonWebTokenError") then
    Some {| status := 401; error := INVALID_TOKEN;
            reply_message := Some "Invalid token";
            details := None; reply_stack := None |}
  else if bool_decide (name err = "TokenExpiredError") then
    Some {| status := 401; error := TOKEN_EXPIRED;
            reply_message := Some "Token expired";
            details := None; reply_stack := None |}
  else
    Some {| status := match statusCode err with
                      | Some c => if bool_decide (c = 0) then 500 else c
                      | None => 500
                      end;
            error := if bool_decide (message err = "") then "Internal server error"
                     else message err;
            reply_message := None;
            details := None;
            reply_stack := if development then stack err else None |}.

(** The error objects behind the rejections of the models: a plain
    [Error] or a TypeError of the engine, Mongoose's ValidationError and
    DocumentNotFoundError, and the duplicate-key error of the driver.  What
    the libraries put in the other properties is left open. *)
Definition raised (e : JsError) (err : Thrown) : Prop :=
  match e with
  | Error msg =>
      (name err = "Error" ∨ name err = "TypeError") ∧ code err = None ∧
      statusCode err = None ∧ message err = msg
  | ValidationError _ => name err = "ValidationError" ∧ is_Some (errors err)
  | DuplicateKey keys =>
      name err ≠ "ValidationError" ∧ code err = Some 11000 ∧
      keyPattern err = Some keys
  | DocumentNotFoundError =>
      name err = "DocumentNotFoundError" ∧ code err = None ∧ statusCode err = None
  end.

End ErrorHandler.

(** ** Attendance controller (src/controllers/attendanceController.js) *)

Module AttendanceController.

Import Attendance AttendanceService.

Local Open Scope string_scope.
Local Open Scope Z_scope.

(** [req.body.records] when it is truthy: an array of records, or
    something else. *)
Inductive Records :=
| NotArray
| Array (records : list Entry).

(** The request of [POST /api/attendance/class/:classId]: a member of the
    body that is missing or falsy is [None]. *)
Record Request := {
  classId : ObjectId;                  (* req.params.classId *)
  date : option Date;                  (* req.body.date *)
  records : option Records;            (* req.body.records *)
  user : User                          (* req.user *)
}.

(** [res.json(result)], [res.status(status).json({ success: false, error })]
    or [next(error)]. *)
Inductive Outcome :=
| Json (result : Marked)
| Status (status : Z) (error : string)
| Next (e : JsError).

Section Controller.

Variable tz : Z.
Variable generateId : list Doc → ObjectId.
Variable Student_exists : ObjectId → bool.
Variable AuditLog_log : AuditEntry → list AuditEntry → Result (list AuditEntry).

Definition markClassAttendance (env : Env) (req : Request) (db : Db)
  : Outcome * Db :=
  match date req, records req with
  | Some date, Some (Array records) =>
      if bool_decide (length records = 0%nat) then
        (Status 400 "Records array cannot be empty", db)
      else
        match AttendanceService.markClassAttendance tz generateId Student_exists
                AuditLog_log env (classId req) date records (user req) db with
        | (Ok result, db') => (Json result, db')
        | (Err error, db') => (Next error, db')
        end
  | _, _ => (Status 400 "Date and records array are required", db)
  end.

End Controller.

End AttendanceController.

Module HttpFixtures.

Import Constants Http.

Local Open Scope string_scope.
Local Open Scope Z_scope.

(** A duplicate-key error as the driver builds it for the index of active
    memberships. *)
Definition duplicate_membership : ErrorHandler.Thrown :=
  {| ErrorHandler.name := "MongoServerError";
     ErrorHandler.code := Some 11000;
     ErrorHandler.statusCode := None;
     ErrorHandler.message := "E11000 duplicate key error";
     ErrorHandler.errors := None;
     ErrorHandler.keyPattern := Some Enrollment.active_key;
     ErrorHandler.path := "undefined";
     ErrorHandler.value := "undefined";
     ErrorHandler.stack := None |}.

(** A plain [Error] with a message. *)
Definition plain (msg : string) : ErrorHandler.Thrown :=
  {| ErrorHandler.name := "Error";
     ErrorHandler.code := None;
     ErrorHandler.statusCode := None;
     ErrorHandler.message := msg;
     ErrorHandler.errors := None;
     ErrorHandler.keyPattern := None;
     ErrorHandler.path := "undefined";
     ErrorHandler.value := "undefined";
     ErrorHandler.stack := Some "Error" |}.

(** A batch for Grade 1 that names a student who is not in the class. *)
Definition stranger : AttendanceController.Request :=
  {| AttendanceController.classId := "c1";
     AttendanceController.date := Some AttendanceFixtures.morning;
     AttendanceController.records :=
       Some (AttendanceController.Array
               [AttendanceFixtures.entry "s1" "present";
                AttendanceFixtures.entry "s9" "present"]);
     AttendanceController.user := AttendanceFixtures.teacher |}.

End HttpFixtures.


(** * Properties *)

(** ** Financial ledger *)

Module InvoiceProps.

Import Invoice.

Local Open Scope string_scope.
Local Open Scope Z_scope.

Section AnyPaymentModel.

Variable Payment_create :
  Env → Payment.init → list Payment.t → Result (Payment.t * list Payment.t).

Lemma pre_save_overdue_amounts env i :
  amount (pre_save_overdue env i) = amount i ∧
  amountPaid (pre_save_overdue env i) = amountPaid i.
Proof. unfold pre_save_overdue. by case_match. Qed.

(** Whatever [save()] writes satisfies the balance invariant. *)
Lemma save_doc_balance_ok env i row :
  save_doc env i = Ok row → balance_ok row.
Proof.
  unfold save_doc, invalid_paths.
  destruct (amount i <? 0) eqn:Ha; [done|].
  destruct (amountPaid i <? 0) eqn:Hp; [done|].
  simpl. intros [= <-].
  destruct (pre_save_overdue_amounts env i) as [Hm Hq].
  unfold balance_ok, pre_save_balance. simpl. rewrite Hq. lia.
Qed.

Lemma save_keeps_invariant env s :
  balance_ok (stored s) → balance_ok (stored (save env s).2).
Proof.
  intros Hs. unfold save.
  destruct (save_doc env (this s)) as [row|e] eqn:Hrow; simpl; [|done].
  by eapply save_doc_balance_ok.
Qed.

Lemma recordPayment_keeps_invariant env a d s :
  balance_ok (stored s) → balance_ok (stored (recordPayment Payment_create env a d s).2).
Proof.
  intros Hs. unfold recordPayment.
  repeat case_bool_decide; simpl; try done.
  destruct (Payment_create _ _ _) as [[p ps]|e]; simpl; [|done].
  match goal with |- context [save env ?s1] =>
    pose proof (save_keeps_invariant env s1 Hs) as Hk;
    destruct (save env s1) as [[u|e] s2] end; exact Hk.
Qed.

Lemma cancel_keeps_invariant env s :
  balance_ok (stored s) → balance_ok (stored (cancel env s).2).
Proof.
  intros Hs. unfold cancel. case_match; [done|].
  by apply save_keeps_invariant.
Qed.

Lemma step_keeps_invariant s m :
  balance_ok (stored s) → balance_ok (stored (step Payment_create s m)).
Proof.
  destruct m; simpl;
    auto using recordPayment_keeps_invariant, cancel_keeps_invariant,
               save_keeps_invariant.
Qed.

Lemma run_keeps_invariant ms s :
  balance_ok (stored s) → balance_ok (stored (run Payment_create ms s)).
Proof.
  revert s. induction ms as [|m ms IH]; intros s Hs; [done|].
  simpl. apply IH. by apply step_keeps_invariant.
Qed.

End AnyPaymentModel.

(** C1. An invoice row written by [Invoice.create] and then taken through
    any sequence of payment applications, cancellations and saves, against
    any Payment model, always has [balance = amount - amountPaid] and
    [amountPaid >= 0]. *)
Theorem invoice_balance_invariant
  (Payment_create : Env → Payment.init → list Payment.t →
                    Result (Payment.t * list Payment.t))
  (env : Env) (doc row : t) (ps : list Payment.t) (ms : list Mutation) :
  create env doc = Ok row →
  balance_ok (stored (run Payment_create ms (loaded row ps))).
Proof.
  intros Hrow. apply run_keeps_invariant. simpl.
  by eapply save_doc_balance_ok.
Qed.

Lemma invoice_balance_invariant_witness :
  create (Fixtures.at_ 50 "x") Fixtures.tuition = Ok Fixtures.tuition ∧
  balance_ok
    (stored
       (run (Fixtures.create_recorded "u1")
          [ApplyPayment (Fixtures.at_ 100 "p1") 400 Fixtures.cash;
           Cancel (Fixtures.at_ 150 "x");
           ApplyPayment (Fixtures.at_ 200 "p2") (-900) Fixtures.cash;
           Save (Fixtures.at_ 600 "x");
           ApplyPayment (Fixtures.at_ 700 "p3") 600 Fixtures.cash]
          (loaded Fixtures.tuition []))).
Proof.
  split; [reflexivity|].
  apply (invoice_balance_invariant _ (Fixtures.at_ 50 "x") Fixtures.tuition).
  reflexivity.
Defined.

(** *** What [recordPayment] does *)

Section RecordPayment.

Variable Payment_create :
  Env → Payment.init → list Payment.t → Result (Payment.t * list Payment.t).

Lemma recordPayment_paid env a d s :
  status (this s) = paid →
  recordPayment Payment_create env a d s = (Err (Error "Invoice is already paid"), s).
Proof. intros H. unfold recordPayment. by rewrite bool_decide_eq_true_2. Qed.

Lemma recordPayment_cancelled env a d s :
  status (this s) = cancelled →
  recordPayment Payment_create env a d s =
    (Err (Error "Cannot pay cancelled invoice"), s).
Proof.
  intros H. unfold recordPayment.
  rewrite bool_decide_eq_false_2 by congruence.
  by rewrite bool_decide_eq_true_2.
Qed.

(** The fields of the document after the assignments of [recordPayment]. *)
Lemma apply_amount_fields env a i :
  let i' := apply_amount env a i in
  amount i' = amount i ∧ dueDate i' = dueDate i ∧
  amountPaid i' = amountPaid i + a ∧
  balance i' = amount i - (amountPaid i + a) ∧
  status i' = Spec.status_rule (amount i) (amountPaid i + a) (status i) ∧
  paidDate i' = (if amount i - (amountPaid i + a) <=? 0 then Some (now env)
                 else paidDate i).
Proof.
  unfold apply_amount, Spec.status_rule. simpl.
  destruct (amount i - (amountPaid i + a) <=? 0); simpl; [done|].
  by destruct (0 <? amountPaid i + a).
Qed.

Lemma pre_save_overdue_status env i :
  status (pre_save_overdue env i) = swept env i (status i).
Proof.
  unfold pre_save_overdue, isOverdue, swept.
  destruct (status i) eqn:E; simpl; destruct (dueDate i <? now env); simpl;
    congruence.
Qed.

Lemma pre_save_overdue_rest env i :
  balance (pre_save_overdue env i) = balance i ∧
  paidDate (pre_save_overdue env i) = paidDate i ∧
  dueDate (pre_save_overdue env i) = dueDate i.
Proof. unfold pre_save_overdue. by case_match. Qed.

(** The literal sent to the Payment model reads the invoice's [_id] and
    [studentId] only, which no step of [recordPayment] or [save] writes. *)
Lemma literal_of_saved env a i :
  payment_literal (pre_save_balance (pre_save_overdue env (apply_amount env a i))) =
  payment_literal i.
Proof.
  unfold payment_literal, pre_save_balance, pre_save_overdue, apply_amount.
  repeat case_match; reflexivity.
Qed.

Lemma recordPayment_applied env a d s p ps :
  status (this s) ≠ paid → status (this s) ≠ cancelled →
  Payment_create env (payment_literal (this s) a d) (payments s) = Ok (p, ps) →
  0 <= amount (this s) → 0 <= amountPaid (this s) + a →
  ∃ row,
    recordPayment Payment_create env a d s = (Ok p, loaded row ps) ∧
    payment_literal row = payment_literal (this s) ∧
    amount row = amount (this s) ∧
    amountPaid row = amountPaid (this s) + a ∧
    balance row = amount (this s) - (amountPaid (this s) + a) ∧
    status row =
      swept env (this s)
        (Spec.status_rule (amount (this s)) (amountPaid (this s) + a)
           (status (this s))) ∧
    paidDate row = (if amount (this s) - (amountPaid (this s) + a) <=? 0
                    then Some (now env) else paidDate (this s)).
Proof.
  intros Hp Hc Hcreate Ham Hpaid. unfold recordPayment.
  rewrite !bool_decide_eq_false_2 by done. rewrite Hcreate.
  destruct (apply_amount_fields env a (this s)) as (Fa & Fd & Fp & Fb & Fs & Fdate).
  unfold save, save_doc, invalid_paths. simpl.
  rewrite Fa, Fp.
  replace (amount (this s) <? 0) with false by (symmetry; apply Z.ltb_ge; lia).
  replace (amountPaid (this s) + a <? 0) with false by (symmetry; apply Z.ltb_ge; lia).
  simpl. eexists. split; [reflexivity|].
  destruct (pre_save_overdue_amounts env (apply_amount env a (this s))) as [Ga Gp].
  destruct (pre_save_overdue_rest env (apply_amount env a (this s))) as (Gb & Gd & Gdue).
  simpl. rewrite Ga, Gp, Gd, pre_save_overdue_status, Fa, Fp, Fs, Fdate.
  split; [apply literal_of_saved|].
  repeat split; try done.
  unfold swept. by rewrite Fd.
Qed.

Lemma recordPayment_save_rejected env a d s p ps :
  status (this s) ≠ paid → status (this s) ≠ cancelled →
  Payment_create env (payment_literal (this s) a d) (payments s) = Ok (p, ps) →
  0 <= amount (this s) → amountPaid (this s) + a < 0 →
  recordPayment Payment_create env a d s =
    (Err (ValidationError ["amountPaid"]),
     {| this := apply_amount env a (this s); stored := stored s; payments := ps |}).
Proof.
  intros Hp Hc Hcreate Ham Hneg. unfold recordPayment.
  rewrite !bool_decide_eq_false_2 by done. rewrite Hcreate.
  destruct (apply_amount_fields env a (this s)) as (Fa & Fd & Fp & Fb & Fs & Fdate).
  unfold save, save_doc, invalid_paths. simpl. rewrite Fa, Fp.
  replace (amount (this s) <? 0) with false by (symmetry; apply Z.ltb_ge; lia).
  replace (amountPaid (this s) + a <? 0) with true by (symmetry; apply Z.ltb_lt; lia).
  reflexivity.
Qed.

Lemma recordPayment_create_rejected env a d s e :
  status (this s) ≠ paid → status (this s) ≠ cancelled →
  Payment_create env (payment_literal (this s) a d) (payments s) = Err e →
  recordPayment Payment_create env a d s = (Err e, s).
Proof.
  intros Hp Hc Hcreate. unfold recordPayment.
  rewrite !bool_decide_eq_false_2 by done. by rewrite Hcreate.
Qed.

End RecordPayment.

(** With the Payment schema of the repository the literal of
    [recordPayment] never validates: [recordedBy] and [paymentNumber] are
    required and not passed, so a payable invoice is left as it was. *)
Lemma recordPayment_with_repository_schema env a d s :
  status (this s) ≠ paid → status (this s) ≠ cancelled →
  ∃ paths, "recordedBy" ∈ paths ∧ "paymentNumber" ∈ paths ∧
    recordPayment Payment.create env a d s = (Err (ValidationError paths), s).
Proof.
  intros Hp Hc.
  assert (Hin : "recordedBy" ∈
            Payment.invalid_paths (Payment.new env (payment_literal (this s) a d)) ∧
          "paymentNumber" ∈
            Payment.invalid_paths (Payment.new env (payment_literal (this s) a d))).
  { unfold Payment.invalid_paths. simpl. set_solver. }
  destruct (Payment.invalid_paths (Payment.new env (payment_literal (this s) a d)))
    as [|x l] eqn:Hpaths.
  { destruct Hin as [Hin _]. by apply elem_of_nil in Hin. }
  exists (x :: l). split; [tauto|]. split; [tauto|].
  apply recordPayment_create_rejected; [done..|].
  unfold Payment.create. by rewrite Hpaths.
Qed.

(** C3.  With the Payment model of the repository the scenario the claim
    and the header of Invoice.js describe stops at its first step: on the
    unpaid invoice of 1000 a payment of 400 is rejected by [Payment.create]
    with a ValidationError, [recordPayment] passing neither the recorder nor
    a number, and the invoice stays unpaid with balance 1000 and no Payment.
    The same holds of every payment on an invoice that is neither paid nor
    cancelled; a paid and a cancelled invoice are refused as the claim
    says. *)
Theorem recordPayment_stops_at_the_payment :
  recordPayment Payment.create (Fixtures.at_ 100 "p1") 400 Fixtures.cash
    (loaded Fixtures.tuition []) =
    (Err (ValidationError ["paymentNumber"; "recordedBy"]),
     loaded Fixtures.tuition []) ∧
  (¬ Spec.applyPayment_outcome Payment.create (Fixtures.at_ 100 "p1") 400
       Fixtures.cash (loaded Fixtures.tuition [])) ∧
  (∀ env a d s,
     status (this s) ≠ paid → status (this s) ≠ cancelled →
     ∃ paths, "recordedBy" ∈ paths ∧ "paymentNumber" ∈ paths ∧
       recordPayment Payment.create env a d s = (Err (ValidationError paths), s)) ∧
  (∀ env a d s, status (this s) = paid →
     recordPayment Payment.create env a d s =
       (Err (Error "Invoice is already paid"), s)) ∧
  (∀ env a d s, status (this s) = cancelled →
     recordPayment Payment.create env a d s =
       (Err (Error "Cannot pay cancelled invoice"), s)).
Proof.
  split_and!.
  - by vm_compute.
  - unfold Spec.applyPayment_outcome.
    rewrite bool_decide_eq_false_2 by (simpl; intros [|]; done).
    intros (p & Hr & _). by vm_compute in Hr.
  - intros env a d s Hp Hc.
    destruct (recordPayment_with_repository_schema env a d s Hp Hc)
      as (paths & H1 & H2 & H).
    by exists paths.
  - apply recordPayment_paid.
  - apply recordPayment_cancelled.
Qed.

(** C4 (amended). On a paid invoice a refund (negative amount) is rejected
    like any other payment, with "Invoice is already paid": no Payment is
    created and the invoice is unchanged.  A refund is applied while the
    invoice is partially paid: it lowers amountPaid, raises the balance and,
    while amountPaid stays positive, keeps the status partially_paid. *)
Theorem refund_on_paid_invoice
  (Payment_create : Env → Payment.init → list Payment.t →
                    Result (Payment.t * list Payment.t))
  (env : Env) (a : Z) (d : PaymentData) (s : State) :
  a < 0 →
  (status (this s) = paid →
   recordPayment Payment_create env a d s =
     (Err (Error "Invoice is already paid"), s)) ∧
  (∀ p ps,
     status (this s) = partially_paid →
     0 < amountPaid (this s) + a → amountPaid (this s) < amount (this s) →
     Payment_create env (payment_literal (this s) a d) (payments s) = Ok (p, ps) →
     ∃ row,
       recordPayment Payment_create env a d s = (Ok p, loaded row ps) ∧
       amountPaid row < amountPaid (this s) ∧
       balance row = amount (this s) - amountPaid row ∧
       status row = partially_paid).
Proof.
  intros Hneg. split.
  - apply recordPayment_paid.
  - intros p ps Hst Hpos Hlt Hcreate.
    destruct (recordPayment_applied Payment_create env a d s p ps)
      as (row & Hr & _ & Fa & Fp & Fb & Fs & Fd);
      try (done || lia || congruence).
    exists row. rewrite Fp, Fb. repeat split; try done; try lia.
    rewrite Fs, Hst. unfold Spec.status_rule, swept.
    replace (amount (this s) - (amountPaid (this s) + a) <=? 0) with false
      by (symmetry; apply Z.leb_gt; lia).
    replace (0 <? amountPaid (this s) + a) with true
      by (symmetry; apply Z.ltb_lt; lia).
    done.
Qed.

Lemma refund_on_paid_invoice_witness :
  -100 < 0 ∧
  recordPayment (Fixtures.create_recorded "u1") (Fixtures.at_ 300 "p9") (-100)
    Fixtures.cash (loaded Fixtures.tuition_paid []) =
    (Err (Error "Invoice is already paid"), loaded Fixtures.tuition_paid []).
Proof.
  split; [lia|].
  apply (refund_on_paid_invoice (Fixtures.create_recorded "u1")
           (Fixtures.at_ 300 "p9") (-100) Fixtures.cash
           (loaded Fixtures.tuition_paid [])); [lia | reflexivity].
Defined.

(** C4, as stated, fails: the refund of 100 on the paid invoice of 1000 is
    rejected and nothing moves, whatever the Payment model. *)
Lemma refund_reopens_counterexample :
  recordPayment Payment.create (Fixtures.at_ 300 "p9") (-100) Fixtures.cash
    (loaded Fixtures.tuition_paid []) =
    (Err (Error "Invoice is already paid"), loaded Fixtures.tuition_paid []) ∧
  ¬ ∃ create,
      Spec.refund_reopens create (Fixtures.at_ 300 "p9") (-100) Fixtures.cash
        (loaded Fixtures.tuition_paid []).
Proof.
  split; [reflexivity|].
  intros [create (p & Hr & _)].
  rewrite recordPayment_paid in Hr; done.
Qed.

End InvoiceProps.

(** ** Numbers of a sequence: padding, order and parsing *)

Module NumberingProps.

Import Numbering.

Local Open Scope string_scope.
Local Open Scope N_scope.

Lemma digit_range a d : Js.digit a = Some d → d < 10 ∧ N_of_ascii a = d + 48.
Proof.
  unfold Js.digit.
  destruct (48 <=? N_of_ascii a) eqn:H1; simpl; [|done].
  destruct (N_of_ascii a <=? 57) eqn:H2; simpl; [|done].
  intros [= <-]. apply N.leb_le in H1, H2. lia.
Qed.

Lemma digit_char m : m < 10 → Js.digit (pretty_N_char m) = Some m.
Proof.
  intros H.
  assert (m = 0 ∨ m = 1 ∨ m = 2 ∨ m = 3 ∨ m = 4 ∨ m = 5 ∨ m = 6 ∨ m = 7 ∨
          m = 8 ∨ m = 9) as Hm by lia.
  destruct Hm as [-> | [-> | [-> | [-> | [-> | [-> | [-> | [-> | [-> | ->]]]]]]]]];
    reflexivity.
Qed.

Lemma app_String c a b : String c a +:+ b = String c (a +:+ b).
Proof. reflexivity. Qed.

Lemma app_empty b : "" +:+ b = b.
Proof. reflexivity. Qed.

Ltac sapp := rewrite ?app_String, ?app_empty; simpl.

Lemma app_assoc' a b c : (a +:+ b) +:+ c = a +:+ (b +:+ c).
Proof. induction a as [|x a IH]; sapp; [done|]. by f_equal. Qed.

Lemma app_nil_r' a : a +:+ "" = a.
Proof. induction a as [|x a IH]; sapp; [done|]. by f_equal. Qed.

Lemma length_app a b : String.length (a +:+ b) = (String.length a + String.length b)%nat.
Proof. induction a as [|c a IH]; sapp; [done|]. by f_equal. Qed.

Lemma numeral_app a b : numeral a → numeral b → numeral (a +:+ b).
Proof. induction a as [|c a IH]; sapp; [done|]. intros [? ?] ?. auto. Qed.

Lemma digits_app a b acc :
  numeral a → Js.digits acc (a +:+ b) = Js.digits (Js.digits acc a) b.
Proof.
  revert acc. induction a as [|c a IH]; intros acc; sapp; [done|].
  intros [[d Hd] Ha]. rewrite Hd. by apply IH.
Qed.

(** The value of a numeral, read after an accumulator. *)
Lemma digits_value a acc :
  numeral a →
  Js.digits acc a = acc * 10 ^ N.of_nat (String.length a) + Js.digits 0 a ∧
  Js.digits 0 a < 10 ^ N.of_nat (String.length a).
Proof.
  revert acc. induction a as [|c a IH]; intros acc; simpl String.length.
  { intros _. simpl. lia. }
  intros [[d Hd] Ha]. simpl Js.digits. rewrite Hd.
  destruct (digit_range _ _ Hd) as [Hlt _].
  destruct (IH (10 * acc + d) Ha) as [E1 _].
  destruct (IH (10 * 0 + d) Ha) as [E2 B].
  destruct (IH 0 Ha) as [_ B0].
  rewrite E1, E2.
  rewrite Nat2N.inj_succ, N.pow_succ_r'. split; [lia|]. nia.
Qed.

Lemma compare_app p a b : String.compare (p +:+ a) (p +:+ b) = String.compare a b.
Proof.
  induction p as [|c p IH]; sapp; [done|].
  unfold Ascii.compare. by rewrite N.compare_refl.
Qed.

(** Numerals of one length are ordered as the numbers they spell. *)
Lemma compare_numerals a b :
  numeral a → numeral b → String.length a = String.length b →
  String.compare a b = (Js.digits 0 a ?= Js.digits 0 b).
Proof.
  revert b. induction a as [|c a IH]; intros [|c' b]; simpl String.length; try done.
  intros [[d Hd] Ha] [[d' Hd'] Hb] [= Hlen].
  simpl. rewrite Hd, Hd'.
  destruct (digit_range _ _ Hd) as [Hlt Hc].
  destruct (digit_range _ _ Hd') as [Hlt' Hc'].
  destruct (digits_value a (10 * 0 + d) Ha) as [-> _].
  destruct (digits_value b (10 * 0 + d') Hb) as [-> _].
  destruct (digits_value a 0 Ha) as [_ Ba].
  destruct (digits_value b 0 Hb) as [_ Bb].
  rewrite <- Hlen in *.
  unfold Ascii.compare. rewrite Hc, Hc'.
  specialize (IH b Ha Hb Hlen).
  set (P := 10 ^ N.of_nat (String.length a)) in *.
  destruct (N.compare_spec (d + 48) (d' + 48)) as [E|E|E].
  - assert (d = d') as -> by lia. rewrite IH.
    destruct (N.compare_spec (Js.digits 0 a) (Js.digits 0 b)) as [F|F|F];
      symmetry; [apply N.compare_eq_iff|apply N.compare_lt_iff|apply N.compare_gt_iff];
      nia.
  - symmetry. apply N.compare_lt_iff. nia.
  - symmetry. apply N.compare_gt_iff. nia.
Qed.

(** *** What [pretty] prints for a natural number *)

Lemma pretty_N_go_spec x s :
  ∃ d, pretty_N_go x s = d +:+ s ∧ numeral d ∧ Js.digits 0 d = x ∧
       (x = 0 → d = "") ∧
       (0 < x → d ≠ "" ∧ 10 ^ N.of_nat (String.length d) <= 10 * x).
Proof.
  revert s. induction (N.lt_wf_0 x) as [x _ IH]. intros s.
  destruct (decide (x = 0)) as [->|Hx].
  { exists "". rewrite pretty_N_go_0. repeat split; try done; lia. }
  rewrite pretty_N_go_step by lia.
  assert (x `div` 10 < x) as Hlt by (apply N.div_lt; lia).
  destruct (IH _ Hlt (String (pretty_N_char (x `mod` 10)) s))
    as (d & -> & Hd & Hv & H0 & Hpos).
  assert (x `mod` 10 < 10) as Hm by (apply N.mod_lt; lia).
  pose proof (digit_char _ Hm) as Hc.
  set (c := pretty_N_char (x `mod` 10)) in *.
  exists (d +:+ String c "").
  assert (Hnum : numeral (String c "")) by (simpl; split; [by eexists|done]).
  split; [|split; [|split; [|split]]].
  - by rewrite app_assoc'.
  - by apply numeral_app.
  - rewrite digits_app by done. simpl. rewrite Hc, Hv.
    pose proof (N.div_mod x 10 ltac:(lia)). lia.
  - lia.
  - intros _. split.
    + by destruct d.
    + assert (String.length (d +:+ String c "") = S (String.length d)) as ->.
      { rewrite length_app. simpl. lia. }
      rewrite Nat2N.inj_succ, N.pow_succ_r'.
      pose proof (N.div_mod x 10 ltac:(lia)).
      destruct (decide (x `div` 10 = 0)) as [Hz|Hz].
      * rewrite (H0 Hz). simpl. lia.
      * destruct Hpos as [_ Hp]; [lia|].
        generalize dependent (10 ^ N.of_nat (String.length d)).
        generalize dependent (x `div` 10). generalize dependent (x `mod` 10).
        intros. lia.
Qed.

Lemma pretty_N_spec (x : N) :
  numeral (pretty x) ∧ pretty x ≠ "" ∧ Js.digits 0 (pretty x) = x ∧
  10 ^ N.of_nat (String.length (pretty x)) <= 10 * N.max x 1.
Proof.
  unfold pretty, pretty_N. destruct (decide (x = 0)) as [->|Hx].
  { simpl. repeat split; done. }
  destruct (pretty_N_go_spec x "") as (d & E & Hd & Hv & _ & Hpos).
  pose proof (app_nil_r' d) as Hnil.
  rewrite E, Hnil. destruct Hpos as [Hne Hlen]; [lia|].
  repeat split; try done. lia.
Qed.

(** [parseInt] reads back what [String(n)] prints. *)
Lemma parseInt_numeral s :
  numeral s → s ≠ "" → Js.parseInt s = Some (Js.digits 0 s).
Proof.
  destruct s as [|a s]; [done|]. intros [[d Hd] _] _.
  unfold Js.parseInt. by rewrite Hd.
Qed.

Lemma parseInt_pretty (n : N) : Js.parseInt (pretty n) = Some n.
Proof.
  destruct (pretty_N_spec n) as (Hn & Hne & Hv & _).
  by rewrite parseInt_numeral, Hv.
Qed.

Lemma numeral_zeros k : numeral (Js.repeat_char k "0").
Proof. induction k; simpl; [done|]. split; [by eexists|done]. Qed.

Lemma digits_zeros k : Js.digits 0 (Js.repeat_char k "0") = 0.
Proof. induction k; simpl; [done|]. done. Qed.

Lemma length_repeat_char k c : String.length (Js.repeat_char k c) = k.
Proof. induction k; simpl; [done|]. by f_equal. Qed.

(** The padded spelling of a number: a numeral that reads back as the
    number, five characters long up to 99999. *)
Lemma padded_spec (n : N) :
  let s := Js.padStart 5 "0" (pretty n) in
  numeral s ∧ s ≠ "" ∧ Js.digits 0 s = n ∧
  (n <= 99999 → String.length s = 5%nat).
Proof.
  destruct (pretty_N_spec n) as (Hn & Hne & Hv & Hlen).
  unfold Js.padStart. simpl.
  split; [|split; [|split]].
  - apply numeral_app; [apply numeral_zeros|done].
  - destruct (Js.repeat_char _ _); [done|done].
  - rewrite digits_app by apply numeral_zeros. by rewrite digits_zeros.
  - intros Hle. rewrite length_app, length_repeat_char.
    assert (String.length (pretty n) <= 5)%nat; [|lia].
    destruct (le_gt_dec (String.length (pretty n)) 5) as [|Hgt]; [done|].
    exfalso.
    assert (10 ^ 6 <= 10 ^ N.of_nat (String.length (pretty n))).
    { apply N.pow_le_mono_r; lia. }
    assert (10 * N.max n 1 <= 10 * 99999) by lia.
    assert (10 ^ 6 = 1000000) by reflexivity. lia.
Qed.

Lemma number_inj prefix k k' : number prefix k = number prefix k' → k = k'.
Proof.
  unfold number. intros H. apply String.app_inj in H.
  destruct (padded_spec k) as (_ & _ & Hk & _).
  destruct (padded_spec k') as (_ & _ & Hk' & _).
  simpl in *. congruence.
Qed.

Lemma compare_numbers prefix k k' :
  k <= 99999 → k' <= 99999 →
  String.compare (number prefix k) (number prefix k') = (k ?= k').
Proof.
  intros Hk Hk'. unfold number. rewrite compare_app.
  destruct (padded_spec k) as (N1 & _ & V1 & L1).
  destruct (padded_spec k') as (N2 & _ & V2 & L2).
  simpl in *. rewrite compare_numerals by (try done; rewrite L1, L2; done).
  by rewrite V1, V2.
Qed.

Lemma prefix_app p s : String.prefix p (p +:+ s) = true.
Proof.
  induction p as [|c p IH]; sapp; [by destruct s|].
  by destruct (ascii_dec c c).
Qed.

(** *** [split] on a one-character separator *)

Lemma split_free c s : free c s → Js.split c s = [s].
Proof.
  induction s as [|a s IH]; simpl; [done|]. intros [Hne Hs].
  rewrite IH by done. destruct (Ascii.eqb_spec a c); [done|done].
Qed.

Lemma split_app c u rest :
  free c u → Js.split c (u +:+ String c rest) = u :: Js.split c rest.
Proof.
  induction u as [|a u IH]; sapp.
  - intros _. by rewrite Ascii.eqb_refl.
  - intros [Hne Hu]. rewrite IH by done.
    destruct (Ascii.eqb_spec a c); [done|done].
Qed.

Lemma numeral_free s : numeral s → free "-" s.
Proof.
  induction s as [|a s IH]; simpl; [done|]. intros [[d Hd] Hs].
  split; [|by apply IH]. intros ->. by vm_compute in Hd.
Qed.

(** The third field of a number with a dash-free tag and a numeral for the
    year is the counter. *)
Lemma split_number tag (year : N) d :
  free "-" tag → numeral d →
  Js.split "-" ((tag +:+ "-" +:+ pretty year +:+ "-") +:+ d) !! 2%nat = Some d.
Proof.
  intros Ht Hd.
  destruct (pretty_N_spec year) as (Hy & _).
  rewrite !app_assoc', !app_String, !app_empty.
  rewrite split_app by done.
  rewrite split_app by by apply numeral_free.
  rewrite split_free by by apply numeral_free. done.
Qed.

End NumberingProps.

(** ** Payment numbers *)

Module PaymentProps.

Import Payment PaymentStatics Numbering NumberingProps.

Local Open Scope string_scope.
Local Open Scope list_scope.

Lemma same_number_same_prefix prefix p p' :
  paymentNumber p = paymentNumber p' →
  has_prefix prefix p = has_prefix prefix p' ∧ number_of p = number_of p'.
Proof. unfold has_prefix, number_of. by intros ->. Qed.

Lemma greatest_numbers prefix ps ps' b b' :
  paymentNumber <$> ps = paymentNumber <$> ps' →
  number_of <$> b = number_of <$> b' →
  number_of <$> greatest b (filter (λ p, has_prefix prefix p = true) ps) =
  number_of <$> greatest b' (filter (λ p, has_prefix prefix p = true) ps').
Proof.
  revert ps' b b'. induction ps as [|p ps IH]; intros [|p' ps'] b b' Hn Hb;
    try discriminate Hn; [done|].
  rewrite !fmap_cons in Hn. injection Hn as Hp Hn.
  destruct (same_number_same_prefix prefix p p' Hp) as [Hpre Hnum].
  rewrite !filter_cons.
  destruct (decide (has_prefix prefix p = true)) as [Ht|Hf];
    destruct (decide (has_prefix prefix p' = true)) as [Ht'|Hf'];
    try congruence; [|by apply IH].
  simpl. destruct b as [x|], b' as [x'|]; try discriminate Hb.
  - injection Hb as Hb. rewrite Hb, Hnum.
    destruct (String.compare (number_of x') (number_of p')); apply IH;
      simpl; congruence.
  - apply IH; simpl; congruence.
Qed.

Lemma no_prefix_no_last prefix ps :
  (∀ p, p ∈ ps → has_prefix prefix p = false) → findLast prefix ps = None.
Proof.
  intros H. unfold findLast.
  replace (filter (λ p, has_prefix prefix p = true) ps) with (@nil t); [done|].
  induction ps as [|p ps IH]; [done|].
  rewrite filter_cons. rewrite decide_False.
  - apply IH. intros q Hq. apply H. by apply list_elem_of_further.
  - rewrite (H p); [done|]. apply list_elem_of_here.
Qed.

(** Among well-formed numbers the greatest counter wins. *)
Lemma payment_greatest_max pre ps b kb :
  number_of b = number pre kb → (kb <= 99999)%N →
  Forall (λ x, ∃ k, (k <= 99999)%N ∧ number_of x = number pre k) ps →
  ∃ r kr, greatest (Some b) ps = Some r ∧ (r = b ∨ r ∈ ps) ∧
          number_of r = number pre kr ∧ (kr <= 99999)%N ∧ (kb <= kr)%N ∧
          Forall (λ x, ∀ k, number_of x = number pre k → (k <= kr)%N) ps.
Proof.
  revert b kb. induction ps as [|x ps IH]; intros b kb Hb Hkb Hwf.
  { exists b, kb. simpl. repeat split; try done. by left. }
  apply Forall_cons in Hwf as [(kx & Hkx & Hx) Hwf].
  simpl. rewrite Hb, Hx, compare_numbers by done.
  destruct (N.compare_spec kb kx) as [E|E|E].
  - destruct (IH b kb Hb Hkb Hwf) as (r & kr & Hr & Hin & Hnr & Hkr & Hle & Hall).
    exists r, kr. repeat split; try done.
    + destruct Hin; [by left|right; by right].
    + apply Forall_cons. split; [|done].
      intros k Hk. rewrite Hx in Hk. apply number_inj in Hk. lia.
  - destruct (IH x kx Hx Hkx Hwf) as (r & kr & Hr & Hin & Hnr & Hkr & Hle & Hall).
    exists r, kr. repeat split; try done.
    + right. destruct Hin as [->|Hin]; [by left|by right].
    + lia.
    + apply Forall_cons. split; [|done].
      intros k Hk. rewrite Hx in Hk. apply number_inj in Hk. lia.
  - destruct (IH b kb Hb Hkb Hwf) as (r & kr & Hr & Hin & Hnr & Hkr & Hle & Hall).
    exists r, kr. repeat split; try done.
    + destruct Hin; [by left|right; by right].
    + apply Forall_cons. split; [|done].
      intros k Hk. rewrite Hx in Hk. apply number_inj in Hk. lia.
Qed.

Lemma payment_generate_first env ps :
  findLast (year_prefix env) ps = None →
  generatePaymentNumber env ps = number (year_prefix env) 1.
Proof.
  unfold generatePaymentNumber. fold (year_prefix env). by intros ->.
Qed.

Lemma payment_generate_after env ps last d :
  findLast (year_prefix env) ps = Some last →
  number_of last = year_prefix env +:+ d → numeral d → d ≠ "" →
  generatePaymentNumber env ps = number (year_prefix env) (Js.digits 0 d + 1).
Proof.
  intros Hlast Hn Hd Hne.
  unfold generatePaymentNumber. fold (year_prefix env). rewrite Hlast, Hn.
  pose proof (split_number "PAY" (fullYear env) d) as Hs.
  change ("PAY" +:+ "-" +:+ pretty (fullYear env) +:+ "-") with (year_prefix env) in Hs.
  rewrite Hs by (try done; by repeat split).
  simpl. by rewrite parseInt_numeral.
Qed.

Lemma payment_generate_after_number env ps last k :
  findLast (year_prefix env) ps = Some last →
  number_of last = number (year_prefix env) k →
  generatePaymentNumber env ps = number (year_prefix env) (k + 1).
Proof.
  intros Hlast Hn.
  destruct (padded_spec k) as (Hnum & Hne & Hv & _). simpl in *.
  rewrite (payment_generate_after env ps last (Js.padStart 5 "0" (pretty k)));
    [by rewrite Hv|done..].
Qed.

Lemma payment_has_prefix_number pre p k :
  paymentNumber p = Some (number pre k) → has_prefix pre p = true.
Proof. intros H. unfold has_prefix. rewrite H. apply prefix_app. Qed.

(** While the stored numbers of the year are well formed, the generator
    returns the number after the greatest of them. *)
Lemma payment_generate_next env ps :
  (∀ q, q ∈ ps → has_prefix (year_prefix env) q = true →
        ∃ k, (k <= 99999)%N ∧ paymentNumber q = Some (number (year_prefix env) k)) →
  ∃ n, generatePaymentNumber env ps = number (year_prefix env) n ∧
       (1 <= n)%N ∧
       (∀ q k, q ∈ ps → paymentNumber q = Some (number (year_prefix env) k) →
               (k < n)%N) ∧
       (n = 1%N ∨ ∃ q, q ∈ ps ∧
                       paymentNumber q = Some (number (year_prefix env) (n - 1))).
Proof.
  intros Hwf.
  set (own := λ q, has_prefix (year_prefix env) q = true).
  assert (Hown : ∀ q, q ∈ filter own ps ↔ q ∈ ps ∧ own q).
  { intros q. rewrite list_elem_of_filter. tauto. }
  assert (Hlast : findLast (year_prefix env) ps = greatest None (filter own ps))
    by done.
  assert (Hnum : ∀ q k, paymentNumber q = Some (number (year_prefix env) k) →
                        number_of q = number (year_prefix env) k).
  { intros q k Hq. unfold number_of. by rewrite Hq. }
  destruct (filter own ps) as [|b l] eqn:HL.
  - exists 1%N. split; [by apply payment_generate_first|]. split; [done|].
    split; [|by left].
    intros q k Hq Hn. exfalso.
    assert (q ∈ @nil t) as Hin.
    { apply Hown. split; [done|]. by eapply payment_has_prefix_number. }
    by apply elem_of_nil in Hin.
  - assert (Hall : ∀ q, q ∈ b :: l →
              ∃ k, (k <= 99999)%N ∧
                   paymentNumber q = Some (number (year_prefix env) k)).
    { intros q Hq. apply Hown in Hq as (Hq & Hp). eauto. }
    destruct (Hall b ltac:(left)) as (kb & Hkb & Hb).
    destruct (payment_greatest_max (year_prefix env) l b kb (Hnum _ _ Hb) Hkb)
      as (r & kr & Hr & Hin & Hnr & Hkr & Hle & Hmax).
    { apply Forall_forall. intros x Hx.
      destruct (Hall x) as (k & Hk & Hxk); [by right|]. exists k. eauto. }
    exists (kr + 1)%N.
    split; [|split; [lia|split]].
    + eapply payment_generate_after_number; [|exact Hnr]. by rewrite Hlast.
    + intros q k Hq Hn.
      assert (q ∈ b :: l) as Hql.
      { apply Hown. split; [done|]. by eapply payment_has_prefix_number. }
      apply elem_of_cons in Hql as [->|Hql].
      * rewrite Hb in Hn. injection Hn as Hn. apply number_inj in Hn. lia.
      * rewrite Forall_forall in Hmax.
        specialize (Hmax q Hql k (Hnum _ _ Hn)). lia.
    + right. exists r.
      assert (r ∈ b :: l) as Hrl by (destruct Hin as [->|?]; [by left|by right]).
      pose proof Hrl as (Hi & _)%Hown. split; [done|].
      destruct (Hall r Hrl) as (k & _ & Hrk).
      rewrite Hrk. f_equal. f_equal.
      pose proof (Hnum _ _ Hrk) as Hrk'. rewrite Hnr in Hrk'.
      apply number_inj in Hrk'. lia.
Qed.

(** C9 (amended).  Payment numbers are not scoped by tenant:
    [generatePaymentNumber] draws on one sequence per year shared by every
    tenant.  Its result is a function of the payment numbers stored in the
    whole collection, whatever invoice, student or recorder they belong to;
    while the stored numbers of the year are well formed and below 99999,
    once a payment that carries the generated number has been stored, for
    an invoice of whatever school, the next number generated is its
    successor; and the number is <prefix>00001 when no stored number carries
    the year's prefix. *)
Theorem payment_number_is_global (env : Env) :
  (∀ ps ps', paymentNumber <$> ps = paymentNumber <$> ps' →
             generatePaymentNumber env ps = generatePaymentNumber env ps') ∧
  (∀ ps p,
     (∀ q, q ∈ ps → has_prefix (year_prefix env) q = true →
           ∃ k, (k <= 99998)%N ∧
                paymentNumber q = Some (number (year_prefix env) k)) →
     paymentNumber p = Some (generatePaymentNumber env ps) →
     ∃ n, generatePaymentNumber env ps = number (year_prefix env) n ∧
          generatePaymentNumber env (ps ++ [p]) =
            number (year_prefix env) (n + 1)) ∧
  (∀ ps, (∀ p, p ∈ ps → has_prefix (year_prefix env) p = false) →
         generatePaymentNumber env ps = year_prefix env +:+ "00001").
Proof.
  split_and!.
  - intros ps ps' Hn. unfold generatePaymentNumber, findLast.
    pose proof (greatest_numbers ("PAY-" +:+ pretty (fullYear env) +:+ "-")
                  ps ps' None None Hn eq_refl) as Hlast.
    destruct (greatest None _) as [x|], (greatest None _) as [x'|];
      try discriminate Hlast; [|done].
    injection Hlast as Hlast. by rewrite Hlast.
  - intros ps p Hwf Hp.
    destruct (payment_generate_next env ps) as (n & Hn & H1 & Hlt & Hlast).
    { intros q Hq Hpre. destruct (Hwf q Hq Hpre) as (k & Hk & Hqk).
      exists k. split; [lia|done]. }
    assert (Hn9 : (n <= 99999)%N).
    { destruct Hlast as [->|(q & Hq & Hqn)]; [lia|].
      destruct (Hwf q Hq) as (k & Hk & Hqk);
        [by eapply payment_has_prefix_number|].
      rewrite Hqk in Hqn. injection Hqn as Hqn. apply number_inj in Hqn. lia. }
    rewrite Hn in Hp.
    exists n. split; [done|].
    destruct (payment_generate_next env (ps ++ [p]))
      as (n' & Hn' & H1' & Hlt' & Hlast').
    { intros q [Hq|Hq]%elem_of_app Hpre.
      - destruct (Hwf q Hq Hpre) as (k & Hk & Hqk). exists k. split; [lia|done].
      - apply list_elem_of_singleton in Hq as ->. by exists n. }
    rewrite Hn'. f_equal.
    assert (n < n')%N.
    { apply (Hlt' p n); [|done]. apply elem_of_app. right. by left. }
    destruct Hlast' as [->|(q & Hq & Hqn)]; [lia|].
    apply elem_of_app in Hq as [Hq|Hq].
    + specialize (Hlt q _ Hq Hqn). lia.
    + apply list_elem_of_singleton in Hq as ->.
      rewrite Hp in Hqn. injection Hqn as Hqn. apply number_inj in Hqn. lia.
  - intros ps Hnone. unfold generatePaymentNumber. fold (year_prefix env).
    rewrite no_prefix_no_last by done. f_equal.
Qed.

Lemma payment_number_is_global_witness :
  ∃ n, generatePaymentNumber (Fixtures.at_ 100%Z "p1") [PaymentFixtures.paid_in_B] =
         number "PAY-2025-" n ∧
       generatePaymentNumber (Fixtures.at_ 100%Z "p1")
         ([PaymentFixtures.paid_in_B] ++ [PaymentFixtures.second_in_A]) =
         number "PAY-2025-" (n + 1).
Proof.
  destruct (payment_number_is_global (Fixtures.at_ 100%Z "p1")) as (_ & H & _).
  apply H.
  - intros q Hq _. apply list_elem_of_singleton in Hq as ->.
    exists 1%N. split; [lia|reflexivity].
  - reflexivity.
Defined.

(** C9, as stated, fails: with no payment of school A stored, school A gets
    number 00001 when the collection is empty and 00002 once school B has
    recorded a payment. *)
Lemma tenant_scoped_counterexample :
  generatePaymentNumber (Fixtures.at_ 100%Z "p1") [] = "PAY-2025-00001" ∧
  generatePaymentNumber (Fixtures.at_ 100%Z "p1") [PaymentFixtures.paid_in_B] =
    "PAY-2025-00002" ∧
  SpecNumbering.of_tenant [Fixtures.tuition; PaymentFixtures.fees_B] "schoolA"
    [PaymentFixtures.paid_in_B] = [] ∧
  ¬ SpecNumbering.tenant_scoped [Fixtures.tuition; PaymentFixtures.fees_B]
      (Fixtures.at_ 100%Z "p1") "schoolA".
Proof.
  split_and!; [by vm_compute..|].
  intros H. specialize (H [] [PaymentFixtures.paid_in_B] eq_refl).
  vm_compute in H. discriminate H.
Qed.

End PaymentProps.

(** ** Membership ledger *)

Module EnrollmentProps.

Import Enrollment.

Local Open Scope string_scope.
Local Open Scope list_scope.

Lemma index_conflict_false e rows :
  index_conflict e rows = false ↔ ∀ r, r ∈ rows → ¬ clashes e r.
Proof.
  unfold index_conflict. rewrite bool_decide_eq_false, Exists_exists. split.
  - intros H r Hr Hcl. apply H. by exists r.
  - intros H (r & Hr & Hcl). by apply (H r).
Qed.

Lemma clashes_sym e r : clashes e r → clashes r e.
Proof.
  unfold clashes, same_slot. intros (Se & Sr & Hs & Hc & Hy). by split_and!.
Qed.

Lemma elem_of_delete_other (rows : list t) j k r :
  j ≠ k → rows !! j = Some r → r ∈ delete k rows.
Proof.
  intros Hjk Hj. destruct (decide (j < k)) as [Hlt|Hge].
  - apply (list_elem_of_lookup_2 _ j). by rewrite list_lookup_delete_lt.
  - destruct j as [|j]; [lia|].
    apply (list_elem_of_lookup_2 _ j). by rewrite list_lookup_delete_ge by lia.
Qed.

Lemma unique_active_snoc rows e :
  unique_active rows → index_conflict e rows = false →
  unique_active (rows ++ [e]).
Proof.
  intros U Hc j k a b Hj Hk Sa Sb Hslot.
  rewrite index_conflict_false in Hc.
  apply lookup_app_Some in Hj as [Hj|[Lj Hj]];
    apply lookup_app_Some in Hk as [Hk|[Lk Hk]].
  - by eapply U.
  - apply list_lookup_singleton_Some in Hk as [_ <-].
    destruct (Hc a); [by eapply list_elem_of_lookup_2|].
    apply clashes_sym. by split_and!.
  - apply list_lookup_singleton_Some in Hj as [_ <-].
    destruct (Hc b); [by eapply list_elem_of_lookup_2|]. by split_and!.
  - apply list_lookup_singleton_Some in Hj as [Hj _].
    apply list_lookup_singleton_Some in Hk as [Hk _]. lia.
Qed.

Lemma unique_active_insert rows k d :
  unique_active rows → index_conflict d (delete k rows) = false →
  unique_active (<[k := d]> rows).
Proof.
  intros U Hc i j a b Hi Hj Sa Sb Hslot.
  rewrite index_conflict_false in Hc.
  apply list_lookup_insert_Some in Hi as [(<- & <- & Li)|[Ni Hi]];
    apply list_lookup_insert_Some in Hj as [(Ekj & Eb & Lj)|[Nj Hj]]; subst.
  - done.
  - destruct (Hc b); [by eapply (elem_of_delete_other _ j)|]. by split_and!.
  - destruct (Hc a); [by eapply (elem_of_delete_other _ i)|].
    apply clashes_sym. by split_and!.
  - by eapply U.
Qed.

Lemma insertOne_keeps e rows rows' :
  insertOne e rows = Ok rows' → unique_active rows → unique_active rows'.
Proof.
  unfold insertOne. case_bool_decide; [done|].
  destruct (index_conflict e rows) eqn:Hc; [done|].
  intros [= <-] U. by apply unique_active_snoc.
Qed.

Lemma create_keeps env i db e db' :
  create env i db = Ok (e, db') →
  unique_active (enrollments db) → unique_active (enrollments db').
Proof.
  unfold create. destruct (invalid_paths _); [|done].
  destruct (pre_save_class _ _ _) as [d1|]; [|done].
  destruct (insertOne _ _) as [rows|] eqn:Hins; [|done].
  intros [= <- <-] U. simpl. by eapply insertOne_keeps.
Qed.

Lemma save_keeps env this db d db' :
  save env this db = Ok (d, db') →
  unique_active (enrollments db) → unique_active (enrollments db').
Proof.
  unfold save. destruct (findRow _ _) as [[k row]|]; [|done].
  destruct (invalid_paths _); [|done].
  destruct (pre_save_class _ _ _) as [d1|]; [|done].
  destruct (index_conflict _ _) eqn:Hc; [done|].
  intros [= <- <-] U. simpl. by apply unique_active_insert.
Qed.

Lemma transferTo_keeps env c reason this db :
  unique_active (enrollments db) →
  unique_active (enrollments (transferTo env c reason this db).2).
Proof.
  intros U. unfold transferTo.
  destruct (save _ _ _) as [[this2 db1]|] eqn:Hs; [|done].
  pose proof (save_keeps _ _ _ _ _ Hs U) as U1.
  destruct (SchoolClass.findById _ _); [|done].
  destruct (create _ _ _) as [[n db2]|] eqn:Hcr; [|done].
  simpl. by eapply create_keeps.
Qed.

Lemma complete_keeps env g n this db :
  unique_active (enrollments db) →
  unique_active (enrollments (complete env g n this db).2).
Proof.
  intros U. unfold complete.
  destruct (save _ _ _) as [[this3 db1]|] eqn:Hs; [|done].
  simpl. by eapply save_keeps.
Qed.

Lemma withdraw_keeps env reason this db :
  unique_active (enrollments db) →
  unique_active (enrollments (withdraw env reason this db).2).
Proof.
  intros U. unfold withdraw.
  destruct (save _ _ _) as [[this3 db1]|] eqn:Hs; [|done].
  simpl. by eapply save_keeps.
Qed.

Lemma withdrawAll_keeps env student rows :
  unique_active rows → unique_active (withdrawAll env student rows).
Proof.
  intros U j k a b Hj Hk Sa Sb Hslot. unfold withdrawAll in *.
  apply list_lookup_fmap_Some in Hj as (a' & -> & Hj).
  apply list_lookup_fmap_Some in Hk as (b' & -> & Hk).
  case_bool_decide; [done|]. case_bool_decide; [done|].
  by eapply U.
Qed.

Lemma step_keeps db op :
  unique_active (enrollments db) → unique_active (enrollments (step db op)).
Proof.
  intros U. destruct op; simpl; unfold on_doc.
  - destruct (create _ _ _) as [[e db']|] eqn:Hc; [|done]. by eapply create_keeps.
  - destruct (findById _ _); [|done]. by apply transferTo_keeps.
  - destruct (findById _ _); [|done]. by apply complete_keeps.
  - destruct (findById _ _); [|done]. by apply withdraw_keeps.
  - by apply withdrawAll_keeps.
Qed.

Lemma run_keeps ops db :
  unique_active (enrollments db) → unique_active (enrollments (run ops db)).
Proof.
  revert db. induction ops as [|op ops IH]; intros db U; [done|].
  simpl. apply IH. by apply step_keeps.
Qed.

Lemma pre_save_date_slot env m1 m2 e :
  _id (pre_save_date env m1 m2 e) = _id e ∧
  status (pre_save_date env m1 m2 e) = status e ∧
  studentId (pre_save_date env m1 m2 e) = studentId e ∧
  classId (pre_save_date env m1 m2 e) = classId e ∧
  academicYear (pre_save_date env m1 m2 e) = academicYear e.
Proof. unfold pre_save_date. by case_match. Qed.

(** With a non-empty academic year the first hook changes nothing. *)
Lemma pre_save_class_Ok touched cs e e' :
  academicYear e ≠ "" → pre_save_class touched cs e = Ok e' → e' = e.
Proof.
  intros Hy. unfold pre_save_class. destruct touched; [|congruence].
  destruct (SchoolClass.findById _ _); [|done].
  rewrite (bool_decide_eq_false_2 _ Hy). case_bool_decide; congruence.
Qed.

Lemma invalid_paths_nil e : invalid_paths e = [] → academicYear e ≠ "".
Proof. unfold invalid_paths. by case_bool_decide. Qed.

Lemma insertOne_clash d e' rows :
  clashes d e' → e' ∈ rows → ∃ key, insertOne d rows = Err (DuplicateKey key).
Proof.
  intros Hcl Hin. unfold insertOne. case_bool_decide; [by eexists|].
  unfold index_conflict. rewrite bool_decide_eq_true_2; [by eexists|].
  apply Exists_exists. by exists e'.
Qed.

(** The document [create] would insert clashes with an active membership of
    the same student, class and year. *)
Lemma new_clashes env i e' m :
  status e' = active → studentId e' = i_studentId i →
  classId e' = i_classId i → i_academicYear i = Some (academicYear e') →
  default active (i_status i) = active →
  clashes (pre_save_date env m false (new env i)) e'.
Proof.
  intros Se Hs Hc Hy Hst.
  destruct (pre_save_date_slot env m false (new env i)) as (_ & Fs & Fst & Fc & Fy).
  unfold clashes, same_slot. rewrite Fs, Fst, Fc, Fy. simpl. rewrite Hy. simpl.
  by split_and!.
Qed.

Lemma create_active_duplicate env i db e' :
  e' ∈ enrollments db → status e' = active →
  studentId e' = i_studentId i → classId e' = i_classId i →
  i_academicYear i = Some (academicYear e') →
  default active (i_status i) = active →
  (∃ err, create env i db = Err err) ∧
  (∀ c, SchoolClass.findById (i_classId i) (classes db) = Some c →
        SchoolClass.academicYear c = academicYear e' → academicYear e' ≠ "" →
        ∃ key, create env i db = Err (DuplicateKey key)).
Proof.
  intros Hin Se Hs Hc Hy Hst.
  pose proof (λ m, new_clashes env i e' m Se Hs Hc Hy Hst) as Hclash.
  unfold create. split.
  - destruct (invalid_paths (new env i)) eqn:Hv; [|by eexists].
    apply invalid_paths_nil in Hv.
    destruct (pre_save_class _ _ _) as [d1|] eqn:Hpre; [|by eexists].
    apply pre_save_class_Ok in Hpre as ->; [|done].
    match goal with |- context [insertOne ?d _] =>
      destruct (insertOne_clash d e' (enrollments db) (Hclash _) Hin) as [key ->]
    end.
    by eexists.
  - intros c Hfind Hyear Hne.
    assert (Hnew : academicYear (new env i) = academicYear e')
      by (simpl; by rewrite Hy).
    assert (Hf : bool_decide (academicYear (new env i) = "") = false)
      by (apply bool_decide_eq_false_2; congruence).
    unfold invalid_paths. rewrite Hf.
    unfold pre_save_class. simpl classId. rewrite Hfind, Hf.
    rewrite bool_decide_eq_true_2 by congruence.
    match goal with |- context [insertOne ?d _] =>
      destruct (insertOne_clash d e' (enrollments db) (Hclash _) Hin) as [key ->]
    end.
    by eexists.
Qed.

(** C2. Starting from an empty collection, no sequence of creations,
    transfers, completions, withdrawals and bulk withdrawals leaves two
    active memberships for the same (student, class, academic year).
    Creating a membership for a triple that already has an active one is
    rejected and the store stays as it was; when the class exists and its
    academic year is the one asked for, the rejection is the duplicate-key
    error of the store. *)
Theorem one_active_membership :
  (∀ cs ops,
     unique_active
       (enrollments (run ops {| classes := cs; enrollments := [] |}))) ∧
  (∀ env i db e',
     e' ∈ enrollments db → status e' = active →
     studentId e' = i_studentId i → classId e' = i_classId i →
     i_academicYear i = Some (academicYear e') →
     default active (i_status i) = active →
     (∃ err, create env i db = Err err) ∧
     step db (Create env i) = db ∧
     (∀ c, SchoolClass.findById (i_classId i) (classes db) = Some c →
           SchoolClass.academicYear c = academicYear e' →
           academicYear e' ≠ "" →
           ∃ key, create env i db = Err (DuplicateKey key))).
Proof.
  split.
  - intros cs ops. apply run_keeps. intros j k a b Hj. by destruct j.
  - intros env i db e' Hin Se Hs Hc Hy Hst.
    destruct (create_active_duplicate env i db e' Hin Se Hs Hc Hy Hst)
      as [[err Herr] Hdup].
    split_and!; [by exists err | by simpl; rewrite Herr | done].
Qed.

Lemma one_active_membership_witness :
  unique_active
    (enrollments
       (run [Create (Fixtures.at_ 10%Z "e1") MembershipFixtures.john_again;
             Create (Fixtures.at_ 11%Z "e2") MembershipFixtures.john_again;
             TransferTo (Fixtures.at_ 20%Z "e3") "e1" "c2" "moved";
             Create (Fixtures.at_ 30%Z "e4") MembershipFixtures.john_again]
          (MembershipFixtures.school []))) ∧
  create (Fixtures.at_ 11%Z "e2") MembershipFixtures.john_again
    (MembershipFixtures.school [MembershipFixtures.john]) =
    Err (DuplicateKey active_key).
Proof.
  destruct one_active_membership as [Hinv Hdup]. split; [apply Hinv|].
  destruct (Hdup (Fixtures.at_ 11%Z "e2") MembershipFixtures.john_again
              (MembershipFixtures.school [MembershipFixtures.john])
              MembershipFixtures.john) as (_ & _ & Hkey);
    [apply list_elem_of_here | reflexivity..|].
  reflexivity.
Defined.

(** *** What [transferTo] writes *)

Lemma pre_save_date_marked env retry m1 m2 c reason this :
  pre_save_date retry m1 m2 (mark_transferred env c reason this) =
  set_statusChangeDate
    (if m1 && negb m2 then now retry else now env)
    (mark_transferred env c reason this).
Proof. unfold pre_save_date. by destruct (m1 && negb m2). Qed.

Lemma not_active_no_conflict e rows :
  status e ≠ active → index_conflict e rows = false.
Proof.
  intros Hs. apply index_conflict_false. intros r _ (Ha & _). done.
Qed.

(** The first write: the source is stored as transferred, whatever its
    status was. *)
Lemma save_marked env c reason this db k :
  findRow (_id this) (enrollments db) = Some (k, this) →
  academicYear this ≠ "" →
  save env (mark_transferred env c reason this) db =
    Ok (mark_transferred env c reason this,
        with_enrollments
          (<[k := mark_transferred env c reason this]> (enrollments db)) db).
Proof.
  intros Hrow Hy. unfold save. simpl _id. rewrite Hrow.
  unfold invalid_paths. simpl academicYear.
  rewrite (bool_decide_eq_false_2 _ Hy).
  simpl classId. rewrite (bool_decide_eq_false_2 (classId this ≠ classId this))
    by (intros H; by apply H).
  unfold pre_save_class. rewrite pre_save_date_marked.
  rewrite not_active_no_conflict by done.
  by destruct (_ && _).
Qed.

Lemma save_inv env this db d db' :
  save env this db = Ok (d, db') →
  ∃ k row m1 m2,
    findRow (_id this) (enrollments db) = Some (k, row) ∧
    d = pre_save_date env m1 m2 this ∧
    db' = with_enrollments (<[k := d]> (enrollments db)) db.
Proof.
  unfold save. destruct (findRow _ _) as [[k row]|]; [|done].
  destruct (invalid_paths this) eqn:Hv; [|done].
  apply invalid_paths_nil in Hv.
  destruct (pre_save_class _ _ _) as [d1|] eqn:Hpre; [|done].
  apply pre_save_class_Ok in Hpre as ->; [|done].
  destruct (index_conflict _ _); [done|].
  intros [= <- <-]. by eexists k, row, _, _.
Qed.

Lemma create_inv env i db e db' :
  create env i db = Ok (e, db') →
  e = pre_save_date env (bool_decide (is_Some (i_status i))) false (new env i) ∧
  db' = with_enrollments (enrollments db ++ [e]) db ∧
  ∃ c, SchoolClass.findById (i_classId i) (classes db) = Some c ∧
       default "" (i_academicYear i) = SchoolClass.academicYear c.
Proof.
  unfold create. destruct (invalid_paths (new env i)) eqn:Hv; [|done].
  apply invalid_paths_nil in Hv.
  destruct (pre_save_class _ _ _) as [d1|] eqn:Hpre; [|done].
  assert (Hc : ∃ c, SchoolClass.findById (i_classId i) (classes db) = Some c ∧
                    default "" (i_academicYear i) = SchoolClass.academicYear c).
  { revert Hpre. unfold pre_save_class. simpl classId.
    destruct (SchoolClass.findById _ _) as [c|]; [|done].
    rewrite (bool_decide_eq_false_2 _ Hv).
    case_bool_decide; [|done]. intros _. by exists c. }
  apply pre_save_class_Ok in Hpre as ->; [|done].
  unfold insertOne. case_bool_decide; [done|].
  destruct (index_conflict _ _); [done|].
  by intros [= <- <-].
Qed.

Lemma findRow_insert id rows k row d :
  findRow id rows = Some (k, row) → _id d = id →
  findRow id (<[k := d]> rows) = Some (k, d).
Proof.
  unfold findRow. intros (Hk & Hid & Hleast)%list_find_Some Hd.
  apply list_find_insert_Some. right. left.
  split_and!; [done..| by eapply lookup_lt_Some | done | done].
Qed.

Lemma mark_transferred_again env retry c reason this :
  mark_transferred retry c reason (mark_transferred env c reason this) =
  mark_transferred retry c reason this.
Proof. reflexivity. Qed.

(** When the target class is missing, the source has already been written. *)
Lemma transferTo_missing_class env c reason this db k :
  findRow (_id this) (enrollments db) = Some (k, this) →
  academicYear this ≠ "" →
  SchoolClass.findById c (classes db) = None →
  transferTo env c reason this db =
    (Err (Error "Target class not found"),
     mark_transferred env c reason this,
     with_enrollments
       (<[k := mark_transferred env c reason this]> (enrollments db)) db).
Proof.
  intros Hrow Hy Hcls. unfold transferTo.
  rewrite (save_marked env c reason this db k Hrow Hy). simpl classes.
  by rewrite Hcls.
Qed.

(** C6 (amended). A completed transfer rewrites exactly one row, the source,
    which is stored as transferred with the reason, the time of the call and
    the id of the target class (its only forward link; it holds no
    reference to the new membership), and appends exactly one membership:
    active, for the same student, on the target class, with the target
    class's academic year.  The two writes are separate: when the target
    class does not exist the call fails with "Target class not found" after
    the source has been stored as transferred, nothing is appended and
    nothing is rolled back, and calling again stores the source transition
    once more, stamped with the time of the retry. *)
Theorem transferTo_writes (env : Env) (c : ObjectId) (reason : string)
  (this : t) (db : Db) :
  (∀ newEnrollment this' db',
     transferTo env c reason this db = (Ok newEnrollment, this', db') →
     ∃ k row newClass,
       findRow (_id this) (enrollments db) = Some (k, row) ∧
       SchoolClass.findById c (classes db) = Some newClass ∧
       this' = mark_transferred env c reason this ∧
       enrollments db' = <[k := this']> (enrollments db) ++ [newEnrollment] ∧
       status this' = transferred ∧
       statusChangeReason this' = Some reason ∧
       statusChangeDate this' = Some (now env) ∧
       transferredToClassId this' = Some c ∧
       status newEnrollment = active ∧
       studentId newEnrollment = studentId this ∧
       classId newEnrollment = c ∧
       academicYear newEnrollment = SchoolClass.academicYear newClass) ∧
  (∀ k,
     findRow (_id this) (enrollments db) = Some (k, this) →
     academicYear this ≠ "" →
     SchoolClass.findById c (classes db) = None →
     let failed := transferTo env c reason this db in
     failed =
       (Err (Error "Target class not found"),
        mark_transferred env c reason this,
        with_enrollments
          (<[k := mark_transferred env c reason this]> (enrollments db)) db) ∧
     ∀ retry,
       transferTo retry c reason failed.1.2 failed.2 =
         (Err (Error "Target class not found"),
          mark_transferred retry c reason this,
          with_enrollments
            (<[k := mark_transferred retry c reason this]> (enrollments db)) db)).
Proof.
  split.
  - intros newE this' db' H. unfold transferTo in H.
    destruct (save _ _ _) as [[this2 db1]|] eqn:Hs; [|done].
    apply save_inv in Hs as (k & row & m1 & m2 & Hrow & -> & ->).
    simpl classes in H.
    destruct (SchoolClass.findById c (classes db)) as [newClass|] eqn:Hcls; [|done].
    destruct (create _ _ _) as [[n db2]|] eqn:Hcr; [|done].
    injection H as <- <- <-.
    apply create_inv in Hcr as (-> & -> & _).
    exists k, row, newClass.
    rewrite pre_save_date_marked.
    replace (if m1 && negb m2 then now env else now env) with (now env)
      by (by destruct (m1 && negb m2)).
    by split_and!.
  - intros k Hrow Hy Hcls failed. subst failed.
    rewrite (transferTo_missing_class env c reason this db k Hrow Hy Hcls).
    split; [done|]. intros retry. simpl.
    rewrite (transferTo_missing_class retry c reason
               (mark_transferred env c reason this) _ k); simpl; try done.
    + by rewrite list_insert_insert_eq.
    + by apply (findRow_insert _ _ _ this).
Qed.

Lemma transferTo_writes_witness :
  ∃ newEnrollment db',
    transferTo (Fixtures.at_ 20%Z "e2") "c2" "first move" MembershipFixtures.john
      (MembershipFixtures.school [MembershipFixtures.john]) =
      (Ok newEnrollment, MembershipFixtures.john_moved, db') ∧
    enrollments db' = [MembershipFixtures.john_moved; newEnrollment] ∧
    status newEnrollment = active ∧ classId newEnrollment = "c2".
Proof.
  destruct (transferTo_writes (Fixtures.at_ 20%Z "e2") "c2" "first move"
              MembershipFixtures.john
              (MembershipFixtures.school [MembershipFixtures.john])) as [H _].
  edestruct H as (k & row & newClass & Hrow & _ & Hthis & Hrows & _ & _ & _ & _ &
                  Hst & _ & Hc & _); [reflexivity|].
  eexists _, _. split_and!; [reflexivity | reflexivity | exact Hst | exact Hc].
Defined.

(** C6, as stated, fails twice over.  A completed transfer leaves the class
    id "c2" in the source's forward link, not the id "e2" of the new
    membership.  A transfer to the missing class "c9" fails after the source
    has been stored as transferred, and the retry at time 40 rewrites the
    source again. *)
Lemma transfer_unit_counterexample :
  (transferTo (Fixtures.at_ 20%Z "e2") "c9" "move" MembershipFixtures.john
     (MembershipFixtures.school [MembershipFixtures.john])).1.1 =
    Err (Error "Target class not found") ∧
  ¬ SpecMembership.one_unit (Fixtures.at_ 20%Z "e2") (Fixtures.at_ 40%Z "e2")
      "c9" "move" MembershipFixtures.john
      (MembershipFixtures.school [MembershipFixtures.john]) ∧
  ¬ SpecMembership.successor_linked (Fixtures.at_ 20%Z "e2") "c2" "first move"
      MembershipFixtures.john
      (MembershipFixtures.school [MembershipFixtures.john]).
Proof.
  split_and!.
  - reflexivity.
  - intros H. edestruct H as [Hsame|Hsame]; [reflexivity|..];
      vm_compute in Hsame; discriminate.
  - intros H. specialize (H _ _ _ eq_refl). vm_compute in H. discriminate.
Qed.

(** When [create] goes through. *)
Lemma create_Ok env i db cl :
  SchoolClass.findById (i_classId i) (classes db) = Some cl →
  i_academicYear i = Some (SchoolClass.academicYear cl) →
  SchoolClass.academicYear cl ≠ "" →
  (∀ r, r ∈ enrollments db → _id r ≠ newObjectId env) →
  index_conflict
    (pre_save_date env (bool_decide (is_Some (i_status i))) false (new env i))
    (enrollments db) = false →
  create env i db =
    Ok (pre_save_date env (bool_decide (is_Some (i_status i))) false (new env i),
        with_enrollments
          (enrollments db ++
           [pre_save_date env (bool_decide (is_Some (i_status i))) false (new env i)])
          db).
Proof.
  intros Hcls Hy Hne Hfresh Hidx. unfold create.
  assert (Hnew : academicYear (new env i) = SchoolClass.academicYear cl)
    by (simpl; by rewrite Hy).
  assert (Hf : bool_decide (academicYear (new env i) = "") = false)
    by (apply bool_decide_eq_false_2; congruence).
  unfold invalid_paths. rewrite Hf.
  unfold pre_save_class. simpl classId. rewrite Hcls, Hf.
  rewrite bool_decide_eq_true_2 by done.
  unfold insertOne. rewrite bool_decide_eq_false_2.
  - by rewrite Hidx.
  - rewrite Exists_exists. intros (r & Hr & Hid). apply (Hfresh r Hr).
    rewrite Hid.
    match goal with |- context [pre_save_date env ?m1 ?m2 ?e] =>
      by destruct (pre_save_date_slot env m1 m2 e) as (-> & _) end.
Qed.

(** C5 (amended). [transferTo] does not look at the status of the source.
    For a stored membership in any status, when the target class exists, the
    new id is unused and no other row is an active membership of the student
    on the target class for its year, the call succeeds: the source row is
    (re)written as transferred and one active membership is appended. *)
Theorem transferTo_ignores_status (env : Env) (c : ObjectId) (reason : string)
  (this : t) (db : Db) (k : nat) (newClass : SchoolClass.t) :
  findRow (_id this) (enrollments db) = Some (k, this) →
  academicYear this ≠ "" →
  SchoolClass.findById c (classes db) = Some newClass →
  SchoolClass.academicYear newClass ≠ "" →
  (∀ r, r ∈ enrollments db → _id r ≠ newObjectId env) →
  (∀ j r, enrollments db !! j = Some r → j ≠ k →
          ¬ (status r = active ∧ studentId r = studentId this ∧ classId r = c ∧
             academicYear r = SchoolClass.academicYear newClass)) →
  ∃ newEnrollment,
    transferTo env c reason this db =
      (Ok newEnrollment,
       mark_transferred env c reason this,
       with_enrollments
         (<[k := mark_transferred env c reason this]> (enrollments db)
          ++ [newEnrollment]) db) ∧
    status newEnrollment = active ∧
    studentId newEnrollment = studentId this ∧
    classId newEnrollment = c.
Proof.
  intros Hrow Hy Hcls Hcy Hfresh Hfree. unfold transferTo.
  rewrite (save_marked env c reason this db k Hrow Hy). simpl classes.
  rewrite Hcls.
  set (rows1 := <[k := mark_transferred env c reason this]> (enrollments db)).
  erewrite (create_Ok env _ (with_enrollments rows1 db) newClass);
    [| exact Hcls | reflexivity | exact Hcy | |].
  - eexists. split; [reflexivity|].
    match goal with |- context [pre_save_date env ?m1 ?m2 ?e] =>
      destruct (pre_save_date_slot env m1 m2 e) as (_ & -> & -> & -> & _) end.
    done.
  - simpl enrollments. subst rows1.
    intros r [j Hj]%list_elem_of_lookup_1.
    apply list_lookup_insert_Some in Hj as [(-> & <- & _)|[Hjk Hj]].
    + apply (Hfresh this).
      apply list_find_Some in Hrow as (Hk & _). by eapply list_elem_of_lookup_2.
    + apply (Hfresh r). by eapply list_elem_of_lookup_2.
  - simpl enrollments. apply index_conflict_false.
    intros r [j Hj]%list_elem_of_lookup_1 (_ & Sr & Hst & Hc & Hyr).
    match type of Hst with context [pre_save_date env ?m1 ?m2 ?e] =>
      destruct (pre_save_date_slot env m1 m2 e) as (_ & _ & E1 & E2 & E3) end.
    rewrite E1 in Hst. rewrite E2 in Hc. rewrite E3 in Hyr. simpl in Hst, Hc, Hyr.
    subst rows1. apply list_lookup_insert_Some in Hj as [(-> & <- & _)|[Hjk Hj]].
    + done.
    + apply (Hfree j r); [done | congruence |]. by split_and!.
Qed.

Lemma transferTo_ignores_status_witness :
  status MembershipFixtures.john_moved = transferred ∧
  ∃ newEnrollment db',
    transferTo (Fixtures.at_ 30%Z "e2") "c2" "again" MembershipFixtures.john_moved
      (MembershipFixtures.school [MembershipFixtures.john_moved]) =
      (Ok newEnrollment, mark_transferred (Fixtures.at_ 30%Z "e2") "c2" "again"
                           MembershipFixtures.john_moved, db') ∧
    status newEnrollment = active.
Proof.
  split; [reflexivity|].
  destruct (transferTo_ignores_status (Fixtures.at_ 30%Z "e2") "c2" "again"
              MembershipFixtures.john_moved
              (MembershipFixtures.school [MembershipFixtures.john_moved])
              0 MembershipFixtures.grade2) as (newE & Hr & Hst & _).
  - reflexivity.
  - done.
  - reflexivity.
  - done.
  - intros r ->%list_elem_of_singleton. done.
  - intros [|j] r Hj Hne; [done|]. by destruct j.
  - exists newE. eexists. split; [exact Hr | exact Hst].
Defined.

(** C5, as stated, fails: the transfer of the already transferred membership
    succeeds and appends a second membership. *)
Lemma transfer_guarded_counterexample :
  (∃ newEnrollment this' db',
     transferTo (Fixtures.at_ 30%Z "e2") "c2" "again" MembershipFixtures.john_moved
       (MembershipFixtures.school [MembershipFixtures.john_moved]) =
       (Ok newEnrollment, this', db') ∧
     status newEnrollment = active ∧
     length (enrollments db') = 2) ∧
  ¬ SpecMembership.transfer_guarded (Fixtures.at_ 30%Z "e2") "c2" "again"
      MembershipFixtures.john_moved
      (MembershipFixtures.school [MembershipFixtures.john_moved]).
Proof.
  split.
  - eexists _, _, _. split_and!; reflexivity.
  - intros H. destruct H as [m Hm]; [done|]. vm_compute in Hm. discriminate.
Qed.

End EnrollmentProps.

(** ** Presence ledger *)

Module AttendanceProps.

Import Attendance AttendanceService.

Local Open Scope string_scope.
Local Open Scope list_scope.

Section Service.

Variable tz : Z.
Variable generateId : list Doc → ObjectId.
Variable Student_exists : ObjectId → bool.
Variable AuditLog_log : AuditEntry → list AuditEntry → Result (list AuditEntry).

Lemma enrolled_ids_active db classId student :
  student ∈ (Enrollment.studentId <$>
               Enrollment.findActiveByClass classId (enrollments db)) ↔
  active_in db classId student.
Proof.
  unfold Enrollment.findActiveByClass, active_in.
  rewrite list_elem_of_fmap. split.
  - intros (e & -> & (Hc & Hs)%list_elem_of_filter). destruct Hc. by exists e.
  - intros (e & He & Hc & Hs & <-). exists e. split; [done|].
    by apply list_elem_of_filter.
Qed.

(** The texts of populated members are texts of documents, never of ids. *)
Lemma texts_of_documents (members : list Enrollment.t) texts :
  mapM (λ e, Populate.toString (populated Student_exists e)) members = Some texts →
  ∀ id, Populate.OfId id ∉ texts.
Proof.
  intros H%mapM_Some id Hin.
  induction H as [|e text members texts He H IH]; [by apply elem_of_nil in Hin|].
  apply elem_of_cons in Hin as [Heq|Hin]; [|by apply IH].
  unfold populated, Populate.populate in He.
  destruct (Student_exists (Enrollment.studentId e)); simpl in He; congruence.
Qed.

Lemma texts_exist (members : list Enrollment.t) :
  (∀ e, e ∈ members → Student_exists (Enrollment.studentId e) = true) →
  is_Some (mapM (λ e, Populate.toString (populated Student_exists e)) members).
Proof.
  intros H. apply mapM_is_Some, Forall_forall. intros e He.
  unfold populated, Populate.populate. simpl. by rewrite (H e He).
Qed.

Lemma texts_missing (members : list Enrollment.t) e :
  e ∈ members → Student_exists (Enrollment.studentId e) = false →
  mapM (λ e, Populate.toString (populated Student_exists e)) members = None.
Proof.
  intros He Hs.
  destruct (mapM _ members) as [texts|] eqn:E; [|done].
  assert (is_Some (mapM (λ e, Populate.toString (populated Student_exists e)) members))
    as Hsome by by rewrite E.
  apply mapM_is_Some in Hsome. rewrite Forall_forall in Hsome.
  destruct (Hsome e He) as [t Ht]. unfold populated, Populate.populate in Ht.
  simpl in Ht. by rewrite Hs in Ht.
Qed.

(** No record is found among the texts of documents. *)
Lemma not_enrolled_all texts (records : list Entry) :
  (∀ id, Populate.OfId id ∉ texts) → not_enrolled texts records = records.
Proof.
  intros H. unfold not_enrolled.
  induction records as [|r records IH]; [done|].
  rewrite filter_cons, decide_True by apply H. by rewrite IH.
Qed.

(** *** The three refusals of [markClassAttendance] *)

Lemma refused_class env classId date records recordedBy db :
  SchoolClass.findOne classId (schoolId recordedBy) (classes db) = None →
  markClassAttendance tz generateId Student_exists AuditLog_log env classId date
    records recordedBy db = (Err (Error "Class not found"), db).
Proof. intros H. unfold markClassAttendance. by rewrite H. Qed.

Lemma refused_null env classId date records recordedBy db e :
  is_Some (SchoolClass.findOne classId (schoolId recordedBy) (classes db)) →
  e ∈ Enrollment.findActiveByClass classId (enrollments db) →
  Student_exists (Enrollment.studentId e) = false →
  markClassAttendance tz generateId Student_exists AuditLog_log env classId date
    records recordedBy db = (Err (Error Populate.reading_null), db).
Proof.
  intros [c Hc] He Hs. unfold markClassAttendance.
  by rewrite Hc, (texts_missing _ e He Hs).
Qed.

Lemma refused_batch env classId date records recordedBy db :
  is_Some (SchoolClass.findOne classId (schoolId recordedBy) (classes db)) →
  (∀ e, e ∈ Enrollment.findActiveByClass classId (enrollments db) →
        Student_exists (Enrollment.studentId e) = true) →
  records ≠ [] →
  markClassAttendance tz generateId Student_exists AuditLog_log env classId date
    records recordedBy db = (Err (Error (not_enrolled_message records)), db).
Proof.
  intros [c Hc] Hall Hne. unfold markClassAttendance. rewrite Hc.
  destruct (texts_exist _ Hall) as [texts Ht]. rewrite Ht.
  rewrite (not_enrolled_all _ _ (texts_of_documents _ _ Ht)).
  rewrite bool_decide_eq_true_2; [done|].
  destruct records; [done|simpl; lia].
Qed.

(** A batch that is not empty is refused, and the store stays as it is. *)
Lemma refused env classId date records recordedBy db :
  records ≠ [] →
  ∃ msg, msg ≠ "" ∧
         markClassAttendance tz generateId Student_exists AuditLog_log env classId
           date records recordedBy db = (Err (Error msg), db).
Proof.
  intros Hne.
  destruct (SchoolClass.findOne classId (schoolId recordedBy) (classes db))
    as [c|] eqn:Hc; [|eexists; split; [|by apply refused_class]; done].
  destruct (decide (Forall (λ e, Student_exists (Enrollment.studentId e) = true)
                      (Enrollment.findActiveByClass classId (enrollments db))))
    as [Hall|Hsome].
  - eexists. split; [|apply refused_batch; [by eexists| |done]].
    + unfold not_enrolled_message. by rewrite NumberingProps.app_String.
    + by apply Forall_forall.
  - apply not_Forall_Exists in Hsome; [|intros; apply _].
    apply Exists_exists in Hsome as (e & He & Hs).
    eexists. split; [|apply (refused_null _ _ _ _ _ _ e); [by eexists|done|]].
    + done.
    + by apply not_true_iff_false.
Qed.

(** C7 (amended). When at least one record of the batch targets a student
    who is not active in the class, [markClassAttendance] is rejected with
    an error that carries nothing but a message, and returns the store,
    attendance rows and audit log included, as it was.  For a class that is
    not of the recorder's school the message is "Class not found".  For a
    class of the school, the students of whose active members are stored,
    the message is "Students not enrolled in class: " followed by student
    ids of records of the batch, the id of every offending record among
    them. *)
Theorem markClassAttendance_rejects_unenrolled
  (env : Env) (classId : ObjectId) (date : Date) (attendanceRecords : list Entry)
  (recordedBy : User) (db : Db) (bad : Entry) :
  bad ∈ attendanceRecords →
  ¬ active_in db classId (studentId bad) →
  (∃ msg, markClassAttendance tz generateId Student_exists AuditLog_log env
            classId date attendanceRecords recordedBy db =
            (Err (Error msg), db)) ∧
  (SchoolClass.findOne classId (schoolId recordedBy) (classes db) = None →
   markClassAttendance tz generateId Student_exists AuditLog_log env classId date
     attendanceRecords recordedBy db = (Err (Error "Class not found"), db)) ∧
  (is_Some (SchoolClass.findOne classId (schoolId recordedBy) (classes db)) →
   (∀ e, e ∈ Enrollment.findActiveByClass classId (enrollments db) →
         Student_exists (Enrollment.studentId e) = true) →
   ∃ invalidStudents,
     markClassAttendance tz generateId Student_exists AuditLog_log env classId
       date attendanceRecords recordedBy db =
       (Err (Error ("Students not enrolled in class: " +:+
                    Js.join ", " (studentId <$> invalidStudents))), db) ∧
     (∀ r, r ∈ attendanceRecords → ¬ active_in db classId (studentId r) →
           r ∈ invalidStudents) ∧
     (∀ r, r ∈ invalidStudents → r ∈ attendanceRecords) ∧
     studentId bad ∈ studentId <$> invalidStudents).
Proof.
  intros Hbad Hnot.
  assert (Hne : attendanceRecords ≠ []).
  { intros ->. by apply elem_of_nil in Hbad. }
  split_and!.
  - destruct (refused env classId date attendanceRecords recordedBy db Hne)
      as (msg & _ & H). by exists msg.
  - apply refused_class.
  - intros Hclass Hall. exists attendanceRecords. split_and!; [|done|done|].
    + by apply refused_batch.
    + by apply list_elem_of_fmap_2.
Qed.

End Service.

Lemma markClassAttendance_rejects_unenrolled_witness :
  ∃ invalidStudents,
    markClassAttendance 0 AttendanceFixtures.numbered AttendanceReadsFixtures.everyone
      AttendanceFixtures.append_log (Fixtures.at_ AttendanceFixtures.morning "x")
      "c1" AttendanceFixtures.morning
      [AttendanceFixtures.entry "s1" "present";
       AttendanceFixtures.entry "s2" "absent";
       AttendanceFixtures.entry "s3" "present"]
      AttendanceFixtures.teacher AttendanceFixtures.monday =
      (Err (Error ("Students not enrolled in class: " +:+
                   Js.join ", " (studentId <$> invalidStudents))),
       AttendanceFixtures.monday) ∧
    "s3" ∈ studentId <$> invalidStudents.
Proof.
  destruct (markClassAttendance_rejects_unenrolled 0 AttendanceFixtures.numbered
              AttendanceReadsFixtures.everyone AttendanceFixtures.append_log
              (Fixtures.at_ AttendanceFixtures.morning "x")
              "c1" AttendanceFixtures.morning
              [AttendanceFixtures.entry "s1" "present";
               AttendanceFixtures.entry "s2" "absent";
               AttendanceFixtures.entry "s3" "present"]
              AttendanceFixtures.teacher AttendanceFixtures.monday
              (AttendanceFixtures.entry "s3" "present"))
    as (_ & _ & Hr).
  - do 2 apply list_elem_of_further. apply list_elem_of_here.
  - intros (e & He & _ & _ & Hs). simpl in He.
    apply elem_of_cons in He as [->|He]; [done|].
    apply list_elem_of_singleton in He as ->. done.
  - destruct Hr as (invalidStudents & H & _ & _ & Hin); [by eexists|done|].
    by exists invalidStudents.
Defined.

(** C7, as stated, fails: the batch that names s3, who is not in Grade 1,
    is rejected with a plain [Error], not with a ValidationError. *)
Lemma rejects_unenrolled_counterexample :
  let outcome :=
    markClassAttendance 0 AttendanceFixtures.numbered AttendanceReadsFixtures.everyone
      AttendanceFixtures.append_log (Fixtures.at_ AttendanceFixtures.morning "x")
      "c1" AttendanceFixtures.morning
      [AttendanceFixtures.entry "s1" "present";
       AttendanceFixtures.entry "s2" "absent";
       AttendanceFixtures.entry "s3" "present"]
      AttendanceFixtures.teacher AttendanceFixtures.monday in
  outcome = (Err (Error "Students not enrolled in class: s1, s2, s3"),
             AttendanceFixtures.monday) ∧
  ¬ SpecAttendance.fails_with_ValidationError outcome.1.
Proof.
  intros outcome.
  assert (H : outcome = (Err (Error "Students not enrolled in class: s1, s2, s3"),
                         AttendanceFixtures.monday)) by (clear; by vm_compute).
  split; [done|]. rewrite H. by intros [paths Hp].
Qed.

(** *** [updateAttendance] *)

Lemma foldl_assign_lookup (l : list (string * Value)) (d : Doc) key :
  NoDup l.*1 →
  foldl assign d l !! key =
    if decide (protected key) then d !! key
    else match (list_to_map l : Doc) !! key with
         | Some v => Some v
         | None => d !! key
         end.
Proof.
  revert d. induction l as [|[k v] l IH]; intros d Hnd.
  { simpl. case_decide; [done|]. by rewrite lookup_empty. }
  rewrite fmap_cons in Hnd. apply NoDup_cons in Hnd as [Hk Hnd]. simpl in Hk.
  simpl foldl. rewrite IH by done. unfold assign. simpl.
  destruct (decide (protected key)) as [Hp|Hp].
  - case_bool_decide as Hpk; [done|].
    rewrite lookup_insert_ne; [done|]. by intros ->.
  - destruct (decide (k = key)) as [->|Hne].
    + rewrite (not_elem_of_list_to_map_1 l key Hk).
      rewrite bool_decide_eq_false_2 by done.
      by rewrite !lookup_insert_eq.
    + rewrite (lookup_insert_ne (list_to_map l)) by done.
      destruct (list_to_map l !! key); [done|].
      case_bool_decide; [done|]. by rewrite lookup_insert_ne.
Qed.

Lemma assign_all_lookup (updates d : Doc) key :
  assign_all updates d !! key =
    if decide (protected key) then d !! key
    else match updates !! key with
         | Some v => Some v
         | None => d !! key
         end.
Proof.
  unfold assign_all.
  rewrite foldl_assign_lookup by apply NoDup_fst_map_to_list.
  by rewrite list_to_map_to_list.
Qed.

Lemma persisted_lookup (d : Doc) key v :
  key ∈ schema_paths → d !! key = Some v → v ≠ VUndefined →
  persisted d !! key = Some v.
Proof.
  intros Hk Hd Hv. unfold persisted. by apply map_lookup_filter_Some_2.
Qed.

Lemma not_missing (d : Doc) path :
  missing d path = false → ∃ v, d !! path = Some v ∧ v ≠ VUndefined.
Proof.
  unfold missing. destruct (d !! path) as [v| ]; [ |done].
  destruct v; try done; by eexists.
Qed.

Lemma valid_identity (d : Doc) key :
  invalid_paths d = [] → protected key →
  ∃ v, d !! key = Some v ∧ v ≠ VUndefined.
Proof.
  unfold invalid_paths. intros [Hreq _]%app_eq_nil Hp.
  apply not_missing. destruct (missing d key) eqn:Hm; [|done].
  assert (Hin : key ∈ filter (λ p, missing d p = true)
                  ["studentId"; "classId"; "date"; "recordedBy"; "academicYear"]).
  { apply list_elem_of_filter. split; [done|].
    destruct Hp as [-> | [-> | ->]]; set_solver. }
  rewrite Hreq in Hin. by apply elem_of_nil in Hin.
Qed.

Lemma protected_schema key : protected key → key ∈ schema_paths.
Proof. intros [-> | [-> | ->]]; unfold schema_paths; set_solver. Qed.

Lemma attendance_save_inv tz id this rows a rows' :
  Attendance.save tz id this rows = Ok (a, rows') →
  ∃ k row,
    list_find (λ r : Doc, r !! "_id" = Some (VId id)) rows = Some (k, row) ∧
    invalid_paths this = [] ∧
    rows' = <[k := persisted
                     (pre_save_date tz
                        (bool_decide (this !! "date" ≠ row !! "date")) this)]> rows.
Proof.
  unfold Attendance.save.
  destruct (list_find _ rows) as [[k row]|]; [|done].
  destruct (invalid_paths this) eqn:Hv; [|done].
  destruct (bool_decide (persisted _ !! "_id" ≠ _)); [done|].
  destruct (bool_decide (¬ same_day _ _ ∧ _)); [done|].
  intros [= <- <-]. by exists k, row.
Qed.

Section Update.

Variable tz : Z.
Variable AuditLog_log : AuditEntry → list AuditEntry → Result (list AuditEntry).

(** Either the call is rejected with the rows as it found them, or the
    save went through and the row of the record holds what [save] wrote. *)
Lemma updateAttendance_rows attendanceId updates updatedBy db :
  let after := updateAttendance tz AuditLog_log attendanceId updates updatedBy db in
  (∃ e, after.1 = Err e ∧ attendances after.2 = attendances db) ∨
  ∃ k row,
    list_find (λ r : Doc, r !! "_id" = Some (VId attendanceId)) (attendances db) =
      Some (k, row) ∧
    invalid_paths (assign_all updates row) = [] ∧
    attendances after.2 =
      <[k := persisted (assign_all updates row)]> (attendances db).
Proof.
  unfold updateAttendance, findById.
  destruct (list_find _ (attendances db)) as [[k row]|] eqn:Hfind; simpl;
    [|left; by eexists].
  match goal with |- context [match ?c with Some _ => _ | None => _ end] =>
    destruct c end; [|left; by eexists].
  destruct (Attendance.save _ _ _ _) as [[a rows]|] eqn:Hsave;
    [|left; by eexists].
  apply attendance_save_inv in Hsave as (k' & row' & Hfind' & Hvalid & ->).
  rewrite Hfind in Hfind'. injection Hfind' as <- <-.
  right. exists k, row. split_and!; [done..|].
  assert (Hdate : assign_all updates row !! "date" = row !! "date").
  { rewrite assign_all_lookup. rewrite decide_True; [done|]. right. by right. }
  unfold pre_save_date. rewrite bool_decide_eq_false_2 by (intros H; by apply H).
  by destruct (AuditLog_log _ _).
Qed.

(** C10. [updateAttendance] leaves the student id, the class id and the day
    of every stored attendance record as they were, whatever the updates
    object holds and whether the call succeeds or not; when it succeeds, the
    schema paths other than these three that the updates object sets are
    stored with the values it gives, and the paths it does not name keep
    their values. *)
Theorem updateAttendance_keeps_identity
  (attendanceId : ObjectId) (updates : Doc) (updatedBy : User) (db : Db)
  (i : nat) (record : Doc) :
  attendances db !! i = Some record →
  let after := updateAttendance tz AuditLog_log attendanceId updates updatedBy db in
  (∃ record',
     attendances after.2 !! i = Some record' ∧
     record' !! "studentId" = record !! "studentId" ∧
     record' !! "classId" = record !! "classId" ∧
     record' !! "date" = record !! "date") ∧
  (∀ result, after.1 = Ok result →
     ∃ k row row',
       list_find (λ r : Doc, r !! "_id" = Some (VId attendanceId)) (attendances db) =
         Some (k, row) ∧
       attendances after.2 !! k = Some row' ∧
       (∀ key v, ¬ protected key → key ∈ schema_paths → v ≠ VUndefined →
                 updates !! key = Some v → row' !! key = Some v) ∧
       (∀ key v, key ∈ schema_paths → v ≠ VUndefined →
                 updates !! key = None → row !! key = Some v →
                 row' !! key = Some v)).
Proof.
  intros Hi after. subst after.
  destruct (updateAttendance_rows attendanceId updates updatedBy db)
    as [(e & Herr & Hrows)|(k & row & Hfind & Hvalid & Hrows)];
    simpl in *; rewrite Hrows.
  { split; [by exists record|]. intros result Hres. congruence. }
  pose proof Hfind as (Hk & _)%list_find_Some.
  assert (Hlen : k < length (attendances db)) by by eapply lookup_lt_Some.
  split.
  - destruct (decide (k = i)) as [->|Hne].
    + assert (row = record) as -> by congruence.
      eexists. split; [by apply list_lookup_insert_eq|].
      assert (Hkeep : ∀ key, protected key →
                persisted (assign_all updates record) !! key = record !! key).
      { intros key Hp.
        destruct (valid_identity _ key Hvalid Hp) as (v & Hv & Hu).
        rewrite (persisted_lookup _ key v (protected_schema key Hp) Hv Hu).
        rewrite <- Hv, assign_all_lookup. by rewrite decide_True. }
      split_and!; apply Hkeep; unfold protected; auto.
    + exists record. by rewrite list_lookup_insert_ne.
  - intros result _. exists k, row. eexists. split; [done|]. split_and!.
    + by apply list_lookup_insert_eq.
    + intros key v Hp Hs Hu Hupd. apply persisted_lookup; [done| |done].
      rewrite assign_all_lookup, decide_False by done. by rewrite Hupd.
    + intros key v Hs Hu Hupd Hrow. apply persisted_lookup; [done| |done].
      rewrite assign_all_lookup, Hupd. by case_decide.
Qed.

End Update.

Lemma updateAttendance_keeps_identity_witness :
  attendances AttendanceFixtures.monday_marked !! 0%nat =
    Some AttendanceFixtures.marked_s1 ∧
  ∃ record',
    attendances
      (updateAttendance 0 AttendanceFixtures.append_log "a0"
         AttendanceFixtures.correction AttendanceFixtures.teacher
         AttendanceFixtures.monday_marked).2 !! 0%nat = Some record' ∧
    record' !! "studentId" = Some (VId "s1") ∧
    record' !! "classId" = Some (VId "c1") ∧
    record' !! "date" = Some (VDate AttendanceFixtures.midnight).
Proof.
  split; [reflexivity|].
  destruct (updateAttendance_keeps_identity 0 AttendanceFixtures.append_log "a0"
              AttendanceFixtures.correction AttendanceFixtures.teacher
              AttendanceFixtures.monday_marked 0 AttendanceFixtures.marked_s1
              eq_refl) as [(r' & Hr & Hs & Hc & Hd) _].
  exists r'. rewrite Hs, Hc, Hd. by split_and!.
Defined.

(** The correction of the fixtures is stored: the record is late, arrived at
    09:15, and is still the record of s1 in c1 on the same day. *)
Example correction_stored :
  attendances
    (updateAttendance 0 AttendanceFixtures.append_log "a0"
       AttendanceFixtures.correction AttendanceFixtures.teacher
       AttendanceFixtures.monday_marked).2 =
    [<["status" := VStr "late"]>
       (<["arrivalTime" := VStr "09:15"]> AttendanceFixtures.marked_s1)].
Proof. compute_done. Qed.

End AttendanceProps.

(** ** Bulk upsert *)

Module BulkWriteProps.

Import Attendance.

Local Open Scope string_scope.
Local Open Scope list_scope.

Lemma matches_union o o' (d : Doc) :
  keyless o' → matches o (set_fields o' ∪ d) ↔ matches o d.
Proof. intros [[H1 H2] _]. unfold matches. by rewrite !lookup_union_r. Qed.

Lemma matches_same_key o o' (d : Doc) :
  same_key o o' → matches o d ↔ matches o' d.
Proof. intros [H1 H2]. unfold matches. by rewrite H1, H2. Qed.

Lemma union_absorb o o' (d : Doc) :
  covers o o' → set_fields o ∪ (set_fields o' ∪ d) = set_fields o ∪ d.
Proof.
  intros Hc. apply map_eq. intros path. rewrite !lookup_union.
  destruct (set_fields o !! path) as [v|] eqn:E.
  - by destruct (set_fields o' !! path), (d !! path).
  - rewrite (Hc path E). by destruct (d !! path).
Qed.

(** Rewriting a row by one that matches the same filters does not move
    what [list_find] finds. *)
Lemma list_find_insert_keep (P : Doc → Prop) `{!∀ x, Decision (P x)}
  (rows : list Doc) k d d' :
  rows !! k = Some d → (P d' ↔ P d) →
  list_find P (<[k := d']> rows) =
    (λ jx, (jx.1, if decide (jx.1 = k) then d' else jx.2)) <$> list_find P rows.
Proof.
  revert k. induction rows as [|r rows IH]; intros [|k] Hk HP; try done.
  - injection Hk as ->. cbn.
    destruct (decide (P d')) as [p|n], (decide (P d)) as [q|m];
      [done | by destruct m; apply HP | by destruct n; apply HP |].
    by destruct (list_find P rows) as [[j x]|].
  - simpl in Hk. simpl. destruct (decide (P r)); [done|].
    rewrite (IH k Hk HP).
    destruct (list_find P rows) as [[j x]|]; [|done]. simpl.
    by destruct (decide (j = k)), (decide (S j = S k)); try lia.
Qed.

Section Rows.

Variable generateId : list Doc → ObjectId.

Lemma written_present o rows k d :
  list_find (matches o) rows = Some (k, d) →
  written generateId rows o = <[k := set_fields o ∪ d]> rows.
Proof. intros H. unfold written. by rewrite H. Qed.

Lemma written_absent o rows :
  list_find (matches o) rows = None →
  written generateId rows o = rows ++ [upserted generateId o rows].
Proof. intros H. unfold written. by rewrite H. Qed.

Lemma matches_upserted o rows : keyless o → matches o (upserted generateId o rows).
Proof.
  intros [[H1 H2] [H3 H4]]. unfold matches, upserted.
  rewrite !lookup_union_r by done.
  rewrite lookup_insert_ne by done. rewrite lookup_insert_eq.
  rewrite !lookup_insert_ne by done. by rewrite lookup_insert_eq.
Qed.

(** What an operation finds after another one has written. *)
Lemma find_after_written o o' rows :
  keyless o' → present o rows →
  ∃ k d, list_find (matches o) rows = Some (k, d) ∧
         ∃ d', list_find (matches o) (written generateId rows o') = Some (k, d').
Proof.
  intros Hk [[k d] Hfind]. exists k, d. split; [done|].
  destruct (list_find (matches o') rows) as [[j x]|] eqn:Hj.
  - rewrite (written_present o' rows j x Hj).
    pose proof Hj as (Hx & _)%list_find_Some.
    rewrite (list_find_insert_keep (matches o) rows j x _ Hx)
      by by apply matches_union.
    rewrite Hfind. by eexists.
  - rewrite (written_absent o' rows Hj). exists d.
    by apply list_find_app_l.
Qed.

Lemma present_written o o' rows :
  keyless o' → present o rows → present o (written generateId rows o').
Proof.
  intros Hk Hp. destruct (find_after_written o o' rows Hk Hp)
    as (k & d & _ & d' & H). by eexists.
Qed.

Lemma present_own o rows : keyless o → present o (written generateId rows o).
Proof.
  intros Hk. destruct (list_find (matches o) rows) as [[j x]|] eqn:Hj.
  - apply present_written; [done|by eexists].
  - rewrite (written_absent o rows Hj). unfold present.
    destruct (list_find (matches o) (rows ++ [upserted generateId o rows])) eqn:E;
      [by eexists|].
    apply list_find_None in E. rewrite Forall_app, Forall_singleton in E.
    destruct E as [_ E]. exfalso. apply E. by apply matches_upserted.
Qed.

(** A later operation on the same key overwrites an earlier one, when the
    row was there or both would insert the same document. *)
Lemma written_absorb o o' rows :
  same_key o o' → keyless o → keyless o' → covers o o' →
  present o' rows ∨ set_on_insert o = set_on_insert o' →
  written generateId (written generateId rows o') o = written generateId rows o.
Proof.
  intros Hs Hk Hk' Hc Hins.
  assert (Hm : ∀ d, matches o d ↔ matches o' d) by (intros; by apply matches_same_key).
  assert (Hf : ∀ l, list_find (matches o) l = list_find (matches o') l)
    by (intros; by apply list_find_ext).
  destruct (list_find (matches o') rows) as [[j x]|] eqn:Hj.
  - rewrite (written_present o' rows j x Hj).
    pose proof Hj as (Hx & _)%list_find_Some.
    assert (Hlen : j < length rows) by by eapply lookup_lt_Some.
    rewrite (written_present o rows j x) by by rewrite Hf.
    rewrite (written_present o _ j (set_fields o' ∪ x)).
    + by rewrite list_insert_insert_eq, union_absorb.
    + rewrite (list_find_insert_keep (matches o) rows j x _ Hx)
        by by apply matches_union.
      rewrite Hf, Hj. cbn. by rewrite decide_True.
  - destruct Hins as [[? Hp]|Hins]; [by rewrite Hj in Hp|].
    rewrite (written_absent o' rows Hj).
    rewrite (written_absent o rows) by by rewrite Hf.
    assert (Hup : upserted generateId o rows = set_fields o ∪ upserted generateId o' rows).
    { unfold upserted. destruct Hs as [-> ->].
      by rewrite union_absorb, Hins. }
    rewrite (written_present o _ (length rows) (upserted generateId o' rows)).
    + rewrite Hup. rewrite insert_app_r_alt by done.
      by rewrite Nat.sub_diag.
    + apply list_find_app_Some. right. split; [done|]. split; [by rewrite Hf|].
      rewrite Nat.sub_diag. cbn. rewrite decide_True; [done|].
      apply Hm. by apply matches_upserted.
Qed.

(** Operations on different keys that both find their row commute. *)
Lemma written_commute o o' rows :
  ¬ same_key o o' → keyless o → keyless o' →
  present o rows → present o' rows →
  written generateId (written generateId rows o') o = written generateId (written generateId rows o) o'.
Proof.
  intros Hne Hk Hk' [[i d] Hi] [[j x] Hj].
  pose proof Hi as (Hd & Hmd & _)%list_find_Some.
  pose proof Hj as (Hx & Hmx & _)%list_find_Some.
  assert (Hij : i ≠ j).
  { intros ->. apply Hne. assert (d = x) as -> by congruence.
    destruct Hmd as [H1 H2], Hmx as [H3 H4]. split; congruence. }
  rewrite (written_present o' rows j x Hj), (written_present o rows i d Hi).
  rewrite (written_present o _ i d).
  - rewrite (written_present o' _ j x).
    + by apply list_insert_insert_ne.
    + rewrite (list_find_insert_keep (matches o') rows i d _ Hd)
        by by apply matches_union.
      rewrite Hj. cbn. by rewrite decide_False.
  - rewrite (list_find_insert_keep (matches o) rows j x _ Hx)
      by by apply matches_union.
    rewrite Hi. cbn. by rewrite decide_False.
Qed.

Lemma updateOne_rows res rows o :
  (updateOne generateId (res, rows) o).2 = written generateId rows o.
Proof.
  unfold updateOne, written. by destruct (list_find _ _) as [[k d]|].
Qed.

Lemma bulkWrite_rows now ops rows :
  (bulkWrite generateId now ops rows).2 =
  foldl (written generateId) rows (timestamps now <$> ops).
Proof.
  unfold bulkWrite. generalize {| upsertedCount := 0; modifiedCount := 0 |}.
  generalize (timestamps now <$> ops). clear ops. intros ops.
  revert rows. induction ops as [|o ops IH]; intros rows res; [done|].
  change (foldl (updateOne generateId) (res, rows) (o :: ops))
    with (foldl (updateOne generateId) (updateOne generateId (res, rows) o) ops).
  change (foldl (written generateId) rows (o :: ops))
    with (foldl (written generateId) (written generateId rows o) ops).
  rewrite <- (updateOne_rows res rows o).
  destruct (updateOne generateId (res, rows) o) as [res' rows']. apply IH.
Qed.

Lemma present_run w o rows :
  Forall keyless w → present o rows →
  present o (foldl (written generateId) rows w).
Proof.
  revert rows. induction w as [|o1 w IH]; intros rows Hk Hp; [done|].
  apply Forall_cons in Hk as [Hk1 Hk]. simpl. apply IH; [done|].
  by apply present_written.
Qed.

Lemma present_all_run w rows :
  Forall keyless w →
  Forall (λ o, present o (foldl (written generateId) rows w)) w.
Proof.
  revert rows. induction w as [|o w IH]; intros rows Hk; [done|].
  apply Forall_cons in Hk as [Hk1 Hk]. simpl. apply Forall_cons. split.
  - apply present_run; [done|]. by apply present_own.
  - by apply IH.
Qed.

Lemma present_all_written w o t :
  keyless o → Forall (λ o1, present o1 t) w →
  Forall (λ o1, present o1 (written generateId t o)) w.
Proof.
  intros Hk Hw. eapply Forall_impl; [exact Hw|].
  intros o1 Hp. by apply present_written.
Qed.

(** An operation is lost when a later one of the run has its key. *)
Lemma run_absorb w o t :
  Forall keyless w → keyless o → (∀ o1, o1 ∈ w → covers o1 o) →
  present o t → Forall (λ o1, present o1 t) w →
  Exists (λ o1, same_key o1 o) w →
  foldl (written generateId) (written generateId t o) w =
  foldl (written generateId) t w.
Proof.
  revert t. induction w as [|o1 w IH]; intros t Hkw Hk Hc Hp Hpw Hex.
  { by apply Exists_nil in Hex. }
  apply Forall_cons in Hkw as [Hk1 Hkw]. apply Forall_cons in Hpw as [Hp1 Hpw].
  simpl. destruct (decide (same_key o1 o)) as [Hs|Hs].
  - rewrite written_absorb; [done..|apply Hc, list_elem_of_here|by left].
  - rewrite (written_commute o1 o t) by done.
    apply IH; [done | done | | by apply present_written
              | by apply present_all_written |].
    + intros o2 Ho2. by apply Hc, list_elem_of_further.
    + by apply Exists_cons in Hex as [Hex|Hex].
Qed.

(** An operation moves past a run that does not touch its key. *)
Lemma run_commute w o t :
  Forall keyless w → keyless o →
  present o t → Forall (λ o1, present o1 t) w →
  Forall (λ o1, ¬ same_key o1 o) w →
  foldl (written generateId) (written generateId t o) w =
  written generateId (foldl (written generateId) t w) o.
Proof.
  revert t. induction w as [|o1 w IH]; intros t Hkw Hk Hp Hpw Hne; [done|].
  apply Forall_cons in Hkw as [Hk1 Hkw]. apply Forall_cons in Hpw as [Hp1 Hpw].
  apply Forall_cons in Hne as [Hn1 Hne]. simpl.
  rewrite (written_commute o1 o t) by done.
  apply IH; [done | done | by apply present_written
            | by apply present_all_written | done].
Qed.

(** A run whose rows are all found leaves what follows them alone. *)
Lemma run_app w t x :
  Forall keyless w → Forall (λ o1, present o1 t) w →
  foldl (written generateId) (t ++ x) w =
  foldl (written generateId) t w ++ x.
Proof.
  revert t. induction w as [|o1 w IH]; intros t Hkw Hpw; [done|].
  apply Forall_cons in Hkw as [Hk1 Hkw]. apply Forall_cons in Hpw as [Hp1 Hpw].
  simpl. destruct Hp1 as [[k d] Hfind].
  pose proof Hfind as (Hd & _)%list_find_Some.
  rewrite (written_present o1 (t ++ x) k d)
    by by apply list_find_app_l.
  rewrite insert_app_l by by eapply lookup_lt_Some.
  rewrite <- (written_present o1 t k d Hfind).
  apply IH; [done|]. by apply present_all_written.
Qed.

Lemma covers_refl o : covers o o.
Proof. by intros path. Qed.

Lemma same_key_refl o : same_key o o.
Proof. by split. Qed.

Lemma batch_ok_snoc w o :
  batch_ok (w ++ [o]) →
  batch_ok w ∧ keyless o ∧ ∀ o1, o1 ∈ w → covers o1 o.
Proof.
  intros [Hk Hc]. apply Forall_app in Hk as [Hkw Hko].
  rewrite Forall_singleton in Hko. split; [split|split]; [done| |done|].
  - intros o1 o2 H1 H2. apply Hc; apply elem_of_app; by left.
  - intros o1 H1. apply Hc; apply elem_of_app; [by left|].
    right. apply list_elem_of_here.
Qed.

(** Running a batch on the rows it has produced changes nothing. *)
Lemma run_idempotent w rows :
  batch_ok w →
  foldl (written generateId) (foldl (written generateId) rows w) w =
  foldl (written generateId) rows w.
Proof.
  induction w as [|o w IH] using rev_ind; intros Hok; [done|].
  apply batch_ok_snoc in Hok as (Hw & Hk & Hc). specialize (IH Hw).
  destruct Hw as [Hkw _].
  rewrite !foldl_snoc. set (t := foldl (written generateId) rows w) in *.
  pose proof (present_all_run w rows Hkw) as Hpw. fold t in Hpw.
  assert (Hrun : foldl (written generateId) (written generateId t o) w =
                 written generateId t o ∨
                 foldl (written generateId) (written generateId t o) w = t).
  { destruct (decide (Exists (λ o1, same_key o1 o) w)) as [Hex|Hnex].
    - right. rewrite run_absorb; [done..| |done|done].
      apply Exists_exists in Hex as (o1 & Ho1 & Hs).
      pose proof (proj1 (Forall_forall _ _) Hpw o1 Ho1) as Hp1.
      unfold present in *.
      by rewrite (list_find_ext _ (matches o1))
        by (intros d; symmetry; by apply matches_same_key).
    - left. apply not_Exists_Forall in Hnex; [|intros; apply _].
      destruct (list_find (matches o) t) as [[k d]|] eqn:Hfind.
      + rewrite run_commute; [by rewrite IH|done|done|by eexists|done|done].
      + rewrite (written_absent o t Hfind).
        rewrite run_app by done. by rewrite IH. }
  destruct Hrun as [->| ->]; [|done].
  apply written_absorb; [apply same_key_refl|done|done|apply covers_refl|by right].
Qed.

(** The operations [markClassAttendance] builds form a batch, once stamped
    as well. *)
Lemma operations_ok now classId day recordedBy classDoc (records : list Entry) :
  batch_ok (timestamps now <$>
              (operation classId day recordedBy classDoc <$> records)).
Proof.
  split.
  - apply Forall_fmap, Forall_fmap, Forall_true. intros r.
    split; split; reflexivity.
  - intros o o' (? & -> & (r & -> & _)%list_elem_of_fmap)%list_elem_of_fmap
      (? & -> & (r' & -> & _)%list_elem_of_fmap)%list_elem_of_fmap path.
    unfold timestamps, operation. simpl. rewrite !lookup_insert.
    repeat case_decide; done.
Qed.

Lemma written_unique_days o rows :
  keyless o → unique_days rows → unique_days (written generateId rows o).
Proof.
  intros Hk Hu. unfold unique_days in *.
  destruct (list_find (matches o) rows) as [[k d]|] eqn:Hfind.
  - rewrite (written_present o rows k d Hfind).
    apply list_find_Some in Hfind as (Hd & _).
    rewrite list_fmap_insert.
    replace (day_key (set_fields o ∪ d)) with (day_key d).
    + rewrite list_insert_id; [done|]. by rewrite list_lookup_fmap, Hd.
    + destruct Hk as [[H1 H2] _]. unfold day_key. by rewrite !lookup_union_r.
  - rewrite (written_absent o rows Hfind).
    rewrite fmap_app. apply NoDup_app. split_and!; [done| |apply NoDup_singleton].
    intros key (d & -> & Hd)%list_elem_of_fmap Hin.
    apply list_elem_of_singleton in Hin.
    apply list_find_None in Hfind.
    apply (proj1 (Forall_forall _ _) Hfind d Hd).
    destruct (matches_upserted o rows Hk) as [H1 H2].
    unfold day_key in Hin. injection Hin as Hs Hdate.
    split; congruence.
Qed.

Lemma run_unique_days w rows :
  Forall keyless w → unique_days rows →
  unique_days (foldl (written generateId) rows w).
Proof.
  revert rows. induction w as [|o w IH]; intros rows Hk Hu; [done|].
  apply Forall_cons in Hk as [Hk1 Hk]. simpl. apply IH; [done|].
  by apply written_unique_days.
Qed.

(** The rows the static [markClassAttendance] leaves. *)
Lemma markClassAttendance_rows tz env classId date records recordedBy classes rows :
  (Attendance.markClassAttendance generateId tz env classId date records
     recordedBy classes rows).2 =
  match SchoolClass.findById classId classes with
  | None => rows
  | Some classDoc =>
      foldl (written generateId) rows
        (timestamps (now env) <$>
           (operation classId (startOfDay tz date) recordedBy classDoc <$> records))
  end.
Proof.
  unfold Attendance.markClassAttendance.
  destruct (SchoolClass.findById classId classes) as [classDoc|]; [|done].
  rewrite <- bulkWrite_rows. by destruct (bulkWrite _ _ _ _).
Qed.

Lemma static_idempotent tz env classId date records recordedBy classes rows :
  let once :=
    Attendance.markClassAttendance generateId tz env classId date records
      recordedBy classes rows in
  (Attendance.markClassAttendance generateId tz env classId date records
     recordedBy classes once.2).2 = once.2.
Proof.
  simpl. rewrite !markClassAttendance_rows.
  destruct (SchoolClass.findById classId classes) as [classDoc|]; [|done].
  apply run_idempotent, operations_ok.
Qed.

Lemma static_unique_days tz env classId date records recordedBy classes rows :
  unique_days rows →
  unique_days
    (Attendance.markClassAttendance generateId tz env classId date records
       recordedBy classes rows).2.
Proof.
  intros Hu. rewrite markClassAttendance_rows.
  destruct (SchoolClass.findById classId classes) as [classDoc|]; [|done].
  apply run_unique_days; [|done].
  by destruct (operations_ok (now env) classId (startOfDay tz date) recordedBy
                 classDoc records).
Qed.

(** *** A replay at another time

    Rows that agree apart from [updatedAt] are found by the same filters,
    and a batch stamped at another time writes them alike. *)







(** *** Days *)










End Rows.




End BulkWriteProps.


(** * Further properties of the code *)

Module InvoiceStaticsProps.

Import Invoice InvoiceStatics Numbering NumberingProps.

Local Open Scope string_scope.
Local Open Scope Z_scope.

(** *** The greatest number *)

Lemma greatest_kept b rows :
  (∀ x, x ∈ rows → String.compare (invoiceNumber b) (invoiceNumber x) ≠ Lt) →
  greatest (Some b) rows = Some b.
Proof.
  induction rows as [|x rows IH]; simpl; [done|]. intros H.
  pose proof (H x ltac:(left)) as Hx.
  destruct (String.compare (invoiceNumber b) (invoiceNumber x)); try done;
    apply IH; intros; apply H; by right.
Qed.

(** A row whose number no other row exceeds decides the result. *)
Lemma greatest_top best rows m :
  m ∈ rows →
  (∀ x, x ∈ rows → String.compare (invoiceNumber m) (invoiceNumber x) ≠ Lt) →
  (∀ b, best = Some b → String.compare (invoiceNumber m) (invoiceNumber b) ≠ Lt) →
  ∃ r, greatest best rows = Some r ∧ invoiceNumber r = invoiceNumber m.
Proof.
  revert best. induction rows as [|x rows IH]; intros best Hm Htop Hbest.
  { by apply elem_of_nil in Hm. }
  assert (Hrest : ∀ y, y ∈ rows →
            String.compare (invoiceNumber m) (invoiceNumber y) ≠ Lt).
  { intros. apply Htop. by right. }
  assert (Hfrom : ∀ b, invoiceNumber b = invoiceNumber m →
            ∃ r, greatest (Some b) rows = Some r ∧ invoiceNumber r = invoiceNumber m).
  { intros b Hb. exists b. split; [|done]. apply greatest_kept.
    intros y Hy. rewrite Hb. by apply Hrest. }
  assert (Hnew : ∃ r, greatest (Some x) rows = Some r ∧
                      invoiceNumber r = invoiceNumber m).
  { apply elem_of_cons in Hm as [->|Hm]; [by apply Hfrom|].
    apply IH; [done|done|]. intros b [= <-]. apply Htop. by left. }
  simpl. destruct best as [b|]; [|done].
  destruct (String.compare (invoiceNumber b) (invoiceNumber x)) eqn:Hc; [|done|].
  - apply elem_of_cons in Hm as [->|Hm].
    + apply Hfrom. by apply String.compare_eq_iff.
    + apply IH; [done|done|]. intros b' [= <-]. by apply Hbest.
  - apply elem_of_cons in Hm as [->|Hm].
    + exfalso. apply (Hbest b eq_refl).
      rewrite String.compare_antisym, Hc. done.
    + apply IH; [done|done|]. intros b' [= <-]. by apply Hbest.
Qed.

(** Among well-formed numbers the greatest counter wins. *)
Lemma greatest_max pre rows b kb :
  invoiceNumber b = number pre kb → (kb <= 99999)%N →
  Forall (λ x, ∃ k, (k <= 99999)%N ∧ invoiceNumber x = number pre k) rows →
  ∃ r kr, greatest (Some b) rows = Some r ∧ (r = b ∨ r ∈ rows) ∧
          invoiceNumber r = number pre kr ∧ (kr <= 99999)%N ∧ (kb <= kr)%N ∧
          Forall (λ x, ∀ k, invoiceNumber x = number pre k → (k <= kr)%N) rows.
Proof.
  revert b kb. induction rows as [|x rows IH]; intros b kb Hb Hkb Hwf.
  { exists b, kb. simpl. repeat split; try done. by left. }
  apply Forall_cons in Hwf as [(kx & Hkx & Hx) Hwf].
  simpl. rewrite Hb, Hx, compare_numbers by done.
  destruct (N.compare_spec kb kx) as [E|E|E].
  - destruct (IH b kb Hb Hkb Hwf) as (r & kr & Hr & Hin & Hnr & Hkr & Hle & Hall).
    exists r, kr. repeat split; try done.
    + destruct Hin; [by left|right; by right].
    + apply Forall_cons. split; [|done].
      intros k Hk. rewrite Hx in Hk. apply number_inj in Hk. lia.
  - destruct (IH x kx Hx Hkx Hwf) as (r & kr & Hr & Hin & Hnr & Hkr & Hle & Hall).
    exists r, kr. repeat split; try done.
    + right. destruct Hin as [->|Hin]; [by left|by right].
    + lia.
    + apply Forall_cons. split; [|done].
      intros k Hk. rewrite Hx in Hk. apply number_inj in Hk. lia.
  - destruct (IH b kb Hb Hkb Hwf) as (r & kr & Hr & Hin & Hnr & Hkr & Hle & Hall).
    exists r, kr. repeat split; try done.
    + destruct Hin; [by left|right; by right].
    + apply Forall_cons. split; [|done].
      intros k Hk. rewrite Hx in Hk. apply number_inj in Hk. lia.
Qed.

(** *** The number after a given one *)

Lemma generate_first env school rows :
  findLast school (prefix env) rows = None →
  generateInvoiceNumber env school rows = number (prefix env) 1.
Proof.
  unfold generateInvoiceNumber. fold (prefix env). by intros ->.
Qed.

Lemma generate_after env school rows last d :
  findLast school (prefix env) rows = Some last →
  invoiceNumber last = prefix env +:+ d → numeral d → d ≠ "" →
  generateInvoiceNumber env school rows =
    number (prefix env) (Js.digits 0 d + 1).
Proof.
  intros Hlast Hn Hd Hne.
  unfold generateInvoiceNumber. fold (prefix env). rewrite Hlast, Hn.
  pose proof (split_number "INV" (fullYear env) d) as Hs.
  change ("INV" +:+ "-" +:+ pretty (fullYear env) +:+ "-") with (prefix env) in Hs.
  rewrite Hs by (try done; by repeat split).
  simpl. by rewrite parseInt_numeral.
Qed.

Lemma generate_after_number env school rows last k :
  findLast school (prefix env) rows = Some last →
  invoiceNumber last = number (prefix env) k →
  generateInvoiceNumber env school rows = number (prefix env) (k + 1).
Proof.
  intros Hlast Hn.
  destruct (padded_spec k) as (Hnum & Hne & Hv & _). simpl in *.
  rewrite (generate_after env school rows last (Js.padStart 5 "0" (pretty k)));
    [by rewrite Hv|done..].
Qed.

Lemma findLast_own school pre rows rows' :
  filter (λ i, schoolId i = school) rows = filter (λ i, schoolId i = school) rows' →
  findLast school pre rows = findLast school pre rows'.
Proof.
  intros H. unfold findLast. f_equal.
  assert (E : ∀ l : list t,
            filter (λ i, schoolId i = school ∧ has_prefix pre i = true) l =
            filter (λ i, has_prefix pre i = true) (filter (λ i, schoolId i = school) l)).
  { intros l. induction l as [|x l IHl]; [done|].
    rewrite !filter_cons.
    destruct (decide (schoolId x = school)) as [Hs|Hs].
    - rewrite filter_cons.
      destruct (decide (has_prefix pre x = true)) as [Hp|Hp].
      + rewrite decide_True by done. by f_equal.
      + rewrite decide_False by tauto. done.
    - rewrite decide_False by tauto. done. }
  by rewrite !E, H.
Qed.

Lemma findLast_none school pre rows :
  (∀ i, i ∈ rows → schoolId i = school → has_prefix pre i = false) →
  findLast school pre rows = None.
Proof.
  intros H. unfold findLast.
  assert (filter (λ i, schoolId i = school ∧ has_prefix pre i = true) rows = [])
    as ->; [|done].
  induction rows as [|x rows IH]; [done|].
  rewrite filter_cons, decide_False.
  - apply IH. intros. apply H; [by right|done].
  - intros [Hs Hp]. rewrite (H x ltac:(left) Hs) in Hp. done.
Qed.

Lemma has_prefix_number pre i k :
  invoiceNumber i = number pre k → has_prefix pre i = true.
Proof. intros H. unfold has_prefix. rewrite H. apply prefix_app. Qed.

(** X4. [generateInvoiceNumber(schoolId)] reads the invoices of that school
    only: collections that agree on the school's invoices give the same
    number, and a school without an invoice of the current year is given
    [<prefix>00001], also when another school's invoice already carries that
    number. *)
Theorem generateInvoiceNumber_scoped (env : Env) (school : ObjectId) :
  (∀ rows rows',
     filter (λ i, schoolId i = school) rows = filter (λ i, schoolId i = school) rows' →
     generateInvoiceNumber env school rows = generateInvoiceNumber env school rows') ∧
  (∀ rows,
     (∀ i, i ∈ rows → schoolId i = school → has_prefix (prefix env) i = false) →
     generateInvoiceNumber env school rows = prefix env +:+ "00001") ∧
  (∀ rows a,
     schoolId a ≠ school → invoiceNumber a = prefix env +:+ "00001" →
     (∀ i, i ∈ rows → schoolId i = school → has_prefix (prefix env) i = false) →
     generateInvoiceNumber env school (rows ++ [a]) = invoiceNumber a).
Proof.
  assert (Hnone : ∀ rows,
            (∀ i, i ∈ rows → schoolId i = school → has_prefix (prefix env) i = false) →
            generateInvoiceNumber env school rows = prefix env +:+ "00001").
  { intros rows H. rewrite generate_first by by apply findLast_none. done. }
  split; [|split; [done|]].
  - intros rows rows' H. unfold generateInvoiceNumber.
    fold (prefix env). by rewrite (findLast_own _ _ _ _ H).
  - intros rows a Ha Hn H. rewrite Hn. apply Hnone.
    intros i Hi Hs. apply elem_of_app in Hi as [Hi|Hi]; [by apply H|].
    apply list_elem_of_singleton in Hi as ->. done.
Qed.

(** X5. While the numbers of a school for the current year are well formed
    and below 100000, [generateInvoiceNumber] returns the number after the
    greatest of them (00001 when there is none): a number none of the
    school's invoices carries. *)
Theorem generateInvoiceNumber_advances (env : Env) (school : ObjectId)
  (rows : list t) :
  (∀ i, i ∈ rows → schoolId i = school → has_prefix (prefix env) i = true →
        ∃ k, (k <= 99999)%N ∧ invoiceNumber i = number (prefix env) k) →
  ∃ n, generateInvoiceNumber env school rows = number (prefix env) n ∧
       (∀ i, i ∈ rows → schoolId i = school →
             invoiceNumber i ≠ number (prefix env) n) ∧
       (∀ i k, i ∈ rows → schoolId i = school →
               invoiceNumber i = number (prefix env) k → (k < n)%N) ∧
       (n = 1%N ∨ ∃ i, i ∈ rows ∧ schoolId i = school ∧
                       invoiceNumber i = number (prefix env) (n - 1)).
Proof.
  intros Hwf.
  set (own := λ i, schoolId i = school ∧ has_prefix (prefix env) i = true).
  assert (Hown : ∀ i, i ∈ filter own rows ↔ i ∈ rows ∧ own i).
  { intros i. rewrite list_elem_of_filter. tauto. }
  assert (Hlast : findLast school (prefix env) rows = greatest None (filter own rows))
    by done.
  assert (Hfresh : ∀ n,
            (∀ i k, i ∈ rows → schoolId i = school →
                    invoiceNumber i = number (prefix env) k → (k < n)%N) →
            ∀ i, i ∈ rows → schoolId i = school →
                 invoiceNumber i ≠ number (prefix env) n).
  { intros n Hlt i Hi Hs Hn. specialize (Hlt i n Hi Hs Hn). lia. }
  destruct (filter own rows) as [|b l] eqn:HL.
  - exists 1%N.
    assert (Hnone : ∀ i k, i ∈ rows → schoolId i = school →
              invoiceNumber i = number (prefix env) k → (k < 1)%N).
    { intros i k Hi Hs Hn. exfalso.
      assert (i ∈ @nil t) as Hin.
      { apply Hown. split; [done|]. split; [done|]. by eapply has_prefix_number. }
      by apply elem_of_nil in Hin. }
    split; [by apply generate_first|]. split; [by apply Hfresh|].
    split; [done|by left].
  - assert (Hall : ∀ i, i ∈ b :: l →
              ∃ k, (k <= 99999)%N ∧ invoiceNumber i = number (prefix env) k).
    { intros i Hi. apply Hown in Hi as (Hi & Hs & Hp). eauto. }
    destruct (Hall b ltac:(left)) as (kb & Hkb & Hb).
    destruct (greatest_max (prefix env) l b kb Hb Hkb)
      as (r & kr & Hr & Hin & Hnr & Hkr & Hle & Hmax).
    { apply Forall_forall. intros x Hx. apply Hall. by right. }
    exists (kr + 1)%N.
    assert (Hbelow : ∀ i k, i ∈ rows → schoolId i = school →
              invoiceNumber i = number (prefix env) k → (k < kr + 1)%N).
    { intros i k Hi Hs Hn.
      assert (i ∈ b :: l) as Hil.
      { apply Hown. split; [done|]. split; [done|].
        by eapply has_prefix_number. }
      apply elem_of_cons in Hil as [->|Hil].
      - rewrite Hb in Hn. apply number_inj in Hn. lia.
      - rewrite Forall_forall in Hmax. specialize (Hmax i Hil k Hn). lia. }
    split; [|split; [by apply Hfresh|split; [done|]]].
    + eapply generate_after_number; [|exact Hnr]. by rewrite Hlast.
    + right. exists r.
      assert (r ∈ b :: l) as Hrl by (destruct Hin as [->|?]; [by left|by right]).
      apply Hown in Hrl as (Hi & Hs & _).
      replace (kr + 1 - 1)%N with kr by lia. done.
Qed.

Lemma overflow_core env school rows :
  (∀ i, i ∈ rows → schoolId i = school → has_prefix (prefix env) i = true →
        (∃ k, (k <= 99999)%N ∧ invoiceNumber i = number (prefix env) k) ∨
        invoiceNumber i = prefix env +:+ "100000") →
  (∃ i, i ∈ rows ∧ schoolId i = school ∧ invoiceNumber i = prefix env +:+ "99999") →
  generateInvoiceNumber env school rows = prefix env +:+ "100000".
Proof.
  intros Hwf (m & Hm & Hms & Hmn).
  set (own := λ i, schoolId i = school ∧ has_prefix (prefix env) i = true).
  assert (Hown : ∀ i, i ∈ filter own rows ↔ i ∈ rows ∧ own i).
  { intros i. rewrite list_elem_of_filter. tauto. }
  assert (Hnine : number (prefix env) 99999 = prefix env +:+ "99999") by done.
  destruct (greatest_top None (filter own rows) m) as (r & Hr & Hrn).
  - apply Hown. split; [done|]. split; [done|].
    apply (has_prefix_number _ _ 99999). by rewrite Hnine.
  - intros x Hx. apply Hown in Hx as (Hx & Hs & Hp). rewrite Hmn.
    destruct (Hwf x Hx Hs Hp) as [(k & Hk & ->)| ->].
    + rewrite <- Hnine, compare_numbers by (done || lia).
      rewrite N.compare_lt_iff. lia.
    + by rewrite compare_app.
  - done.
  - rewrite (generate_after env school rows r "99999"); [done|done|congruence| |done].
    simpl. repeat split; by eexists.
Qed.

Lemma generateInvoiceNumber_advances_witness :
  ∃ n, generateInvoiceNumber (Fixtures.at_ 100 "x") "schoolA" InvoiceFixtures.ledger =
         number "INV-2025-" n ∧
       (∀ i, i ∈ InvoiceFixtures.ledger → schoolId i = "schoolA" →
             invoiceNumber i ≠ number "INV-2025-" n) ∧
       (∀ i k, i ∈ InvoiceFixtures.ledger → schoolId i = "schoolA" →
               invoiceNumber i = number "INV-2025-" k → (k < n)%N) ∧
       (n = 1%N ∨ ∃ i, i ∈ InvoiceFixtures.ledger ∧ schoolId i = "schoolA" ∧
                       invoiceNumber i = number "INV-2025-" (n - 1)).
Proof.
  apply (generateInvoiceNumber_advances (Fixtures.at_ 100 "x") "schoolA").
  intros i Hi Hs Hp. unfold InvoiceFixtures.ledger in Hi.
  apply elem_of_cons in Hi as [->|Hi]; [exists 1%N; split; [lia|reflexivity]|].
  apply elem_of_cons in Hi as [->|Hi]; [discriminate Hs|].
  apply elem_of_cons in Hi as [->|Hi]; [exists 2%N; split; [lia|reflexivity]|].
  by apply elem_of_nil in Hi.
Defined.

(** X6. Once a school holds number 99999 of the current year the sequence
    ends: [generateInvoiceNumber] returns [<prefix>100000], and returns it
    again after an invoice with that number has been stored, because
    "100000" sorts below "99999". *)
Theorem generateInvoiceNumber_overflow (env : Env) (school : ObjectId)
  (rows : list t) :
  (∀ i, i ∈ rows → schoolId i = school → has_prefix (prefix env) i = true →
        (∃ k, (k <= 99999)%N ∧ invoiceNumber i = number (prefix env) k) ∨
        invoiceNumber i = prefix env +:+ "100000") →
  (∃ i, i ∈ rows ∧ schoolId i = school ∧ invoiceNumber i = prefix env +:+ "99999") →
  generateInvoiceNumber env school rows = prefix env +:+ "100000" ∧
  ∀ j, schoolId j = school → invoiceNumber j = prefix env +:+ "100000" →
       generateInvoiceNumber env school (rows ++ [j]) = prefix env +:+ "100000".
Proof.
  intros Hwf (m & Hm & Hms & Hmn). split.
  - apply overflow_core; [done|]. by exists m.
  - intros j Hj Hjn. apply overflow_core.
    + intros i Hi Hs Hp. apply elem_of_app in Hi as [Hi|Hi]; [by apply Hwf|].
      apply list_elem_of_singleton in Hi as ->. by right.
    + exists m. split; [|done]. apply elem_of_app. by left.
Qed.

Lemma generateInvoiceNumber_overflow_witness :
  generateInvoiceNumber (Fixtures.at_ 100 "x") "schoolA" InvoiceFixtures.full_ledger =
    "INV-2025-100000" ∧
  ∀ j, schoolId j = "schoolA" → invoiceNumber j = "INV-2025-100000" →
       generateInvoiceNumber (Fixtures.at_ 100 "x") "schoolA"
         (InvoiceFixtures.full_ledger ++ [j]) = "INV-2025-100000".
Proof.
  apply (generateInvoiceNumber_overflow (Fixtures.at_ 100 "x") "schoolA").
  - intros i Hi Hs Hp. unfold InvoiceFixtures.full_ledger in Hi.
    apply elem_of_cons in Hi as [->|Hi];
      [left; exists 99999%N; split; [lia|reflexivity]|].
    apply elem_of_cons in Hi as [->|Hi]; [by right|].
    by apply elem_of_nil in Hi.
  - exists (InvoiceFixtures.bill "i1" "schoolA" "INV-2025-99999").
    split; [by left|done].
Defined.

(** X3. [save()] stores an unpaid invoice that is past its due date as
    'overdue', and [findOverdue] lists the statuses 'unpaid' and
    'partially_paid' only: an invoice the hook has marked overdue is never
    returned by [findOverdue]. *)
Theorem findOverdue_misses_overdue (env : Env) (i row : t) :
  status i = unpaid → (dueDate i < now env)%Z → save_doc env i = Ok row →
  status row = overdue ∧
  ∀ env' school rows, row ∉ findOverdue env' school rows.
Proof.
  intros Hs Hd Hsave.
  assert (status row = overdue) as Hrow.
  { unfold save_doc in Hsave. destruct (invalid_paths i); [|done].
    injection Hsave as <-. simpl.
    unfold pre_save_overdue, isOverdue. rewrite Hs. simpl.
    by rewrite (proj2 (Z.ltb_lt _ _) Hd). }
  split; [done|]. intros env' school rows Hin.
  apply list_elem_of_filter in Hin as [(_ & Hst & _) _].
  rewrite Hrow in Hst. by destruct Hst.
Qed.

Lemma findOverdue_misses_overdue_witness :
  status (InvoiceFixtures.bill "i1" "schoolA" "INV-2025-00001") = unpaid ∧
  status (set_status overdue (InvoiceFixtures.bill "i1" "schoolA" "INV-2025-00001")) =
    overdue ∧
  ∀ env' school rows,
    set_status overdue (InvoiceFixtures.bill "i1" "schoolA" "INV-2025-00001")
      ∉ findOverdue env' school rows.
Proof.
  split; [reflexivity|].
  apply (findOverdue_misses_overdue (Fixtures.at_ 600 "x")
           (InvoiceFixtures.bill "i1" "schoolA" "INV-2025-00001")).
  - reflexivity.
  - simpl. lia.
  - reflexivity.
Defined.

(** *** Closed invoices *)

Section Closed.

Variable Payment_create :
  Env → Payment.init → list Payment.t → Result (Payment.t * list Payment.t).

Lemma kept_refl s : this s = stored s → kept s s.
Proof. intros H. by repeat split. Qed.

Lemma save_closed env s :
  this s = stored s → closed (stored s) → kept s (save env s).2.
Proof.
  intros Hthis Hc. unfold save, save_doc.
  destruct (invalid_paths (this s)); simpl; [|by apply kept_refl].
  rewrite Hthis. unfold kept. simpl.
  assert (pre_save_overdue env (stored s) = stored s) as ->.
  { unfold pre_save_overdue.
    destruct Hc as [Hc|[Hc _]]; rewrite Hc; by rewrite andb_false_r. }
  done.
Qed.

Lemma set_status_same i : set_status (status i) i = i.
Proof. by destruct i. Qed.

Lemma step_closed s m :
  this s = stored s → closed (stored s) → kept s (step Payment_create s m).
Proof.
  intros Hthis Hc. destruct m as [env a d|env|env]; simpl.
  - unfold recordPayment. rewrite Hthis.
    destruct Hc as [Hc|[Hc _]]; rewrite Hc; simpl; by apply kept_refl.
  - unfold cancel. rewrite Hthis.
    destruct (0 <? amountPaid (stored s))%Z eqn:Hp; simpl; [by apply kept_refl|].
    destruct Hc as [Hc|[_ Hc]]; [|apply Z.ltb_ge in Hp; lia].
    rewrite <- Hc, set_status_same.
    pose proof (save_closed env
                  {| this := stored s; stored := stored s; payments := payments s |}
                  eq_refl (or_introl Hc)) as Hk.
    exact Hk.
  - by apply save_closed.
Qed.

Lemma kept_closed s s' : closed (stored s) → kept s s' → closed (stored s').
Proof.
  intros Hc (_ & Hs & Hp & _). unfold closed. rewrite Hs, Hp. done.
Qed.

Lemma run_closed ms s :
  this s = stored s → closed (stored s) → kept s (run Payment_create ms s).
Proof.
  revert s. induction ms as [|m ms IH]; intros s Hthis Hc; [by apply kept_refl|].
  simpl. pose proof (step_closed s m Hthis Hc) as Hk.
  pose proof (kept_closed _ _ Hc Hk) as Hc'.
  destruct Hk as (Ht & Hs & Hp & Ha & Hd & Hps).
  destruct (IH _ Ht Hc') as (Ht' & Hs' & Hp' & Ha' & Hd' & Hps').
  unfold kept. by rewrite Hs', Hp', Ha', Hd', Hps'.
Qed.

End Closed.

(** X1. A cancelled invoice, and a paid invoice with money received, is
    final: no sequence of payments, cancellations and saves changes the
    status, the amounts or the paid date of its row, and none creates a
    Payment. *)
Theorem closed_invoice_is_final
  (Payment_create : Env → Payment.init → list Payment.t →
                    Result (Payment.t * list Payment.t))
  (ms : list Mutation) (row : t) (ps : list Payment.t) :
  closed row →
  let s' := run Payment_create ms (loaded row ps) in
  status (stored s') = status row ∧
  amountPaid (stored s') = amountPaid row ∧
  amount (stored s') = amount row ∧
  paidDate (stored s') = paidDate row ∧
  payments s' = ps.
Proof.
  intros Hc.
  destruct (run_closed Payment_create ms (loaded row ps) eq_refl Hc)
    as (_ & H1 & H2 & H3 & H4 & H5).
  done.
Qed.

Lemma closed_invoice_is_final_witness :
  closed Fixtures.tuition_paid ∧
  let s' := run (Fixtures.create_recorded "u1")
              [ApplyPayment (Fixtures.at_ 300 "p1") (-400) Fixtures.cash;
               Cancel (Fixtures.at_ 400 "x");
               Save (Fixtures.at_ 600 "x")]
              (loaded Fixtures.tuition_paid []) in
  status (stored s') = paid ∧ amountPaid (stored s') = 1000%Z ∧
  amount (stored s') = 1000%Z ∧ paidDate (stored s') = Some 200%Z ∧
  payments s' = [].
Proof.
  assert (closed Fixtures.tuition_paid) as Hc by (right; split; [done|simpl; lia]).
  split; [exact Hc|].
  exact (closed_invoice_is_final (Fixtures.create_recorded "u1") _ _ [] Hc).
Defined.

(** X2. [cancel()] refuses an invoice on which money has been received and
    leaves it as it was; an invoice with nothing paid is stored as
    'cancelled' with its full balance, whatever its status was, and from
    then on every payment is refused with "Cannot pay cancelled invoice"
    before a Payment is created. *)
Theorem cancel_closes
  (Payment_create : Env → Payment.init → list Payment.t →
                    Result (Payment.t * list Payment.t))
  (env : Env) (s : State) :
  ((0 < amountPaid (this s))%Z →
     cancel env s = (Err (Error "Cannot cancel invoice with payments"), s)) ∧
  (amountPaid (this s) = 0%Z → (0 <= amount (this s))%Z →
     ∃ row, cancel env s = (Ok (), loaded row (payments s)) ∧
            status row = cancelled ∧ balance row = amount (this s) ∧
            amountPaid row = 0%Z ∧ amount row = amount (this s) ∧
            ∀ env' a d,
              recordPayment Payment_create env' a d (loaded row (payments s)) =
                (Err (Error "Cannot pay cancelled invoice"),
                 loaded row (payments s))).
Proof.
  split.
  - intros Hp. unfold cancel. by rewrite (proj2 (Z.ltb_lt _ _) Hp).
  - intros Hp Ha. unfold cancel. rewrite Hp. simpl.
    unfold save, save_doc, invalid_paths. simpl. rewrite Hp.
    rewrite (proj2 (Z.ltb_ge _ _) Ha). simpl.
    eexists. split; [reflexivity|].
    assert (Hst : status (pre_save_balance
                            (pre_save_overdue env (set_status cancelled (this s)))) =
                  cancelled) by done.
    repeat split; try done.
    simpl. rewrite Hp. lia.
Qed.

End InvoiceStaticsProps.

Module EnrollmentStaticsProps.

Import Enrollment EnrollmentStatics EnrollmentProps.

Local Open Scope string_scope.
Local Open Scope list_scope.

(** *** The ledger only grows *)

Lemma extends_refl rows : extends rows rows.
Proof. intros k r Hk. by exists r. Qed.

Lemma extends_trans a b c : extends a b → extends b c → extends a c.
Proof.
  intros Hab Hbc k r Hk.
  destruct (Hab k r Hk) as (r1 & H1 & I1 & S1).
  destruct (Hbc k r1 H1) as (r2 & H2 & I2 & S2).
  exists r2. split_and!; [done|congruence|auto].
Qed.

Lemma extends_app rows l : extends rows (rows ++ l).
Proof.
  intros k r Hk. exists r. split_and!; [|done..].
  by apply lookup_app_l_Some.
Qed.

Lemma extends_insert rows k row d :
  rows !! k = Some row → identity d = identity row →
  (status row ≠ active → status d ≠ active) →
  extends rows (<[k := d]> rows).
Proof.
  intros Hk Hi Hs j r Hj. destruct (decide (j = k)) as [->|Hne].
  - exists d. assert (r = row) as -> by congruence. split_and!; [|done..].
    apply list_lookup_insert_eq. by eapply lookup_lt_Some.
  - exists r. by rewrite list_lookup_insert_ne.
Qed.

Lemma pre_save_date_identity env m1 m2 e :
  identity (pre_save_date env m1 m2 e) = identity e ∧
  status (pre_save_date env m1 m2 e) = status e.
Proof. unfold pre_save_date. by case_match. Qed.

Lemma findById_findRow id rows this :
  findById id rows = Some this → ∃ k, findRow (_id this) rows = Some (k, this).
Proof.
  unfold findById, findRow.
  destruct (list_find _ rows) as [[k r]|] eqn:H; [|done].
  intros [= ->]. exists k.
  pose proof H as (_ & Hid & _)%list_find_Some. by rewrite Hid.
Qed.

Lemma save_extends env this db d db' k row :
  findRow (_id this) (enrollments db) = Some (k, row) →
  identity this = identity row → status this ≠ active →
  save env this db = Ok (d, db') →
  extends (enrollments db) (enrollments db').
Proof.
  intros Hrow Hi Hs Hsave.
  apply save_inv in Hsave as (k' & row' & m1 & m2 & Hrow' & -> & ->).
  rewrite Hrow in Hrow'. injection Hrow' as <- <-.
  apply list_find_Some in Hrow as (Hk & _). simpl.
  destruct (pre_save_date_identity env m1 m2 this) as [Ei Es].
  apply (extends_insert _ _ row); [done|congruence|]. by rewrite Es.
Qed.

Lemma create_extends env i db e db' :
  create env i db = Ok (e, db') → extends (enrollments db) (enrollments db').
Proof. intros (_ & -> & _)%create_inv. apply extends_app. Qed.

Lemma transferTo_extends env c reason this db k :
  findRow (_id this) (enrollments db) = Some (k, this) →
  extends (enrollments db) (enrollments (transferTo env c reason this db).2).
Proof.
  intros Hrow. unfold transferTo.
  destruct (save _ _ _) as [[this2 db1]|] eqn:Hs; [|apply extends_refl].
  assert (H1 : extends (enrollments db) (enrollments db1)).
  { by eapply (save_extends env _ db _ _ k this); [| | |exact Hs]. }
  destruct (SchoolClass.findById _ _); [|done].
  destruct (create _ _ _) as [[n db2]|] eqn:Hcr; [|done].
  simpl. eapply extends_trans; [exact H1|]. by eapply create_extends.
Qed.

Lemma complete_extends env g n this db k :
  findRow (_id this) (enrollments db) = Some (k, this) →
  extends (enrollments db) (enrollments (complete env g n this db).2).
Proof.
  intros Hrow. unfold complete.
  destruct (save _ _ _) as [[this3 db1]|] eqn:Hs; [|apply extends_refl].
  simpl. eapply (save_extends env _ db _ _ k this); [| | |exact Hs].
  - by destruct n as [n|]; [case_bool_decide|].
  - by destruct n as [n|]; [case_bool_decide|].
  - by destruct n as [n|]; [case_bool_decide|].
Qed.

Lemma withdraw_extends env reason this db k :
  findRow (_id this) (enrollments db) = Some (k, this) →
  extends (enrollments db) (enrollments (withdraw env reason this db).2).
Proof.
  intros Hrow. unfold withdraw.
  destruct (save _ _ _) as [[this3 db1]|] eqn:Hs; [|apply extends_refl].
  simpl. by eapply (save_extends env _ db _ _ k this); [| | |exact Hs].
Qed.

Lemma withdrawAll_extends env student rows :
  extends rows (withdrawAll env student rows).
Proof.
  intros k r Hk. unfold withdrawAll. rewrite list_lookup_fmap, Hk. simpl.
  eexists. split; [done|]. case_bool_decide; [done|done].
Qed.

Lemma step_extends db op : extends (enrollments db) (enrollments (step db op)).
Proof.
  destruct op; simpl; unfold on_doc.
  - destruct (create _ _ _) as [[e db']|] eqn:Hc; [|apply extends_refl].
    by eapply create_extends.
  - destruct (findById _ _) as [this|] eqn:Hf; [|apply extends_refl].
    apply findById_findRow in Hf as [k Hk]. by eapply transferTo_extends.
  - destruct (findById _ _) as [this|] eqn:Hf; [|apply extends_refl].
    apply findById_findRow in Hf as [k Hk]. by eapply complete_extends.
  - destruct (findById _ _) as [this|] eqn:Hf; [|apply extends_refl].
    apply findById_findRow in Hf as [k Hk]. by eapply withdraw_extends.
  - apply withdrawAll_extends.
Qed.

Lemma run_extends ops db : extends (enrollments db) (enrollments (run ops db)).
Proof.
  revert db. induction ops as [|op ops IH]; intros db; [apply extends_refl|].
  simpl. eapply extends_trans; [apply step_extends|apply IH].
Qed.

(** X7. The membership ledger keeps its history: whatever sequence of
    creations, transfers, completions, withdrawals and bulk withdrawals
    runs, every row stays at its place with the same id, student, class,
    academic year and enrollment date. *)
Theorem membership_history_is_kept (ops : list Op) (db : Db) (k : nat) (r : t) :
  enrollments db !! k = Some r →
  ∃ r', enrollments (run ops db) !! k = Some r' ∧
        _id r' = _id r ∧ studentId r' = studentId r ∧ classId r' = classId r ∧
        academicYear r' = academicYear r ∧ enrollmentDate r' = enrollmentDate r.
Proof.
  intros Hk. destruct (run_extends ops db k r Hk) as (r' & Hr & Hi & _).
  exists r'. unfold identity in Hi. injection Hi as -> -> -> -> ->. done.
Qed.

Lemma membership_history_is_kept_witness :
  ∃ r', enrollments
          (run [TransferTo (Fixtures.at_ 20%Z "e2") "e1" "c2" "moved";
                Withdraw (Fixtures.at_ 30%Z "x") "e1" "left";
                Create (Fixtures.at_ 40%Z "e3") MembershipFixtures.john_again]
             (MembershipFixtures.school [MembershipFixtures.john])) !! 0%nat = Some r' ∧
        _id r' = "e1" ∧ studentId r' = "s1" ∧ classId r' = "c1" ∧
        academicYear r' = "2025" ∧ enrollmentDate r' = 10%Z.
Proof.
  apply (membership_history_is_kept _
           (MembershipFixtures.school [MembershipFixtures.john]) 0
           MembershipFixtures.john).
  reflexivity.
Defined.

(** X8. No method reactivates a membership: a row that is not 'active'
    (completed, transferred, withdrawn or suspended) is not 'active' after
    any sequence of creations, transfers, completions, withdrawals and bulk
    withdrawals. *)
Theorem inactive_membership_stays_inactive (ops : list Op) (db : Db) (k : nat)
  (r : t) :
  enrollments db !! k = Some r → status r ≠ active →
  ∃ r', enrollments (run ops db) !! k = Some r' ∧ _id r' = _id r ∧
        status r' ≠ active.
Proof.
  intros Hk Hs. destruct (run_extends ops db k r Hk) as (r' & Hr & Hi & Hst).
  exists r'. unfold identity in Hi. injection Hi as -> _ _ _ _. auto.
Qed.

Lemma inactive_membership_stays_inactive_witness :
  status MembershipFixtures.john_moved ≠ active ∧
  ∃ r', enrollments
          (run [Create (Fixtures.at_ 40%Z "e3") MembershipFixtures.john_again;
                TransferTo (Fixtures.at_ 50%Z "e4") "e1" "c1" "back";
                Complete (Fixtures.at_ 60%Z "x") "e1" (Some "A") None]
             (MembershipFixtures.school [MembershipFixtures.john_moved])) !! 0%nat =
          Some r' ∧ _id r' = "e1" ∧ status r' ≠ active.
Proof.
  assert (status MembershipFixtures.john_moved ≠ active) as Hs by done.
  split; [exact Hs|].
  apply (inactive_membership_stays_inactive _
           (MembershipFixtures.school [MembershipFixtures.john_moved]) 0
           MembershipFixtures.john_moved); [reflexivity|exact Hs].
Defined.

(** *** Leaving a class *)

(** Saving a document that differs from its row in status, date, reason,
    grade and notes only, and is not active, stores it as it is. *)
Lemma save_inactive env this row db k :
  findRow (_id this) (enrollments db) = Some (k, row) →
  academicYear this ≠ "" → classId this = classId row →
  status this ≠ active → statusChangeDate this = Some (now env) →
  save env this db = Ok (this, with_enrollments (<[k := this]> (enrollments db)) db).
Proof.
  intros Hrow Hy Hc Hs Hd. unfold save. rewrite Hrow.
  unfold invalid_paths. rewrite (bool_decide_eq_false_2 _ Hy).
  rewrite (bool_decide_eq_false_2 (classId this ≠ classId row)) by (intros H; by apply H).
  unfold pre_save_class.
  assert (Hdate : ∀ m1 m2, pre_save_date env m1 m2 this = this).
  { intros m1 m2. unfold pre_save_date. destruct (m1 && negb m2); [|done].
    destruct this. simpl in *. by rewrite Hd. }
  rewrite Hdate. by rewrite not_active_no_conflict.
Qed.

Lemma withdraw_stored env reason this db k :
  findRow (_id this) (enrollments db) = Some (k, this) → academicYear this ≠ "" →
  withdraw env reason this db =
    (Ok (withdrawn_at env reason this), withdrawn_at env reason this,
     with_enrollments (<[k := withdrawn_at env reason this]> (enrollments db)) db).
Proof.
  intros Hrow Hy. unfold withdraw. fold (withdrawn_at env reason this).
  by rewrite (save_inactive env (withdrawn_at env reason this) this db k).
Qed.

Lemma complete_stored env grade note this db k :
  findRow (_id this) (enrollments db) = Some (k, this) → academicYear this ≠ "" →
  complete env grade note this db =
    (Ok (completed_at env grade note this), completed_at env grade note this,
     with_enrollments (<[k := completed_at env grade note this]> (enrollments db)) db).
Proof.
  intros Hrow Hy. unfold complete. fold (completed_at env grade note this).
  rewrite (save_inactive env (completed_at env grade note this) this db k); [done|..];
    unfold completed_at; by destruct note as [n|]; [case_bool_decide|].
Qed.

(** X9. [withdraw] and [complete] do not look at the status of the
    membership: for a stored membership in any status they succeed and
    rewrite that one row, as withdrawn with the reason, or as completed with
    the grade (and the notes when some are given), stamped with the time of
    the call. *)
Theorem withdraw_and_complete_ignore_status (env : Env) (this : t) (db : Db)
  (k : nat) :
  findRow (_id this) (enrollments db) = Some (k, this) → academicYear this ≠ "" →
  (∀ reason,
     withdraw env reason this db =
       (Ok (withdrawn_at env reason this), withdrawn_at env reason this,
        with_enrollments (<[k := withdrawn_at env reason this]> (enrollments db)) db) ∧
     status (withdrawn_at env reason this) = withdrawn ∧
     statusChangeReason (withdrawn_at env reason this) = Some reason ∧
     statusChangeDate (withdrawn_at env reason this) = Some (now env)) ∧
  (∀ grade note,
     complete env grade note this db =
       (Ok (completed_at env grade note this), completed_at env grade note this,
        with_enrollments
          (<[k := completed_at env grade note this]> (enrollments db)) db) ∧
     status (completed_at env grade note this) = completed ∧
     finalGrade (completed_at env grade note this) = grade ∧
     statusChangeDate (completed_at env grade note this) = Some (now env)).
Proof.
  intros Hrow Hy. split.
  - intros reason. split; [by apply withdraw_stored|done].
  - intros grade note. split; [by apply complete_stored|].
    unfold completed_at. by destruct note as [n|]; [case_bool_decide|].
Qed.

Lemma withdraw_and_complete_ignore_status_witness :
  status MembershipFixtures.john_moved = transferred ∧
  (withdraw (Fixtures.at_ 30%Z "x") "left" MembershipFixtures.john_moved
     (MembershipFixtures.school [MembershipFixtures.john_moved])).1.1 =
    Ok (withdrawn_at (Fixtures.at_ 30%Z "x") "left" MembershipFixtures.john_moved) ∧
  (complete (Fixtures.at_ 30%Z "x") (Some "A") None MembershipFixtures.john_moved
     (MembershipFixtures.school [MembershipFixtures.john_moved])).1.1 =
    Ok (completed_at (Fixtures.at_ 30%Z "x") (Some "A") None
          MembershipFixtures.john_moved).
Proof.
  split; [reflexivity|].
  destruct (withdraw_and_complete_ignore_status (Fixtures.at_ 30%Z "x")
              MembershipFixtures.john_moved
              (MembershipFixtures.school [MembershipFixtures.john_moved]) 0)
    as [Hw Hc]; [reflexivity|done|].
  destruct (Hw "left") as [-> _]. destruct (Hc (Some "A") None) as [-> _].
  done.
Defined.

(** X10. A withdrawal frees the place: while the membership is active,
    enrolling the student in the same class and year again is rejected; once
    it has been withdrawn the same enrollment succeeds and appends a new
    active membership, the withdrawn row staying in the ledger. *)
Theorem withdrawn_student_can_enrol_again (env env' : Env) (reason : string)
  (this : t) (db : Db) (k : nat) (cl : SchoolClass.t) :
  findRow (_id this) (enrollments db) = Some (k, this) →
  status this = active → academicYear this ≠ "" →
  unique_active (enrollments db) →
  SchoolClass.findById (classId this) (classes db) = Some cl →
  SchoolClass.academicYear cl = academicYear this →
  (∀ r, r ∈ enrollments db → _id r ≠ newObjectId env') →
  let left := withdrawn_at env reason this in
  let db1 := with_enrollments (<[k := left]> (enrollments db)) db in
  (∃ err, create env' (again this) db = Err err) ∧
  withdraw env reason this db = (Ok left, left, db1) ∧
  ∃ e, create env' (again this) db1 =
         Ok (e, with_enrollments (<[k := left]> (enrollments db) ++ [e]) db) ∧
       status e = active ∧ studentId e = studentId this ∧
       classId e = classId this ∧ academicYear e = academicYear this.
Proof.
  intros Hrow Hs Hy Hu Hcl Hcy Hfresh left db1.
  pose proof Hrow as (Hk & _ & _)%list_find_Some.
  split; [|split].
  - apply (create_active_duplicate env' (again this) db this); try done.
    by eapply list_elem_of_lookup_2.
  - by apply withdraw_stored.
  - rewrite (create_Ok env' (again this) db1 cl); try done.
    + eexists. split; [reflexivity|].
      match goal with |- context [pre_save_date env' ?m1 ?m2 ?e] =>
        destruct (pre_save_date_slot env' m1 m2 e) as (_ & -> & -> & -> & ->) end.
      done.
    + simpl. by rewrite Hcy.
    + by rewrite Hcy.
    + simpl. intros r [j Hj]%list_elem_of_lookup_1.
      apply list_lookup_insert_Some in Hj as [(-> & <- & _)|[Hjk Hj]].
      * apply (Hfresh this). by eapply list_elem_of_lookup_2.
      * apply (Hfresh r). by eapply list_elem_of_lookup_2.
    + simpl. apply index_conflict_false.
      intros r [j Hj]%list_elem_of_lookup_1 (_ & Sr & Hst & Hc & Hyr).
      match type of Hst with context [pre_save_date env' ?m1 ?m2 ?e] =>
        destruct (pre_save_date_slot env' m1 m2 e) as (_ & _ & E1 & E2 & E3) end.
      rewrite E1 in Hst. rewrite E2 in Hc. rewrite E3 in Hyr. simpl in Hst, Hc, Hyr.
      apply list_lookup_insert_Some in Hj as [(-> & <- & _)|[Hjk Hj]]; [done|].
      apply Hjk. apply (Hu k j this r); try done; by split_and!.
Qed.

Lemma withdrawn_student_can_enrol_again_witness :
  let left := withdrawn_at (Fixtures.at_ 30%Z "x") "left" MembershipFixtures.john in
  (∃ err, create (Fixtures.at_ 40%Z "e2") (again MembershipFixtures.john)
            (MembershipFixtures.school [MembershipFixtures.john]) = Err err) ∧
  ∃ e, create (Fixtures.at_ 40%Z "e2") (again MembershipFixtures.john)
         (MembershipFixtures.school [left]) =
         Ok (e, MembershipFixtures.school [left; e]) ∧
       status e = active.
Proof.
  intros left.
  destruct (withdrawn_student_can_enrol_again (Fixtures.at_ 30%Z "x")
              (Fixtures.at_ 40%Z "e2") "left" MembershipFixtures.john
              (MembershipFixtures.school [MembershipFixtures.john]) 0
              MembershipFixtures.grade1)
    as (Hrej & _ & e & He & Hst & _).
  - reflexivity.
  - reflexivity.
  - done.
  - intros [|j] [|j'] a b Hj Hj' _ _ _; try done; by destruct j || by destruct j'.
  - reflexivity.
  - reflexivity.
  - intros r ->%list_elem_of_singleton. done.
  - split; [exact Hrej|]. exists e. split; [exact He|exact Hst].
Defined.

(** X11. [Enrollment.create] never fills in the academic year: the schema
    requires the path and is checked before the hook that would copy it
    from the class, so a literal without academic year is rejected with a
    ValidationError whether or not the class exists, and a membership that
    has been created carries the year it was given, which is the year of
    its class. *)
Theorem create_never_fills_academicYear (env : Env) (i : init) (db : Db) :
  (i_academicYear i = None ∨ i_academicYear i = Some "" →
   create env i db = Err (ValidationError ["academicYear"])) ∧
  (∀ e db', create env i db = Ok (e, db') →
     i_academicYear i = Some (academicYear e) ∧ academicYear e ≠ "" ∧
     ∃ c, SchoolClass.findById (i_classId i) (classes db) = Some c ∧
          SchoolClass.academicYear c = academicYear e).
Proof.
  split.
  - intros H. unfold create, invalid_paths. simpl.
    by destruct H as [-> | ->].
  - intros e db' H.
    assert (Hne : academicYear (new env i) ≠ "").
    { unfold create in H. destruct (invalid_paths (new env i)) eqn:Hv; [|done].
      by apply invalid_paths_nil. }
    apply create_inv in H as (-> & _ & c & Hc & Hy).
    match goal with |- context [pre_save_date env ?m1 ?m2 ?x] =>
      destruct (pre_save_date_slot env m1 m2 x) as (_ & _ & _ & _ & ->) end.
    simpl in *. destruct (i_academicYear i) as [y|]; [|done]. simpl in *.
    split_and!; [done|done|]. exists c. by split.
Qed.

(** X12. The capacity of a class is not enforced by the ledger:
    [Enrollment.create] does not consult [isFull], so an enrollment into a
    class that is full succeeds and leaves more active memberships than the
    capacity. *)
Theorem create_ignores_capacity (env : Env) (i : init) (db : Db)
  (cl : SchoolClass.t) (capacity : Z) :
  SchoolClass.findById (i_classId i) (classes db) = Some cl →
  i_academicYear i = Some (SchoolClass.academicYear cl) →
  SchoolClass.academicYear cl ≠ "" →
  default active (i_status i) = active →
  (∀ r, r ∈ enrollments db → _id r ≠ newObjectId env) →
  (∀ r, r ∈ enrollments db →
        ¬ (status r = active ∧ studentId r = i_studentId i ∧
           classId r = i_classId i ∧
           academicYear r = SchoolClass.academicYear cl)) →
  isFull capacity (i_classId i) (enrollments db) = true →
  ∃ e db', create env i db = Ok (e, db') ∧ status e = active ∧
           classId e = i_classId i ∧
           (capacity < Z.of_nat (length (findActiveByClass (i_classId i)
                                           (enrollments db'))))%Z.
Proof.
  intros Hcl Hy Hne Hst Hfresh Hfree Hfull.
  set (e := pre_save_date env (bool_decide (is_Some (i_status i))) false (new env i)).
  destruct (pre_save_date_slot env (bool_decide (is_Some (i_status i))) false
              (new env i)) as (_ & E0 & E1 & E2 & E3).
  fold e in E0, E1, E2, E3. simpl in E0, E1, E2, E3.
  exists e, (with_enrollments (enrollments db ++ [e]) db).
  split; [|split; [congruence|split; [done|]]].
  - apply (create_Ok env i db cl); try done.
    apply index_conflict_false. fold e.
    intros r Hr (_ & Sr & Hs & Hc & Hyr).
    apply (Hfree r Hr). rewrite E1 in Hs. rewrite E2 in Hc. rewrite E3, Hy in Hyr.
    simpl in Hyr. by split_and!.
  - simpl. unfold findActiveByClass. rewrite filter_app, length_app.
    rewrite filter_cons, decide_True by (split; congruence).
    apply bool_decide_eq_true in Hfull. unfold findActiveByClass in Hfull.
    simpl. lia.
Qed.

Lemma create_ignores_capacity_witness :
  isFull 1 "c1" [MembershipFixtures.john] = true ∧
  ∃ e db', create (Fixtures.at_ 40%Z "e2") EnrollmentFixtures.s2_joins
             (MembershipFixtures.school [MembershipFixtures.john]) = Ok (e, db') ∧
           status e = active ∧ classId e = "c1" ∧
           (1 < Z.of_nat (length (findActiveByClass "c1" (enrollments db'))))%Z.
Proof.
  split; [reflexivity|].
  apply (create_ignores_capacity (Fixtures.at_ 40%Z "e2")
           EnrollmentFixtures.s2_joins
           (MembershipFixtures.school [MembershipFixtures.john])
           MembershipFixtures.grade1 1).
  - reflexivity.
  - reflexivity.
  - done.
  - reflexivity.
  - intros r ->%list_elem_of_singleton. done.
  - intros r ->%list_elem_of_singleton (_ & H & _). done.
  - reflexivity.
Defined.

(** *** History of a student *)

Lemma newer_first_total : Total newer_first.
Proof.
  intros a b. unfold newer_first.
  rewrite (String.compare_antisym (academicYear b) (academicYear a)).
  destruct (String.compare (academicYear a) (academicYear b)); simpl; [lia|by right|by left].
Qed.

(** X13. [getStudentHistory] returns every membership of the student, each
    once, later academic year first and, within a year, later enrollment
    first; and a membership that was in the ledger is still listed after
    any sequence of creations, transfers, completions, withdrawals and bulk
    withdrawals. *)
Theorem getStudentHistory_complete (student : ObjectId) (rows : list t) :
  getStudentHistory student rows ≡ₚ filter (λ e, studentId e = student) rows ∧
  Sorted newer_first (getStudentHistory student rows) ∧
  ∀ ops cs k r,
    rows !! k = Some r → studentId r = student →
    ∃ r', r' ∈ getStudentHistory student
                 (enrollments (run ops {| classes := cs; enrollments := rows |})) ∧
          _id r' = _id r ∧ classId r' = classId r ∧
          academicYear r' = academicYear r ∧
          enrollmentDate r' = enrollmentDate r.
Proof.
  split; [apply merge_sort_Permutation|].
  split; [apply Sorted_merge_sort, newer_first_total|].
  intros ops cs k r Hk Hs.
  destruct (run_extends ops {| classes := cs; enrollments := rows |} k r Hk)
    as (r' & Hr & Hi & _).
  unfold identity in Hi. injection Hi as E1 E2 E3 E4 E5.
  exists r'. split; [|done].
  unfold getStudentHistory. rewrite merge_sort_Permutation.
  apply list_elem_of_filter. split; [congruence|].
  by eapply list_elem_of_lookup_2.
Qed.

End EnrollmentStaticsProps.

Module AttendanceReadsProps.

Import Attendance AttendanceService AttendanceStatics BulkWriteProps.

Local Open Scope string_scope.
Local Open Scope list_scope.

Section Rows.

Variable generateId : list Doc → ObjectId.

(** What an operation leaves: a row its filter finds, holding the fields it
    sets. *)
Lemma written_own o rows :
  keyless o →
  ∃ k d, list_find (matches o) (written generateId rows o) = Some (k, d) ∧
         set_fields o ⊆ d.
Proof.
  intros Hk. destruct (list_find (matches o) rows) as [[j x]|] eqn:Hj.
  - rewrite (written_present generateId o rows j x Hj).
    pose proof Hj as (Hx & _)%list_find_Some.
    rewrite (list_find_insert_keep (matches o) rows j x _ Hx)
      by by apply matches_union.
    rewrite Hj. cbn. rewrite decide_True by done.
    eexists _, _. split; [done|]. apply map_union_subseteq_l.
  - rewrite (written_absent generateId o rows Hj).
    exists (length rows), (upserted generateId o rows). split.
    + apply list_find_app_Some. right. split; [done|]. split; [done|].
      rewrite Nat.sub_diag. cbn. rewrite decide_True; [done|].
      by apply matches_upserted.
    + apply map_union_subseteq_l.
Qed.

(** An operation with another key leaves that row alone. *)
Lemma written_other o o' rows k d :
  ¬ same_key o o' → keyless o' →
  list_find (matches o) rows = Some (k, d) →
  list_find (matches o) (written generateId rows o') = Some (k, d).
Proof.
  intros Hne Hk Hfind.
  destruct (list_find (matches o') rows) as [[j x]|] eqn:Hj.
  - rewrite (written_present generateId o' rows j x Hj).
    pose proof Hj as (Hx & Hmx & _)%list_find_Some.
    pose proof Hfind as (Hd & Hmd & _)%list_find_Some.
    rewrite (list_find_insert_keep (matches o) rows j x _ Hx)
      by by apply matches_union.
    rewrite Hfind. cbn. rewrite decide_False; [done|].
    intros ->. apply Hne. assert (d = x) as -> by congruence.
    destruct Hmd as [H1 H2], Hmx as [H3 H4]. split; congruence.
  - rewrite (written_absent generateId o' rows Hj). by apply list_find_app_l.
Qed.

(** The last operation on a key decides the row of that key. *)
Lemma run_last rows l1 o l2 :
  Forall keyless (l1 ++ o :: l2) → Forall (λ o', ¬ same_key o o') l2 →
  ∃ k d, list_find (matches o)
           (foldl (written generateId) rows (l1 ++ o :: l2)) = Some (k, d) ∧
         set_fields o ⊆ d.
Proof.
  intros Hk Hne. apply Forall_app in Hk as [_ Hk].
  apply Forall_cons in Hk as [Ho Hk].
  rewrite foldl_app. simpl.
  destruct (written_own o (foldl (written generateId) rows l1) Ho)
    as (k & d & Hfind & Hsub).
  exists k, d. split; [|done].
  generalize dependent (written generateId (foldl (written generateId) rows l1) o).
  induction l2 as [|o' l2 IH]; intros t Hfind; [done|].
  apply Forall_cons in Hk as [Hk' Hk]. apply Forall_cons in Hne as [Hn' Hne].
  simpl. apply IH; [done|done|]. by apply written_other.
Qed.

End Rows.

Lemma NoDup_fmap_eq {A B} (f : A → B) (l : list A) x y :
  NoDup (f <$> l) → x ∈ l → y ∈ l → f x = f y → x = y.
Proof.
  induction l as [|a l IH]; intros Hnd Hx Hy Hf; [by apply elem_of_nil in Hx|].
  rewrite fmap_cons in Hnd. apply NoDup_cons in Hnd as [Ha Hnd].
  apply elem_of_cons in Hx as [->|Hx]; apply elem_of_cons in Hy as [->|Hy].
  - done.
  - exfalso. apply Ha. rewrite Hf. by apply list_elem_of_fmap_2.
  - exfalso. apply Ha. rewrite <- Hf. by apply list_elem_of_fmap_2.
  - by apply IH.
Qed.

(** The last record of a student in a batch. *)
Lemma last_record (records : list Entry) r :
  r ∈ records →
  ∃ l1 r' l2, records = l1 ++ r' :: l2 ∧ studentId r' = studentId r ∧
              ∀ x, x ∈ l2 → studentId x ≠ studentId r.
Proof.
  induction records as [|a records IH] using rev_ind; intros Hr.
  { by apply elem_of_nil in Hr. }
  destruct (decide (studentId a = studentId r)) as [Ha|Ha].
  - exists records, a, []. split_and!; [done|done|].
    intros x Hx. by apply elem_of_nil in Hx.
  - apply elem_of_app in Hr as [Hr|Hr].
    + destruct (IH Hr) as (l1 & r' & l2 & -> & Hs & Hl2).
      exists l1, r', (l2 ++ [a]). split_and!; [by rewrite <- app_assoc|done|].
      intros x [Hx|Hx]%elem_of_app; [by apply Hl2|].
      apply list_elem_of_singleton in Hx as ->. done.
    + apply list_elem_of_singleton in Hr as ->. done.
Qed.

Section Written.

Variable tz : Z.
Variable generateId : list Doc → ObjectId.

(** The rows of a batch the static method has written. *)
Lemma accepted_rows env classId date records recordedBy classes rows result rows' :
  Attendance.markClassAttendance generateId tz env classId date records recordedBy
    classes rows = (Ok result, rows') →
  ∃ classDoc,
    SchoolClass.findById classId classes = Some classDoc ∧
    rows' =
      foldl (written generateId) rows
        (timestamps (now env) <$>
           (operation classId (startOfDay tz date) recordedBy classDoc <$> records)).
Proof.
  intros H.
  pose proof (markClassAttendance_rows generateId tz env classId date records
                recordedBy classes rows) as Hrows.
  rewrite H in Hrows. simpl in Hrows.
  unfold Attendance.markClassAttendance in H.
  destruct (SchoolClass.findById classId classes) as [classDoc|]; [|done].
  by exists classDoc.
Qed.

(** The row of the last record of a student in a batch that has been
    written. *)
Lemma stored_record env classId date l1 r l2 recordedBy classes rows result rows' :
  Attendance.markClassAttendance generateId tz env classId date (l1 ++ r :: l2)
    recordedBy classes rows = (Ok result, rows') →
  (∀ x, x ∈ l2 → studentId x ≠ studentId r) →
  ∃ d : Doc, d ∈ rows' ∧
       d !! "studentId" = Some (VId (studentId r)) ∧
       d !! "date" = Some (VDate (startOfDay tz date)) ∧
       d !! "classId" = Some (VId classId) ∧
       d !! "status" = Some (VStr (status r)) ∧
       d !! "notes" = Some (or_empty (notes r)) ∧
       d !! "arrivalTime" = Some (or_null (arrivalTime r)) ∧
       d !! "recordedBy" = Some (VId recordedBy) ∧
       d !! "updatedAt" = Some (VDate (now env)).
Proof.
  intros H Hlast.
  destruct (accepted_rows _ _ _ _ _ _ _ _ _ H) as (classDoc & _ & ->).
  set (op := λ x, timestamps (now env)
                    (operation classId (startOfDay tz date) recordedBy classDoc x)).
  rewrite <- list_fmap_compose. change (_ ∘ _) with op.
  rewrite fmap_app, fmap_cons.
  destruct (run_last generateId rows (op <$> l1) (op r) (op <$> l2))
    as (k & d & Hfind & Hsub).
  - rewrite <- fmap_cons, <- fmap_app. unfold op.
    rewrite (list_fmap_compose
               (operation classId (startOfDay tz date) recordedBy classDoc)
               (timestamps (now env))).
    by destruct (operations_ok (now env) classId (startOfDay tz date) recordedBy
                   classDoc (l1 ++ r :: l2)).
  - apply Forall_fmap, Forall_forall. intros x Hx [Hs _]. by apply (Hlast x).
  - apply list_find_Some in Hfind as (Hd & [Hm1 Hm2] & _).
    exists d. split; [by eapply list_elem_of_lookup_2|].
    split; [done|]. split; [done|].
    assert (Hset : ∀ path v, set_fields (op r) !! path = Some v → d !! path = Some v).
    { intros path v Hv. by eapply lookup_weaken. }
    split_and!; by apply Hset.
Qed.

Lemma earlier_first_total : Total earlier_first.
Proof.
  intros a b. unfold earlier_first.
  destruct (date_of a), (date_of b); try tauto. lia.
Qed.

Lemma earlier_first_trans : Transitive earlier_first.
Proof.
  intros a b c. unfold earlier_first.
  destruct (date_of a), (date_of b), (date_of c); try tauto. lia.
Qed.

(** X27. Attendance is stored under the midnight of its day, and
    [getStudentAttendance] compares that midnight with the period: after
    the static [markClassAttendance] has written a batch, the student's
    record of the day is among the rows returned, which come earliest day
    first, exactly when the period contains the midnight.  So a period that
    begins at the time of the marking, when that is not midnight, does not
    return the record just marked. *)
Theorem marked_day_is_found_from_its_midnight
  (env : Env) (classId : ObjectId) (date : Date) (l1 : list Entry) (r : Entry)
  (l2 : list Entry) (recordedBy : ObjectId) (classes : list SchoolClass.t)
  (rows : list Doc) (result : BulkWriteResult) (rows' : list Doc) :
  Attendance.markClassAttendance generateId tz env classId date (l1 ++ r :: l2)
    recordedBy classes rows = (Ok result, rows') →
  unique_days rows →
  (∀ x, x ∈ l2 → studentId x ≠ studentId r) →
  (∀ startDate endDate,
     StronglySorted earlier_first
       (getStudentAttendance (studentId r) startDate endDate rows')) ∧
  (∀ startDate endDate,
     (startDate ≤ startOfDay tz date ∧ startOfDay tz date ≤ endDate)%Z ↔
     ∃ d : Doc,
       d ∈ getStudentAttendance (studentId r) startDate endDate rows' ∧
       d !! "date" = Some (VDate (startOfDay tz date))) ∧
  (∀ startDate endDate (d : Doc),
     d ∈ getStudentAttendance (studentId r) startDate endDate rows' →
     d !! "date" = Some (VDate (startOfDay tz date)) →
     d !! "classId" = Some (VId classId) ∧
     d !! "status" = Some (VStr (status r))) ∧
  (((date + tz) mod msPerDay ≠ 0)%Z →
   ∀ endDate (d : Doc),
     d ∈ getStudentAttendance (studentId r) date endDate rows' →
     d !! "date" ≠ Some (VDate (startOfDay tz date))).
Proof.
  intros H Hu Hlast.
  destruct (stored_record _ _ _ _ _ _ _ _ _ _ _ H Hlast)
    as (d0 & Hin & Hs & Hd & Hc & Hst & _).
  assert (Hu' : unique_days rows').
  { pose proof (static_unique_days generateId tz env classId date (l1 ++ r :: l2)
                  recordedBy classes rows Hu) as Hu'.
    by rewrite H in Hu'. }
  assert (Hmem : ∀ startDate endDate (d : Doc),
            d ∈ getStudentAttendance (studentId r) startDate endDate rows' ↔
            d ∈ rows' ∧ d !! "studentId" = Some (VId (studentId r)) ∧
            in_range startDate endDate d).
  { intros startDate endDate d. unfold getStudentAttendance.
    rewrite merge_sort_Permutation, list_elem_of_filter. tauto. }
  assert (Hrange : ∀ startDate endDate (d : Doc),
            d !! "date" = Some (VDate (startOfDay tz date)) →
            in_range startDate endDate d ↔
            (startDate ≤ startOfDay tz date ∧ startOfDay tz date ≤ endDate)%Z).
  { intros startDate endDate d Hdd. unfold in_range, date_of. by rewrite Hdd. }
  split_and!.
  - intros startDate endDate. apply StronglySorted_merge_sort;
      [apply earlier_first_trans|apply earlier_first_total].
  - intros startDate endDate. split.
    + intros Hp. exists d0. split; [|done]. apply Hmem. split_and!; [done..|].
      by apply Hrange.
    + intros (d & (_ & _ & Hr)%Hmem & Hdd). by apply (Hrange _ _ d).
  - intros startDate endDate d (Hdin & Hds & _)%Hmem Hdd.
    assert (d = d0) as ->; [|done].
    apply (NoDup_fmap_eq day_key rows'); try done.
    unfold day_key. by rewrite Hds, Hdd, Hs, Hd.
  - intros Hmod endDate d (_ & _ & Hr)%Hmem Hdd.
    apply (Hrange _ _ d Hdd) in Hr. unfold startOfDay, msPerDay in *.
    pose proof (Z.mod_pos_bound (date + tz) 86400000 ltac:(lia)). lia.
Qed.

End Written.

Section Marking.

Variable tz : Z.
Variable generateId : list Doc → ObjectId.
Variable Student_exists : ObjectId → bool.
Variable AuditLog_log : AuditEntry → list AuditEntry → Result (list AuditEntry).

Lemma listed_student (d : Doc) s :
  d !! "studentId" = Some (VId s) →
  AttendanceStatics.student (listed Student_exists d) =
    Populate.populate Student_exists s.
Proof. intros H. unfold listed. simpl. by rewrite H. Qed.

Lemma listed_of_student (d : Doc) s :
  AttendanceStatics.student (listed Student_exists d) = Populate.Document s →
  d !! "studentId" = Some (VId s).
Proof.
  unfold listed, Populate.populate. simpl.
  destruct (d !! "studentId") as [[| | | | |o|]|]; try done.
  destruct (Student_exists o); [|done]. by intros [= ->].
Qed.

(** X14. What has been marked can be read: after the static
    [markClassAttendance] has written a batch, the attendance of the class
    on that day lists a row for each student of the batch, the student
    populated, with the status, notes and arrival time of the student's last
    record in the batch, the class, the midnight of the day, the recorder
    and the time of the write.  The status is stored as given; the bulk
    write does not check it against the statuses of the schema. *)
Theorem marked_record_is_read
  (env : Env) (classId : ObjectId) (date : Date) (l1 : list Entry) (r : Entry)
  (l2 : list Entry) (recordedBy : ObjectId) (classes : list SchoolClass.t)
  (rows : list Doc) (result : BulkWriteResult) (rows' : list Doc) :
  Attendance.markClassAttendance generateId tz env classId date (l1 ++ r :: l2)
    recordedBy classes rows = (Ok result, rows') →
  (∀ x, x ∈ l2 → studentId x ≠ studentId r) →
  ∃ d : Doc,
    listed Student_exists d
      ∈ AttendanceStatics.getClassAttendance Student_exists tz classId date rows' ∧
    AttendanceStatics.student (listed Student_exists d) =
      Populate.populate Student_exists (studentId r) ∧
    d !! "studentId" = Some (VId (studentId r)) ∧
    d !! "date" = Some (VDate (startOfDay tz date)) ∧
    d !! "classId" = Some (VId classId) ∧
    d !! "status" = Some (VStr (status r)) ∧
    d !! "notes" = Some (or_empty (notes r)) ∧
    d !! "arrivalTime" = Some (or_null (arrivalTime r)) ∧
    d !! "recordedBy" = Some (VId recordedBy) ∧
    d !! "updatedAt" = Some (VDate (now env)).
Proof.
  intros H Hlast.
  destruct (stored_record tz generateId _ _ _ _ _ _ _ _ _ _ _ H Hlast)
    as (d & Hin & Hs & Hd & Hc & Hrest).
  exists d. split; [|split; [by apply listed_student|done]].
  unfold AttendanceStatics.getClassAttendance.
  apply list_elem_of_fmap_2. by apply list_elem_of_filter.
Qed.

(** X15. There is one attendance row per student and day, whatever the
    class: when the static [markClassAttendance] has written a batch for a
    class, no other class has a row of that day for a student of the batch
    any more, and the attendance of no other class lists the student.  A
    student who was marked in another class that day has been moved to this
    one. *)
Theorem marking_elsewhere_moves_the_record
  (env : Env) (classId : ObjectId) (date : Date) (records : list Entry)
  (r : Entry) (recordedBy : ObjectId) (classes : list SchoolClass.t)
  (rows : list Doc) (result : BulkWriteResult) (rows' : list Doc) :
  Attendance.markClassAttendance generateId tz env classId date records
    recordedBy classes rows = (Ok result, rows') →
  unique_days rows → r ∈ records →
  ∀ other,
    other ≠ classId →
    (∀ d : Doc,
       d ∈ rows' → d !! "classId" = Some (VId other) →
       d !! "date" = Some (VDate (startOfDay tz date)) →
       d !! "studentId" ≠ Some (VId (studentId r))) ∧
    (∀ l,
       l ∈ AttendanceStatics.getClassAttendance Student_exists tz other date rows' →
       AttendanceStatics.student l ≠ Populate.Document (studentId r)).
Proof.
  intros H Hu Hr other Hother.
  assert (Hrows : ∀ d : Doc,
            d ∈ rows' → d !! "classId" = Some (VId other) →
            d !! "date" = Some (VDate (startOfDay tz date)) →
            d !! "studentId" ≠ Some (VId (studentId r))).
  { intros d Hin Hc Hday Hs.
    destruct (last_record records r Hr) as (l1 & r' & l2 & -> & Hr' & Hlast).
    destruct (stored_record tz generateId env classId date l1 r' l2 recordedBy
                classes rows result rows' H)
      as (d' & Hin' & Hs' & Hd' & Hc' & _).
    { intros x Hx. rewrite Hr'. by apply Hlast. }
    assert (Hu' : unique_days rows').
    { pose proof (static_unique_days generateId tz env classId date
                    (l1 ++ r' :: l2) recordedBy classes rows Hu) as Hu'.
      by rewrite H in Hu'. }
    assert (d = d') as ->.
    { apply (NoDup_fmap_eq day_key rows'); try done.
      unfold day_key. rewrite Hs, Hday, Hs', Hd', Hr'. done. }
    rewrite Hc in Hc'. injection Hc' as ->. done. }
  split; [done|].
  intros l Hl Hst. unfold AttendanceStatics.getClassAttendance in Hl.
  apply list_elem_of_fmap in Hl as (d & -> & Hd).
  apply list_elem_of_filter in Hd as [[Hc Hday] Hin].
  apply (Hrows d Hin Hc Hday). by apply listed_of_student.
Qed.

(** X16. The service refuses every batch that is not empty, whether its
    students are enrolled or not: the members of the class come with their
    student populated, and it is the text of a student document that is
    compared with the ids of the batch.  For a class of the recorder's
    school whose members' students are all stored the error names the
    student of every record, in the order of the batch; when the student of
    an active member is no longer stored the call fails reading [null].
    The store, audit log included, is left as it was. *)
Theorem nonempty_batch_is_refused
  (env : Env) (classId : ObjectId) (date : Date) (records : list Entry)
  (recordedBy : User) (db : Db) :
  records ≠ [] →
  (∃ msg, markClassAttendance tz generateId Student_exists AuditLog_log env
            classId date records recordedBy db = (Err (Error msg), db)) ∧
  (is_Some (SchoolClass.findOne classId (schoolId recordedBy) (classes db)) →
   (∀ e, e ∈ Enrollment.findActiveByClass classId (enrollments db) →
         Student_exists (Enrollment.studentId e) = true) →
   markClassAttendance tz generateId Student_exists AuditLog_log env classId date
     records recordedBy db =
     (Err (Error ("Students not enrolled in class: " +:+
                  Js.join ", " (studentId <$> records))), db)) ∧
  (is_Some (SchoolClass.findOne classId (schoolId recordedBy) (classes db)) →
   ∀ e, e ∈ Enrollment.findActiveByClass classId (enrollments db) →
        Student_exists (Enrollment.studentId e) = false →
        markClassAttendance tz generateId Student_exists AuditLog_log env classId
          date records recordedBy db =
          (Err (Error Populate.reading_null), db)).
Proof.
  intros Hne. split_and!.
  - destruct (AttendanceProps.refused tz generateId Student_exists AuditLog_log
                env classId date records recordedBy db Hne) as (msg & _ & H).
    by exists msg.
  - intros Hclass Hall. by apply AttendanceProps.refused_batch.
  - intros Hclass e He Hs. by apply (AttendanceProps.refused_null _ _ _ _ _ _ _ _ _ _ e).
Qed.

(** X17. [getClassAttendance] of the service, for a class of the school:
    on a day without rows for the class it lists one entry per active
    membership of the class, in the order of the memberships, with the
    student populated, status null and the date as given, so a stored
    student is listed exactly when a membership of the class is active;
    once the static [markClassAttendance] has written a batch that is not
    empty it returns the rows of the class for that day. *)
Theorem getClassAttendance_lists
  (classId : ObjectId) (date : Date) (school : ObjectId) (db : Db)
  (classDoc : SchoolClass.t) :
  SchoolClass.findOne classId school (classes db) = Some classDoc →
  (AttendanceStatics.getClassAttendance Student_exists tz classId date
     (attendances db) = [] →
   ∃ listing,
     AttendanceReads.getClassAttendance Student_exists tz classId date school db =
       Ok listing ∧
     AttendanceStatics.student <$> listing =
       (Populate.populate Student_exists ∘ Enrollment.studentId) <$>
         Enrollment.findActiveByClass classId (enrollments db) ∧
     (∀ s, Student_exists s = true →
           (∃ l, l ∈ listing ∧ AttendanceStatics.student l = Populate.Document s) ↔
           active_in db classId s) ∧
     (∀ l, l ∈ listing →
        AttendanceStatics.paths l !! "status" = Some VNull ∧
        AttendanceStatics.paths l !! "date" = Some (VDate date))) ∧
  (∀ env recordedBy records result rows',
     records ≠ [] →
     Attendance.markClassAttendance generateId tz env classId date records
       recordedBy (classes db) (attendances db) = (Ok result, rows') →
     AttendanceReads.getClassAttendance Student_exists tz classId date school
       (with_attendance rows' db) =
       Ok (AttendanceStatics.getClassAttendance Student_exists tz classId date rows') ∧
     AttendanceStatics.getClassAttendance Student_exists tz classId date rows' ≠ []).
Proof.
  intros Hclass. split.
  - intros Hnone. unfold AttendanceReads.getClassAttendance.
    rewrite Hclass, Hnone. simpl. eexists. split; [done|]. split_and!.
    + rewrite <- list_fmap_compose. done.
    + intros s Hs. rewrite <- AttendanceProps.enrolled_ids_active. split.
      * intros (l & (e & -> & He)%list_elem_of_fmap & Hl).
        unfold AttendanceReads.unmarked, populated, Populate.populate in Hl.
        simpl in Hl.
        destruct (Student_exists (Enrollment.studentId e)); [|done].
        injection Hl as <-. by apply list_elem_of_fmap_2.
      * intros (e & -> & He)%list_elem_of_fmap.
        exists (AttendanceReads.unmarked Student_exists date e). split.
        -- by apply list_elem_of_fmap_2.
        -- unfold AttendanceReads.unmarked, populated, Populate.populate. simpl.
           by rewrite Hs.
    + intros l (e & -> & He)%list_elem_of_fmap. unfold AttendanceReads.unmarked.
      simpl. rewrite lookup_insert_eq.
      rewrite lookup_insert_ne by done. by rewrite lookup_insert_eq.
  - intros env recordedBy records result rows' Hne H.
    destruct records as [|a records]; [done|].
    destruct (last_record (a :: records) a ltac:(left))
      as (l1 & r' & l2 & E & Hr' & Hl).
    rewrite E in H.
    destruct (stored_record tz generateId env classId date l1 r' l2 recordedBy
                (classes db) (attendances db) result rows' H)
      as (d & Hin & Hs & Hd & Hc & _).
    { intros x Hx. rewrite Hr'. by apply Hl. }
    assert (Hmem : listed Student_exists d
                     ∈ AttendanceStatics.getClassAttendance Student_exists tz
                         classId date rows').
    { apply list_elem_of_fmap_2. by apply list_elem_of_filter. }
    unfold AttendanceReads.getClassAttendance. simpl. rewrite Hclass.
    destruct (AttendanceStatics.getClassAttendance Student_exists tz classId date rows')
      as [|x l]; [by apply elem_of_nil in Hmem|done].
Qed.

(** X18. The bulk withdrawal that [deleteStudent] issues leaves the student
    without an active membership in any class and without a current
    enrollment, changes no membership of another student, and from then on
    every attendance batch that names the student is refused, the store
    staying as it is. *)
Theorem withdrawn_student_is_not_marked (env : Env) (student : ObjectId) (db : Db) :
  let db' := AttendanceReads.after_withdrawAll env student db in
  (∀ c, ¬ active_in db' c student) ∧
  EnrollmentStatics.findCurrentByStudent student (enrollments db') = None ∧
  (∀ k e, enrollments db !! k = Some e → Enrollment.studentId e ≠ student →
          enrollments db' !! k = Some e) ∧
  (∀ at_ classId date records recordedBy bad,
     bad ∈ records → studentId bad = student →
     ∃ err, markClassAttendance tz generateId Student_exists AuditLog_log at_
              classId date records recordedBy db' = (Err err, db')).
Proof.
  intros db'.
  assert (Hnone : ∀ e, e ∈ enrollments db' → Enrollment.studentId e = student →
                       Enrollment.status e ≠ Enrollment.active).
  { intros e He Hs. simpl in He. unfold Enrollment.withdrawAll in He.
    apply list_elem_of_fmap in He as (e0 & -> & He0). revert Hs.
    destruct (bool_decide (Enrollment.studentId e0 = student ∧
                           Enrollment.status e0 = Enrollment.active)) eqn:Hd;
      [done|].
    apply bool_decide_eq_false in Hd. intros Hs Ha. by apply Hd. }
  assert (Hnot : ∀ c, ¬ active_in db' c student).
  { intros c (e & He & _ & Ha & Hs). by apply (Hnone e). }
  split_and!; [done| | |].
  - unfold EnrollmentStatics.findCurrentByStudent.
    destruct (list_find _ (enrollments db')) as [[k e]|] eqn:Hf; [|done].
    apply list_find_Some in Hf as (Hk & [Hs Ha] & _).
    destruct (Hnone e); [by eapply list_elem_of_lookup_2|done|done].
  - intros k e Hk Hs. simpl. unfold Enrollment.withdrawAll.
    rewrite list_lookup_fmap, Hk. simpl.
    rewrite bool_decide_eq_false_2; [done|]. by intros [? _].
  - intros at_ classId date records recordedBy bad Hbad Hs.
    destruct (AttendanceProps.refused tz generateId Student_exists AuditLog_log
                at_ classId date records recordedBy db') as (msg & _ & Hmsg).
    { intros ->. by apply elem_of_nil in Hbad. }
    by exists (Error msg).
Qed.

End Marking.

Lemma marked_record_is_read_witness :
  let once :=
    Attendance.markClassAttendance AttendanceFixtures.numbered 0
      (Fixtures.at_ AttendanceFixtures.morning "x") "c1" AttendanceFixtures.morning
      AttendanceReadsFixtures.batch "t1" (classes AttendanceFixtures.monday) [] in
  ∃ d : Doc,
    listed AttendanceReadsFixtures.everyone d
      ∈ AttendanceStatics.getClassAttendance AttendanceReadsFixtures.everyone 0
          "c1" AttendanceFixtures.morning once.2 ∧
    AttendanceStatics.student (listed AttendanceReadsFixtures.everyone d) =
      Populate.Document "s1" ∧
    d !! "date" = Some (VDate AttendanceFixtures.midnight) ∧
    d !! "status" = Some (VStr "late").
Proof.
  intros once.
  assert (H1 : once.1 = Ok (AttendanceReadsFixtures.wrote 2 1))
    by (vm_compute; reflexivity).
  assert (H : once = (Ok (AttendanceReadsFixtures.wrote 2 1), once.2))
    by (rewrite <- H1; apply surjective_pairing).
  destruct (marked_record_is_read 0 AttendanceFixtures.numbered
              AttendanceReadsFixtures.everyone
              (Fixtures.at_ AttendanceFixtures.morning "x")
              "c1" AttendanceFixtures.morning
              [AttendanceFixtures.entry "s1" "present";
               AttendanceFixtures.entry "s2" "absent"]
              (AttendanceFixtures.entry "s1" "late") []
              "t1" (classes AttendanceFixtures.monday) [] _ once.2 H)
    as (d & Hin & Hst & Hs & Hd & _ & Hstatus & _).
  { intros x Hx%elem_of_nil. destruct Hx. }
  exists d. split_and!; [exact Hin|exact Hst|exact Hd|exact Hstatus].
Defined.

Lemma marked_day_is_found_from_its_midnight_witness :
  let once :=
    Attendance.markClassAttendance AttendanceFixtures.numbered 0
      (Fixtures.at_ AttendanceFixtures.morning "x") "c1" AttendanceFixtures.morning
      AttendanceReadsFixtures.batch "t1" (classes AttendanceFixtures.monday) [] in
  (∃ d : Doc,
     d ∈ getStudentAttendance "s1" AttendanceFixtures.midnight
           AttendanceFixtures.morning once.2 ∧
     d !! "date" = Some (VDate AttendanceFixtures.midnight)) ∧
  ∀ endDate (d : Doc),
    d ∈ getStudentAttendance "s1" AttendanceFixtures.morning endDate once.2 →
    d !! "date" ≠ Some (VDate AttendanceFixtures.midnight).
Proof.
  intros once.
  assert (H1 : once.1 = Ok (AttendanceReadsFixtures.wrote 2 1))
    by (vm_compute; reflexivity).
  assert (H : once = (Ok (AttendanceReadsFixtures.wrote 2 1), once.2))
    by (rewrite <- H1; apply surjective_pairing).
  destruct (marked_day_is_found_from_its_midnight 0 AttendanceFixtures.numbered
              (Fixtures.at_ AttendanceFixtures.morning "x")
              "c1" AttendanceFixtures.morning
              [AttendanceFixtures.entry "s1" "present";
               AttendanceFixtures.entry "s2" "absent"]
              (AttendanceFixtures.entry "s1" "late") []
              "t1" (classes AttendanceFixtures.monday) [] _ once.2 H)
    as (_ & Hfound & _ & Hmiss).
  { apply NoDup_nil_2. }
  { intros x Hx%elem_of_nil. destruct Hx. }
  split.
  - apply (Hfound AttendanceFixtures.midnight AttendanceFixtures.morning).
    clear. split; by vm_compute.
  - apply Hmiss. clear. by vm_compute.
Defined.

Lemma marking_elsewhere_moves_the_record_witness :
  let once :=
    Attendance.markClassAttendance AttendanceFixtures.numbered 0
      (Fixtures.at_ AttendanceFixtures.morning "x") "c2" AttendanceFixtures.morning
      [AttendanceFixtures.entry "s1" "present"] "t1"
      (classes AttendanceReadsFixtures.two_classes)
      (attendances AttendanceReadsFixtures.two_classes) in
  listed AttendanceReadsFixtures.everyone AttendanceFixtures.marked_s1
    ∈ AttendanceStatics.getClassAttendance AttendanceReadsFixtures.everyone 0 "c1"
        AttendanceFixtures.morning
        (attendances AttendanceReadsFixtures.two_classes) ∧
  ∀ l,
    l ∈ AttendanceStatics.getClassAttendance AttendanceReadsFixtures.everyone 0
          "c1" AttendanceFixtures.morning once.2 →
    AttendanceStatics.student l ≠ Populate.Document "s1".
Proof.
  intros once. split.
  { apply list_elem_of_fmap_2, list_elem_of_filter.
    split; [split; by vm_compute|by left]. }
  assert (H1 : once.1 = Ok (AttendanceReadsFixtures.wrote 0 1))
    by (vm_compute; reflexivity).
  assert (H : once = (Ok (AttendanceReadsFixtures.wrote 0 1), once.2))
    by (rewrite <- H1; apply surjective_pairing).
  apply (marking_elsewhere_moves_the_record 0 AttendanceFixtures.numbered
           AttendanceReadsFixtures.everyone
           (Fixtures.at_ AttendanceFixtures.morning "x")
           "c2" AttendanceFixtures.morning
           [AttendanceFixtures.entry "s1" "present"]
           (AttendanceFixtures.entry "s1" "present")
           "t1" (classes AttendanceReadsFixtures.two_classes)
           (attendances AttendanceReadsFixtures.two_classes)
           _ once.2 H).
  - apply NoDup_singleton.
  - by left.
  - done.
Defined.

Lemma nonempty_batch_is_refused_witness :
  markClassAttendance 0 AttendanceFixtures.numbered AttendanceReadsFixtures.everyone
    AttendanceFixtures.append_log (Fixtures.at_ AttendanceFixtures.morning "x")
    "c1" AttendanceFixtures.morning AttendanceReadsFixtures.batch
    AttendanceFixtures.teacher AttendanceFixtures.monday =
    (Err (Error ("Students not enrolled in class: " +:+
                 Js.join ", " (studentId <$> AttendanceReadsFixtures.batch))),
     AttendanceFixtures.monday) ∧
  markClassAttendance 0 AttendanceFixtures.numbered
    AttendanceReadsFixtures.without_s2
    AttendanceFixtures.append_log (Fixtures.at_ AttendanceFixtures.morning "x")
    "c1" AttendanceFixtures.morning AttendanceReadsFixtures.batch
    AttendanceFixtures.teacher AttendanceFixtures.monday =
    (Err (Error Populate.reading_null), AttendanceFixtures.monday).
Proof.
  split.
  - destruct (nonempty_batch_is_refused 0 AttendanceFixtures.numbered
                AttendanceReadsFixtures.everyone AttendanceFixtures.append_log
                (Fixtures.at_ AttendanceFixtures.morning "x")
                "c1" AttendanceFixtures.morning AttendanceReadsFixtures.batch
                AttendanceFixtures.teacher AttendanceFixtures.monday)
      as (_ & H & _); [done|].
    apply H; [by eexists|done].
  - destruct (nonempty_batch_is_refused 0 AttendanceFixtures.numbered
                AttendanceReadsFixtures.without_s2 AttendanceFixtures.append_log
                (Fixtures.at_ AttendanceFixtures.morning "x")
                "c1" AttendanceFixtures.morning AttendanceReadsFixtures.batch
                AttendanceFixtures.teacher AttendanceFixtures.monday)
      as (_ & _ & H); [done|].
    apply (H ltac:(by eexists) AttendanceFixtures.mary).
    + apply list_elem_of_filter. split; [by split|]. right. by left.
    + reflexivity.
Defined.

Lemma getClassAttendance_lists_witness :
  ∃ listing,
     AttendanceReads.getClassAttendance AttendanceReadsFixtures.everyone 0 "c1"
       AttendanceFixtures.morning "schoolA" AttendanceFixtures.monday = Ok listing ∧
     AttendanceStatics.student <$> listing =
       [Populate.Document "s1"; Populate.Document "s2"] ∧
     (∀ l, l ∈ listing →
        AttendanceStatics.paths l !! "status" = Some VNull ∧
        AttendanceStatics.paths l !! "date" = Some (VDate AttendanceFixtures.morning)).
Proof.
  destruct (getClassAttendance_lists 0 AttendanceFixtures.numbered
              AttendanceReadsFixtures.everyone "c1" AttendanceFixtures.morning
              "schoolA" AttendanceFixtures.monday MembershipFixtures.grade1)
    as [Hlist _]; [reflexivity|].
  destruct Hlist as (listing & H1 & H2 & _ & H4); [reflexivity|].
  exists listing. split_and!; [exact H1|exact H2|exact H4].
Defined.

End AttendanceReadsProps.

Module PaymentStaticsProps.

Import Payment PaymentStatics.

Local Open Scope string_scope.
Local Open Scope list_scope.

Lemma payment_create_inv env i ps p ps' :
  create env i ps = Ok (p, ps') →
  invalid_paths (new env i) = [] ∧ p = new env i ∧ ps' = ps ++ [p] ∧
  number_taken p ps = false.
Proof.
  unfold create. destruct (invalid_paths (new env i)) eqn:Hv; [|done].
  assert (Hf : falsy (paymentNumber (new env i)) = false).
  { unfold invalid_paths in Hv.
    destruct (falsy (paymentNumber (new env i))); [|done].
    exfalso. repeat (apply app_eq_nil in Hv as [? Hv]). done. }
  unfold pre_save. rewrite Hf. simpl.
  destruct (number_taken (new env i) ps) eqn:Ht; [done|].
  by intros [= <- <-].
Qed.

(** X19. [Payment.create] never numbers a payment: the schema requires
    [paymentNumber] and is checked before the hook that would generate one,
    so a literal without a number is rejected with a ValidationError that
    names the path and nothing is stored; a payment that has been created
    carries the number of the literal, which no stored payment had, and is
    the one row appended. *)
Theorem create_keeps_the_given_number (env : Env) (i : init) (ps : list t) :
  (falsy (i_paymentNumber i) = true →
   ∃ paths, "paymentNumber" ∈ paths ∧
            create env i ps = Err (ValidationError paths)) ∧
  (∀ p ps', create env i ps = Ok (p, ps') →
     paymentNumber p = i_paymentNumber i ∧
     falsy (i_paymentNumber i) = false ∧
     ps' = ps ++ [p] ∧
     ∀ q, q ∈ ps → paymentNumber q ≠ paymentNumber p).
Proof.
  split.
  - intros Hf.
    assert (Hin : "paymentNumber" ∈ invalid_paths (new env i)).
    { unfold invalid_paths. simpl. rewrite Hf. set_solver. }
    unfold create.
    destruct (invalid_paths (new env i)) as [|x l]; [by apply elem_of_nil in Hin|].
    by exists (x :: l).
  - intros p ps' H. apply payment_create_inv in H as (Hv & -> & -> & Ht).
    split; [done|]. split.
    + unfold invalid_paths in Hv. simpl in Hv.
      destruct (falsy (i_paymentNumber i)); [|done].
      exfalso. repeat (apply app_eq_nil in Hv as [? Hv]). done.
    + split; [done|]. intros q Hq Hn.
      unfold number_taken in Ht. apply bool_decide_eq_false in Ht.
      apply Ht, Exists_exists. by exists q.
Qed.

Lemma step_unique ps c :
  NoDup (paymentNumber <$> ps) → NoDup (paymentNumber <$> step ps c).
Proof.
  intros Hnd. unfold step.
  destruct (create c.1 c.2 ps) as [[p ps']|] eqn:H; [|done].
  apply payment_create_inv in H as (_ & _ & -> & Ht).
  rewrite fmap_app. apply NoDup_app. split_and!; [done| |apply NoDup_singleton].
  intros n (q & -> & Hq)%list_elem_of_fmap Hin.
  apply list_elem_of_singleton in Hin.
  unfold number_taken in Ht. apply bool_decide_eq_false in Ht.
  apply Ht, Exists_exists. by exists q.
Qed.

Lemma step_numbered ps c :
  Forall (λ p, falsy (paymentNumber p) = false) ps →
  Forall (λ p, falsy (paymentNumber p) = false) (step ps c).
Proof.
  intros Hall. unfold step.
  destruct (create c.1 c.2 ps) as [[p ps']|] eqn:H; [|done].
  apply payment_create_inv in H as (Hv & -> & -> & _).
  apply Forall_app. split; [done|]. apply Forall_singleton.
  unfold invalid_paths in Hv.
  destruct (falsy (paymentNumber (new c.1 c.2))); [|done].
  exfalso. repeat (apply app_eq_nil in Hv as [? Hv]). done.
Qed.

(** X20. Payment numbers stay unique: in a collection built by any sequence
    of [Payment.create] calls, accepted or rejected, no two payments carry
    the same number and every payment has one. *)
Theorem payment_numbers_stay_unique (cs : list (Env * init)) :
  NoDup (paymentNumber <$> run cs []) ∧
  Forall (λ p, falsy (paymentNumber p) = false) (run cs []).
Proof.
  unfold run.
  assert (H : ∀ ps,
            NoDup (paymentNumber <$> ps) →
            Forall (λ p, falsy (paymentNumber p) = false) ps →
            NoDup (paymentNumber <$> foldl step ps cs) ∧
            Forall (λ p, falsy (paymentNumber p) = false) (foldl step ps cs)).
  { induction cs as [|c cs IH]; intros ps Hnd Hall; [done|].
    simpl. apply IH; [by apply step_unique|by apply step_numbered]. }
  apply H; [apply NoDup_nil_2|done].
Qed.

Lemma newest_first_total : Total newest_first.
Proof. intros a b. unfold newest_first. lia. Qed.

Lemma newest_first_trans : Transitive newest_first.
Proof. intros a b c. unfold newest_first. lia. Qed.

(** X21. [getStudentPayments] returns the payments of the student, each
    once and latest first; the period restricts them only when both its ends
    are given, a start date or an end date alone being ignored. *)
Theorem getStudentPayments_lists (student : ObjectId)
  (startDate endDate : option Date) (ps : list t) :
  let found := getStudentPayments student startDate endDate ps in
  found ≡ₚ filter (λ p, studentId p = Some student ∧
                        in_period startDate endDate p) ps ∧
  (∀ p, p ∈ found ↔
        p ∈ ps ∧ studentId p = Some student ∧
        (∀ s e, startDate = Some s → endDate = Some e →
                (s <= paymentDate p ∧ paymentDate p <= e)%Z)) ∧
  StronglySorted newest_first found ∧
  (startDate = None ∨ endDate = None →
   found = getStudentPayments student None None ps).
Proof.
  simpl. split; [apply merge_sort_Permutation|]. split; [|split].
  - intros p. unfold getStudentPayments. rewrite merge_sort_Permutation.
    rewrite list_elem_of_filter. unfold in_period.
    destruct startDate as [s|], endDate as [e|]; split.
    + intros [[? ?] ?]. split_and!; try done. by intros ?? [= <-] [= <-].
    + intros (? & ? & H). split_and!; try done; by apply (H s e).
    + intros [[? ?] ?]. by split_and!.
    + intros (? & ? & H). by split_and!.
    + intros [[? ?] ?]. by split_and!.
    + intros (? & ? & H). by split_and!.
    + intros [[? ?] ?]. by split_and!.
    + intros (? & ? & H). by split_and!.
  - apply StronglySorted_merge_sort;
      [apply newest_first_trans|apply newest_first_total].
  - intros [-> | ->]; [by destruct endDate|by destruct startDate].
Qed.

End PaymentStaticsProps.

Module MiddlewareProps.

Import Constants Http.

Local Open Scope string_scope.
Local Open Scope Z_scope.

Lemma level_of r l :
  ROLE_HIERARCHY !! r = Some l →
  (r = SUPERADMIN ∧ l = 100) ∨ (r = ADMIN ∧ l = 50) ∨ (r = TEACHER ∧ l = 30) ∨
  (r = PARENT ∧ l = 20) ∨ (r = STUDENT ∧ l = 10).
Proof.
  unfold ROLE_HIERARCHY. intros H.
  repeat (apply lookup_insert_Some in H as [[<- <-]|[_ H]]; [tauto|]).
  by rewrite lookup_empty in H.
Qed.

Lemma level_ROLES r : is_Some (ROLE_HIERARCHY !! r) ↔ r ∈ ROLES.
Proof.
  split.
  - intros [l Hl]. apply level_of in Hl. unfold ROLES.
    destruct Hl as [[-> _] | [[-> _] | [[-> _] | [[-> _] | [-> _]]]]]; set_solver.
  - unfold ROLES. rewrite !elem_of_cons, elem_of_nil.
    intros [-> | [-> | [-> | [-> | [-> | []]]]]]; by eexists.
Qed.

Section Roles.

Variable inherited : string → bool.
Variable inherited_geq : string → string → bool.

Local Abbreviation hasPermission := (hasPermission inherited inherited_geq).

Lemma hasPermission_level a b la :
  ROLE_HIERARCHY !! a = Some la →
  hasPermission a b = true ↔ ∃ lb, ROLE_HIERARCHY !! b = Some lb ∧ lb <= la.
Proof.
  intros Ha. unfold Constants.hasPermission. rewrite Ha.
  destruct (ROLE_HIERARCHY !! b) as [lb|].
  - rewrite bool_decide_eq_true. split; [by exists lb|by intros (? & [= <-] & ?)].
  - split; [done|by intros (? & ? & _)].
Qed.

Lemma hasPermission_above a b c :
  is_Some (ROLE_HIERARCHY !! a) →
  hasPermission a b = true → hasPermission b c = true → hasPermission a c = true.
Proof.
  intros [la Ha] Hab Hbc.
  apply (hasPermission_level a b la Ha) in Hab as (lb & Hb & Hle).
  apply (hasPermission_level b c lb Hb) in Hbc as (lc & Hc & Hle').
  apply (hasPermission_level a c la Ha). exists lc. split; [done|lia].
Qed.

(** X22. [hasPermission] orders the five roles, superadmin above admin
    above teacher above parent above student: among them it is reflexive,
    transitive, total and antisymmetric.  A role never has the permission of
    a name that is no role, nor such a name the permission of a role; two
    names that are no roles are granted only when both name members that the
    hierarchy object inherits. *)
Theorem hasPermission_orders_the_roles :
  (∀ a, a ∈ ROLES → hasPermission a a = true) ∧
  (∀ a b c, a ∈ ROLES → hasPermission a b = true → hasPermission b c = true →
            hasPermission a c = true) ∧
  (∀ a b, a ∈ ROLES → b ∈ ROLES →
          hasPermission a b = true ∨ hasPermission b a = true) ∧
  (∀ a b, a ∈ ROLES → hasPermission a b = true → hasPermission b a = true →
          a = b) ∧
  (∀ a b, hasPermission a b = true →
          (a ∈ ROLES ∧ b ∈ ROLES) ∨
          ((a ∉ ROLES) ∧ (b ∉ ROLES) ∧ inherited a = true ∧ inherited b = true)) ∧
  hasPermission SUPERADMIN ADMIN = true ∧ hasPermission ADMIN TEACHER = true ∧
  hasPermission TEACHER PARENT = true ∧ hasPermission PARENT STUDENT = true.
Proof.
  split_and!; try done.
  - intros a [l Hl]%level_ROLES. apply (hasPermission_level a a l Hl).
    by exists l.
  - intros a b c Ha%level_ROLES. by apply hasPermission_above.
  - intros a b [la Ha]%level_ROLES [lb Hb]%level_ROLES.
    rewrite (hasPermission_level a b la Ha), (hasPermission_level b a lb Hb).
    destruct (decide (lb <= la)); [left; by exists lb|right; exists la; split; [done|lia]].
  - intros a b [la Ha]%level_ROLES Hab Hba.
    apply (hasPermission_level a b la Ha) in Hab as (lb & Hb & Hle).
    apply (hasPermission_level b a lb Hb) in Hba as (la' & Ha' & Hle').
    assert (la' = la) as -> by congruence.
    apply level_of in Ha, Hb.
    destruct Ha as [[-> ->] | [[-> ->] | [[-> ->] | [[-> ->] | [-> ->]]]]];
      destruct Hb as [[-> ->] | [[-> ->] | [[-> ->] | [[-> ->] | [-> ->]]]]];
      (done || lia).
  - intros a b. unfold Constants.hasPermission.
    destruct (ROLE_HIERARCHY !! a) as [la|] eqn:Ha;
      destruct (ROLE_HIERARCHY !! b) as [lb|] eqn:Hb; try done.
    + intros _. left. split; apply level_ROLES; by eexists.
    + intros [[Hia Hib]%andb_true_iff _]%andb_true_iff. right.
      split_and!; try done.
      * intros [? ?]%level_ROLES. congruence.
      * intros [? ?]%level_ROLES. congruence.
Qed.

(** X28. [canAccess] does not follow the role hierarchy.  An admin may
    access every resource and a superadmin, who has the permission of every
    role, none; and no resource is open to two of the roles teacher, parent
    and student, so a teacher, who has the permission of a parent, may access
    none of the resources of a parent. *)
Theorem canAccess_ignores_the_hierarchy (u u' : UserDoc) (resource : string) :
  (role u = ADMIN → UserModel.canAccess inherited u resource = Some true) ∧
  (role u = SUPERADMIN →
   UserModel.canAccess inherited u resource ≠ Some true ∧
   ∀ r, r ∈ ROLES → hasPermission (role u) r = true) ∧
  (role u ∈ [TEACHER; PARENT; STUDENT] → role u' ∈ [TEACHER; PARENT; STUDENT] →
   UserModel.canAccess inherited u resource = Some true →
   UserModel.canAccess inherited u' resource = Some true →
   role u' = role u) ∧
  (role u = TEACHER → role u' = PARENT →
   hasPermission (role u) (role u') = true ∧
   (UserModel.canAccess inherited u' resource = Some true →
    UserModel.canAccess inherited u resource = Some false)).
Proof.
  assert (Hlow : ∀ v v' : UserDoc,
            role v ∈ [TEACHER; PARENT; STUDENT] → role v' ∈ [TEACHER; PARENT; STUDENT] →
            UserModel.canAccess inherited v resource = Some true →
            UserModel.canAccess inherited v' resource = Some true →
            role v' = role v).
  { intros v v'. unfold UserModel.canAccess.
    rewrite !elem_of_cons, !elem_of_nil.
    intros [-> | [-> | [-> | []]]] [-> | [-> | [-> | []]]]; try done;
      vm_compute (UserModel.permissions !! _);
      intros [= H1] [= H2];
      (apply orb_true_iff in H1 as [H1%bool_decide_eq_true|H1];
         [|by vm_compute in H1]);
      (apply orb_true_iff in H2 as [H2%bool_decide_eq_true|H2];
         [|by vm_compute in H2]);
      rewrite ?elem_of_cons, ?elem_of_nil in H1;
      rewrite ?elem_of_cons, ?elem_of_nil in H2;
      repeat (destruct H1 as [H1|H1]; try done);
      repeat (destruct H2 as [H2|H2]; try done);
      subst; done. }
  split_and!.
  - intros Hr. unfold UserModel.canAccess. rewrite Hr.
    vm_compute (UserModel.permissions !! _).
    f_equal. apply orb_true_iff. right. by vm_compute.
  - intros Hr. rewrite Hr. split.
    + unfold UserModel.canAccess. rewrite Hr.
      vm_compute (UserModel.permissions !! _). by destruct (inherited _).
    + intros r [l Hl]%level_ROLES.
      apply (hasPermission_level SUPERADMIN r 100); [done|].
      exists l. split; [done|].
      apply level_of in Hl. lia.
  - apply Hlow.
  - intros Hr Hr'. rewrite Hr, Hr'. split; [done|]. intros Hp.
    unfold UserModel.canAccess. rewrite Hr.
    vm_compute (UserModel.permissions !! _). cbv beta iota.
    destruct (bool_decide (resource ∈ _) || _) eqn:Hb; [|done].
    exfalso.
    assert (UserModel.canAccess inherited u resource = Some true) as Hq.
    { unfold UserModel.canAccess. rewrite Hr.
      vm_compute (UserModel.permissions !! _). cbv beta iota. by rewrite Hb. }
    pose proof (Hlow u u') as Hl. rewrite Hr, Hr' in Hl.
    assert (PARENT = TEACHER); [|done].
    apply Hl; [set_solver|set_solver|done|done].
Qed.

End Roles.

Section Authorize.

Import Authorize.

Variable inherited : string → bool.
Variable inherited_geq : string → string → bool.
Variable AuditLog_log :
  SecurityEntry → list SecurityEntry → Result (list SecurityEntry).

Local Abbreviation hasPermission := (hasPermission inherited inherited_geq).
Local Abbreviation authorize := (authorize inherited inherited_geq AuditLog_log).

Lemma authorize_next allowedRoles req log req' log' :
  authorize allowedRoles req log = (Next req', log') ↔
  req' = req ∧ log' = log ∧
  ∃ u allowedRole, user req = Some u ∧ allowedRole ∈ allowedRoles ∧
                   hasPermission (role u) allowedRole = true.
Proof.
  unfold Authorize.authorize. destruct (user req) as [u|]; [|split; [done|]].
  - destruct (existsb _ allowedRoles) eqn:He.
    + apply existsb_exists in He as (r & Hr & Hp). split.
      * intros [= <- <-]. split_and!; [done..|]. exists u, r.
        split_and!; [done| |done]. by apply list_elem_of_In.
      * by intros (-> & -> & _).
    + split; [by destruct (AuditLog_log _ _)|].
      intros (_ & _ & u' & r & [= <-] & Hr & Hp). exfalso.
      assert (existsb (λ allowedRole, hasPermission (role u) allowedRole)
                allowedRoles = true); [|congruence].
      apply existsb_exists. exists r. split; [by apply list_elem_of_In|done].
  - by intros (_ & _ & u & r & ? & _).
Qed.

Lemma authorize_single allowedRole req log u :
  user req = Some u →
  authorize [allowedRole] req log = (Next req, log) ↔
  hasPermission (role u) allowedRole = true.
Proof.
  intros Hu. rewrite authorize_next. split.
  - intros (_ & _ & u' & r & Hu' & Hr%list_elem_of_singleton & Hp).
    assert (u' = u) as -> by congruence. by subst.
  - intros Hp. split_and!; [done..|]. exists u, allowedRole.
    split_and!; [done|by left|done].
Qed.

Lemma authorize_denied allowedRoles req log u :
  user req = Some u →
  (∀ allowedRole, allowedRole ∈ allowedRoles →
                  hasPermission (role u) allowedRole = false) →
  authorize allowedRoles req log =
    match AuditLog_log (denied allowedRoles u req) log with
    | Ok log' => (Reply 403 FORBIDDEN "Insufficient permissions", log')
    | Err _ => (Reply 500 "Authorization failed" "Internal server error", log)
    end.
Proof.
  intros Hu Hno. unfold Authorize.authorize. rewrite Hu.
  destruct (existsb _ allowedRoles) eqn:He; [|done].
  apply existsb_exists in He as (r & Hr & Hp).
  rewrite (Hno r) in Hp; [done|by apply list_elem_of_In].
Qed.

(** X23. [authorize(allowedRoles)] lets a request pass exactly when it
    carries a user whose role has the permission of one of the allowed
    roles, and then passes it on unchanged without logging.  Passing is
    inherited upward: when a user passes, a user with a role above theirs
    passes too.  A request without user is answered 401; a user who has the
    permission of none of the allowed roles (so everyone, when no role is
    allowed) is answered 403 after the attempt has been logged, or 500 with
    nothing logged when the log rejects the entry.  Of the five roles,
    [requireAdmin] passes superadmin and admin, [requireTeacher] also
    teacher, and [requireParent] all but student. *)
Theorem authorize_follows_the_hierarchy
  (allowedRoles : list string) (req : Request) (log : list SecurityEntry) :
  (∀ req' log',
     authorize allowedRoles req log = (Next req', log') ↔
     req' = req ∧ log' = log ∧
     ∃ u allowedRole, user req = Some u ∧ allowedRole ∈ allowedRoles ∧
                      hasPermission (role u) allowedRole = true) ∧
  (∀ u u',
     user req = Some u → role u' ∈ ROLES →
     hasPermission (role u') (role u) = true →
     authorize allowedRoles req log = (Next req, log) →
     authorize allowedRoles (set_user u' req) log = (Next (set_user u' req), log)) ∧
  (user req = None →
   authorize allowedRoles req log =
     (Reply 401 UNAUTHORIZED "Authentication required", log)) ∧
  (∀ u, user req = Some u →
        (∀ allowedRole, allowedRole ∈ allowedRoles →
                        hasPermission (role u) allowedRole = false) →
        authorize allowedRoles req log =
          match AuditLog_log (denied allowedRoles u req) log with
          | Ok log' => (Reply 403 FORBIDDEN "Insufficient permissions", log')
          | Err _ => (Reply 500 "Authorization failed" "Internal server error", log)
          end) ∧
  (∀ req' log', authorize [] req log ≠ (Next req', log')) ∧
  (∀ u, user req = Some u → role u ∈ ROLES →
        (requireAdmin inherited inherited_geq AuditLog_log req log = (Next req, log) ↔
         role u ∈ [SUPERADMIN; ADMIN]) ∧
        (requireTeacher inherited inherited_geq AuditLog_log req log = (Next req, log) ↔
         role u ∈ [SUPERADMIN; ADMIN; TEACHER]) ∧
        (requireParent inherited inherited_geq AuditLog_log req log = (Next req, log) ↔
         role u ≠ STUDENT)).
Proof.
  split_and!; [| | | | |intros u Hu Hr].
  - intros req' log'. apply authorize_next.
  - intros u u' Hu Hr' Hp H.
    apply authorize_next in H as (_ & _ & u0 & r & Hu0 & Hr & Hpr).
    assert (u0 = u) as -> by congruence.
    apply authorize_next. split_and!; [done..|]. exists u', r.
    split_and!; [done|done|].
    apply level_ROLES in Hr'. by eapply hasPermission_above.
  - intros Hu. unfold Authorize.authorize. by rewrite Hu.
  - intros u. apply authorize_denied.
  - intros req' log' (_ & _ & u & r & _ & Hr & _)%authorize_next.
    by apply elem_of_nil in Hr.
  - unfold requireAdmin, requireTeacher, requireParent.
    rewrite !(authorize_single _ _ _ _ Hu).
    unfold ROLES in Hr. rewrite !elem_of_cons, elem_of_nil in Hr.
    rewrite !elem_of_cons, !elem_of_nil.
    destruct Hr as [-> | [-> | [-> | [-> | [-> | []]]]]];
      split_and!; (split; [intros Hp; vm_compute in Hp|intros Hp; vm_compute]);
      first [done | tauto | (by right; left) | (by right; right; left)
            | (by destruct Hp as [?|[?|[?|[]]]]) | (by destruct Hp as [?|[?|[]]])].
Qed.

End Authorize.

Import NumberingProps.

Lemma prefix_inv p s : String.prefix p s = true → ∃ rest, s = p +:+ rest.
Proof.
  revert s. induction p as [|a p IH]; intros s.
  - by exists s.
  - destruct s as [|b s]; simpl; [done|].
    destruct (ascii_dec a b) as [->|]; [|done].
    intros [rest ->]%IH. by exists rest.
Qed.

Lemma split_go_skip sep p rest :
  split_go sep (String.length p) (p +:+ rest) = split_go sep 0 rest.
Proof. induction p as [|a p IH]; sapp; done. Qed.

Lemma split_sep a p rest :
  split (String a p) (String a p +:+ rest) = "" :: split (String a p) rest.
Proof.
  unfold split. rewrite app_String.
  assert (Hp : String.prefix (String a p) (String a (p +:+ rest)) = true)
    by (rewrite <- app_String; apply prefix_app).
  cbn [split_go]. rewrite Hp. f_equal.
  replace (String.length (String a p) - 1)%nat with (String.length p)
    by (simpl; lia).
  apply split_go_skip.
Qed.

Lemma split_whole sep s : includes sep s = false → split sep s = [s].
Proof.
  unfold split. induction s as [|a s IH]; [done|].
  cbn [includes split_go]. intros [Hp Hs]%orb_false_iff.
  rewrite Hp, (IH Hs). done.
Qed.

Section Authenticate.

Import Authenticate.

Variable admin_verifyIdToken : string → DecodedToken + string.
Variable AuditLog_log :
  SecurityEntry → list SecurityEntry → Result (list SecurityEntry).
Variable User_save : UserDoc → list UserDoc → Result (list UserDoc).

Local Abbreviation authenticate :=
  (authenticate admin_verifyIdToken AuditLog_log User_save).

Lemma findByFirebaseUid_Some uid us u :
  findByFirebaseUid uid us = Some u →
  u ∈ us ∧ firebaseUid u = uid ∧ isActive u = true.
Proof.
  unfold findByFirebaseUid. destruct (list_find _ us) as [[k u']|] eqn:Hf; [|done].
  intros [= <-]. apply list_find_Some in Hf as (Hk & [? ?] & _).
  split_and!; [|done..]. by eapply list_elem_of_lookup_2.
Qed.

Lemma findByFirebaseUid_None uid us :
  findByFirebaseUid uid us = None ↔
  ∀ u, u ∈ us → firebaseUid u = uid → isActive u = false.
Proof.
  unfold findByFirebaseUid. rewrite fmap_None, list_find_None, Forall_forall.
  split; intros H u Hu.
  - intros Hid. destruct (isActive u) eqn:Ha; [|done].
    by destruct (H u Hu).
  - intros [Hid Ha]. rewrite (H u Hu Hid) in Ha. done.
Qed.

(** X24. [authenticate] passes a request on only for a header
    ['Bearer ' + token] whose token the Firebase SDK accepts and whose uid is
    that of an active user; the request leaves with that user as
    [req.user], the last login already set to the present time, and nothing
    is logged.  The token is the text after ['Bearer '] when that text does
    not contain ['Bearer '] again.  A deactivated account is never told so:
    status 403 is never sent, and when every user with the uid is
    deactivated the answer is the 401 of an unknown user.  A token the SDK
    rejects is answered 401 after the failed login has been logged, or 500
    with nothing logged when the log rejects the entry. *)
Theorem authenticate_admits_active_users (env : Env) (req : Request) (st : Store) :
  (∀ req' st',
     authenticate env req st = (Next req', st') →
     ∃ rest decoded u,
       authorization req = Some ("Bearer " +:+ rest) ∧
       admin_verifyIdToken (idToken ("Bearer " +:+ rest)) = inl decoded ∧
       u ∈ users st ∧ firebaseUid u = uid decoded ∧ isActive u = true ∧
       req' = set_user (set_lastLogin (now env) u) req ∧
       log st' = log st) ∧
  (∀ rest, includes "Bearer " rest = false → idToken ("Bearer " +:+ rest) = rest) ∧
  (∀ error message st', authenticate env req st ≠ (Reply 403 error message, st')) ∧
  (∀ rest decoded,
     authorization req = Some ("Bearer " +:+ rest) →
     admin_verifyIdToken (idToken ("Bearer " +:+ rest)) = inl decoded →
     (∀ u, u ∈ users st → firebaseUid u = uid decoded → isActive u = false) →
     authenticate env req st =
       (Reply 401 UNAUTHORIZED "User not found in system", st)) ∧
  (∀ rest error,
     authorization req = Some ("Bearer " +:+ rest) →
     admin_verifyIdToken (idToken ("Bearer " +:+ rest)) = inr error →
     authenticate env req st =
       match AuditLog_log (failed_login error req) (log st) with
       | Ok log' =>
           (Reply 401 INVALID_TOKEN "Invalid authentication token", with_log log' st)
       | Err _ => (Reply 500 "Authentication failed" "Internal server error", st)
       end).
Proof.
  split_and!.
  - intros req' st'. unfold Authenticate.authenticate.
    destruct (authorization req) as [h|]; [|done].
    destruct (String.prefix "Bearer " h) eqn:Hp; [|done]. simpl.
    apply prefix_inv in Hp as [rest ->].
    unfold verifyIdToken.
    destruct (admin_verifyIdToken _) as [d|m] eqn:Hv;
      [|by destruct (AuditLog_log _ _)].
    destruct (findByFirebaseUid _ _) as [u|] eqn:Hf; [|done].
    apply findByFirebaseUid_Some in Hf as (Hu & Hid & Ha).
    rewrite Ha. simpl. intros [= <- <-].
    exists rest, d, u. by split_and!.
  - intros rest Hr. unfold idToken.
    change "Bearer " with (String "B" "earer ") at 1 2.
    by rewrite split_sep, (split_whole _ _ Hr).
  - intros error message st'. unfold Authenticate.authenticate.
    destruct (authorization req) as [h|]; [|done].
    destruct (String.prefix "Bearer " h); [|done]. simpl.
    destruct (verifyIdToken _ _) as [uid ? ?|m];
      [|by destruct (AuditLog_log _ _)].
    destruct (findByFirebaseUid _ _) as [u|] eqn:Hf; [|done].
    apply findByFirebaseUid_Some in Hf as (_ & _ & ->). done.
  - intros rest d Hh Hv Hall. unfold Authenticate.authenticate.
    rewrite Hh, prefix_app. simpl. unfold verifyIdToken. rewrite Hv.
    apply findByFirebaseUid_None in Hall. by rewrite Hall.
  - intros rest m Hh Hv. unfold Authenticate.authenticate.
    rewrite Hh, prefix_app. simpl. unfold verifyIdToken. by rewrite Hv.
Qed.

End Authenticate.

End MiddlewareProps.

Module ErrorReplyProps.

Import Constants ErrorHandler NumberingProps.

Local Open Scope string_scope.
Local Open Scope Z_scope.

Lemma errorHandler_Error development msg err :
  raised (Error msg) err → msg ≠ "" →
  errorHandler development err =
    Some {| status := 500; error := msg; reply_message := None; details := None;
            reply_stack := if development then stack err else None |}.
Proof.
  intros ([Hn|Hn] & Hc & Hs & Hm) Hne; unfold errorHandler;
    rewrite Hn, Hc, Hs, Hm;
    repeat (rewrite bool_decide_eq_false_2; [|done]); done.
Qed.

Lemma errorHandler_DuplicateKey development keys err :
  raised (DuplicateKey keys) err →
  errorHandler development err =
    Some {| status := 409; error := DUPLICATE_ENTRY;
            reply_message :=
              Some ("Duplicate value for field: " +:+ default "undefined" (keys !! 0%nat));
            details := None; reply_stack := None |}.
Proof.
  intros (Hn & Hc & Hk). unfold errorHandler.
  rewrite (bool_decide_eq_false_2 _ Hn), Hc, Hk.
  by rewrite bool_decide_eq_true_2.
Qed.

Lemma errorHandler_ValidationError development paths err :
  raised (ValidationError paths) err →
  ∃ messages,
    errorHandler development err =
      Some {| status := 400; error := VALIDATION_ERROR;
              reply_message := Some "Validation failed";
              details := Some messages; reply_stack := None |}.
Proof.
  intros (Hn & [messages Hm]). unfold errorHandler.
  rewrite Hn, Hm. rewrite bool_decide_eq_true_2 by done. by exists messages.
Qed.

Lemma tagged_ne a p s : String a p +:+ s ≠ "".
Proof. by rewrite app_String. Qed.

Section Controller.

Import Attendance AttendanceService AttendanceController.

Variable tz : Z.
Variable generateId : list Doc → ObjectId.
Variable Student_exists : ObjectId → bool.
Variable AuditLog_log : AuditEntry → list AuditEntry → Result (list AuditEntry).

(** X25. A batch that the attendance service refuses, because the class is
    not one of the recorder's school or because a record names a student
    without active membership of the class, is no client error to the
    application: the controller writes nothing and hands a plain [Error] to
    [next], which the error handler answers with status 500 and the message
    of the service as [error]. *)
Theorem refused_batch_is_answered_500
  (development : bool) (env : Env) (req : Request) (db : Db) (day : Date)
  (batch : list Entry) :
  date req = Some day → records req = Some (Array batch) → batch ≠ [] →
  SchoolClass.findOne (classId req) (schoolId (user req)) (classes db) = None ∨
  (∃ bad, bad ∈ batch ∧ ¬ active_in db (classId req) (studentId bad)) →
  ∃ msg,
    AttendanceController.markClassAttendance tz generateId Student_exists
      AuditLog_log env req db = (Next (Error msg), db) ∧
    ∀ err, raised (Error msg) err →
           errorHandler development err =
             Some {| ErrorHandler.status := 500; ErrorHandler.error := msg;
                     ErrorHandler.reply_message := None;
                     ErrorHandler.details := None;
                     ErrorHandler.reply_stack :=
                       if development then stack err else None |}.
Proof.
  intros Hd Hr Hne Hwhy.
  destruct (AttendanceProps.refused tz generateId Student_exists AuditLog_log env
              (classId req) day batch (user req) db Hne) as (msg & Hmsg & Hs).
  exists msg. split.
  - unfold AttendanceController.markClassAttendance. rewrite Hd, Hr.
    rewrite bool_decide_eq_false_2 by (by destruct batch).
    by rewrite Hs.
  - intros err Herr. by apply errorHandler_Error.
Qed.

End Controller.

(** X26. A membership that [Enrollment.create] refuses is answered by the
    error handler according to the kind of the refusal: 400 'Validation
    failed' for a document the schema rejects, 500 with the message of the
    hook when the class is missing or of another academic year, and 409 for
    a duplicate, whose message names only the first key of the violated
    index: [studentId] for a second active membership, [_id] for a second
    document with the same id. *)
Theorem refused_enrollment_replies
  (development : bool) (env : Env) (i : Enrollment.init) (db : Enrollment.Db)
  (e : JsError) (err : Thrown) :
  Enrollment.create env i db = Err e → raised e err →
  ∃ r, errorHandler development err = Some r ∧
       match e with
       | ValidationError _ =>
           status r = 400 ∧ error r = VALIDATION_ERROR ∧
           reply_message r = Some "Validation failed"
       | Error msg =>
           status r = 500 ∧ error r = msg ∧ reply_message r = None
       | DuplicateKey _ =>
           status r = 409 ∧ error r = DUPLICATE_ENTRY ∧
           (reply_message r = Some "Duplicate value for field: studentId" ∨
            reply_message r = Some "Duplicate value for field: _id")
       | DocumentNotFoundError => False
       end.
Proof.
  unfold Enrollment.create.
  destruct (Enrollment.invalid_paths _) as [|x l] eqn:Hv.
  - destruct (Enrollment.pre_save_class _ _ _) as [d1|e1] eqn:Hpre.
    + unfold Enrollment.insertOne.
      destruct (bool_decide (Exists _ _)).
      * intros [= <-] Herr. eexists. split; [by apply errorHandler_DuplicateKey|].
        simpl. auto.
      * destruct (Enrollment.index_conflict _ _); [|done].
        intros [= <-] Herr. eexists. split; [by apply errorHandler_DuplicateKey|].
        simpl. auto.
    + intros [= <-] Herr.
      assert (∃ msg, e1 = Error msg ∧ msg ≠ "") as (msg & -> & Hmsg).
      { unfold Enrollment.pre_save_class in Hpre. simpl in Hpre.
        destruct (SchoolClass.findById _ _); [|injection Hpre as <-; by eexists].
        destruct (bool_decide (_ = SchoolClass.academicYear _)); [done|].
        injection Hpre as <-. eexists. split; [done|]. apply tagged_ne. }
      eexists. split; [by apply errorHandler_Error|]. done.
  - intros [= <-] Herr.
    destruct (errorHandler_ValidationError development _ _ Herr) as [ms ->].
    eexists. split; [done|]. done.
Qed.

Lemma refused_batch_is_answered_500_witness :
  ∃ msg,
    AttendanceController.markClassAttendance 0 AttendanceFixtures.numbered
      AttendanceReadsFixtures.everyone AttendanceFixtures.append_log
      (Fixtures.at_ AttendanceFixtures.morning "x") HttpFixtures.stranger
      AttendanceFixtures.monday =
      (AttendanceController.Next (Error msg), AttendanceFixtures.monday) ∧
    ∀ err, raised (Error msg) err →
           errorHandler false err =
             Some {| status := 500; error := msg; reply_message := None;
                     details := None; reply_stack := None |}.
Proof.
  apply (refused_batch_is_answered_500 0 AttendanceFixtures.numbered
           AttendanceReadsFixtures.everyone AttendanceFixtures.append_log false
           (Fixtures.at_ AttendanceFixtures.morning "x") HttpFixtures.stranger
           AttendanceFixtures.monday AttendanceFixtures.morning
           [AttendanceFixtures.entry "s1" "present";
            AttendanceFixtures.entry "s9" "present"]); [done..|].
  right. exists (AttendanceFixtures.entry "s9" "present"). split; [set_solver|].
  intros (e & He & _ & _ & Hs). simpl in He.
  apply elem_of_cons in He as [->|He]; [done|].
  apply list_elem_of_singleton in He as ->. done.
Defined.

Lemma refused_enrollment_replies_witness :
  ∃ r, errorHandler false HttpFixtures.duplicate_membership = Some r ∧
       status r = 409 ∧ error r = DUPLICATE_ENTRY ∧
       (reply_message r = Some "Duplicate value for field: studentId" ∨
        reply_message r = Some "Duplicate value for field: _id").
Proof.
  apply (refused_enrollment_replies false (Fixtures.at_ 11 "e2")
           MembershipFixtures.john_again
           (MembershipFixtures.school [MembershipFixtures.john])
           (DuplicateKey Enrollment.active_key) HttpFixtures.duplicate_membership).
  - by vm_compute.
  - by split_and!.
Defined.

End ErrorReplyProps.
